(** * cubrid-exporter: the scrape cycle, its scrapers and the request handler

    A shallow embedding of the Go sources of the exporter:

    - package [collector]: the [Scraper] interface ([scraper.go]), the
      [Exporter] with [Collect], [scrape] and its [Metrics], and the three
      scrapers [ScrapeBrokerStatus], [ScrapeStatdump] and
      [ScrapeSpaceDBStatus] ([spacedb.go]);
    - package [main] ([cubrid_exporter.go]): [newHandler], the table
      [scrapers] and the flags of [main].

    Sample values are IEEE binary64 numbers ([float]), counters are the
    unsigned integers the Prometheus client increments, text columns are
    [string]s.  A scraper writes its samples to the channel before it
    returns, so one run of a scraper is the list of samples it sent together
    with the error it returned.  The goroutines of one cycle are the threads
    of an interleaving machine whose scheduler is a list of thread ids. *)

From Stdlib Require Import ZArith Floats Ascii String List Lia.
From stdpp Require Import gmap strings list.

Local Open Scope string_scope.
Local Open Scope list_scope.

(** ** [strconv.ParseFloat]

    The Go standard library is not part of the repository.  The collector
    is parameterised by the parser; [ParseFloat] below implements the
    library function on decimal text, with its rounding to the nearest
    binary64 number, and instantiates the parameter in the examples. *)
Module Strconv.

Local Open Scope Z_scope.

(** [strconv.ErrSyntax] and [strconv.ErrRange]. *)
Inductive NumError := ErrSyntax | ErrRange.

(** The result pair [(f, err)] of [strconv.ParseFloat(s, 64)]. *)
Definition Parser := string -> float * option NumError.

Definition isDigit (c : ascii) : bool :=
  let n := N_of_ascii c in ((48 <=? n) && (n <=? 57))%N.

Definition digitVal (c : ascii) : Z := Z.of_N (N_of_ascii c) - 48.

(** Reads a run of decimal digits: the number read so far, how many
    digits were read, and the rest of the input. *)
Fixpoint readDigits (acc : Z) (cnt : Z) (s : list ascii) : Z * Z * list ascii :=
  match s with
  | c :: s' =>
      if isDigit c then readDigits (10 * acc + digitVal c) (cnt + 1) s'
      else (acc, cnt, s)
  | [] => (acc, cnt, s)
  end.

Definition readSign (s : list ascii) : bool * list ascii :=
  match s with
  | "+"%char :: s' => (false, s')
  | "-"%char :: s' => (true, s')
  | _ => (false, s)
  end.

(** The nearest binary64 number to [n / d] (for [0 < n], [0 < d]), ties to
    even.  [ErrRange] with an infinity when the rounded value does not fit;
    a value that underflows is rounded to a subnormal or to zero without
    an error. *)
Definition roundRatio (neg : bool) (n d : Z) : float * option NumError :=
  let s0 := 52 - (Z.log2 n - Z.log2 d) in
  let q0 := if 0 <=? s0 then Z.shiftl n s0 / d else n / Z.shiftl d (- s0) in
  let s1 := if q0 <? 2 ^ 52 then s0 + 1 else s0 in
  let s := Z.min s1 1074 in
  let num := if 0 <=? s then Z.shiftl n s else n in
  let den := if 0 <=? s then d else Z.shiftl d (- s) in
  let q := num / den in
  let r := num mod den in
  let q' := if (den <? 2 * r) || ((den =? 2 * r) && Z.odd q) then q + 1 else q in
  if (1024 <? Z.log2 q' + 1 - s) && (0 <? q')
  then ((if neg then PrimFloat.neg_infinity else PrimFloat.infinity), Some ErrRange)
  else
    match q' with
    | Zpos m => (SF2Prim (S754_finite neg m (- s)), None)
    | _ => ((if neg then PrimFloat.neg_zero else PrimFloat.zero), None)
    end.

(** The value [m * 10^e] of a decimal literal. *)
Definition decimalValue (neg : bool) (m nd e : Z) : float * option NumError :=
  if m =? 0 then ((if neg then PrimFloat.neg_zero else PrimFloat.zero), None)
  else if 310 <? e then ((if neg then PrimFloat.neg_infinity else PrimFloat.infinity), Some ErrRange)
  else if e + nd <? -330 then ((if neg then PrimFloat.neg_zero else PrimFloat.zero), None)
  else if 0 <=? e then roundRatio neg (m * 10 ^ e) 1
  else roundRatio neg m (10 ^ (- e)).

(** The optional exponent part [e[+-]ddd] and the end of the input. *)
Definition readExponent (s : list ascii) : option Z :=
  match s with
  | [] => Some 0
  | c :: s' =>
      if (Ascii.eqb c "e" || Ascii.eqb c "E")%bool then
        let '(eneg, s'') := readSign s' in
        match readDigits 0 0 s'' with
        | (e, cnt, []) =>
            if 0 <? cnt then Some (if eneg then - e else e) else None
        | _ => None
        end
      else None
  end.

Definition toLower (c : ascii) : ascii :=
  let n := N_of_ascii c in
  if ((65 <=? n) && (n <=? 90))%N then ascii_of_N (n + 32) else c.

(** The special values: "NaN", and "Inf" or "Infinity" with an optional
    sign, in any case of the letters. *)
Definition special (s : list ascii) : option float :=
  let low := List.map toLower s in
  if String.eqb (string_of_list_ascii low) "nan" then Some PrimFloat.nan
  else
    let '(neg, rest) := readSign low in
    if (String.eqb (string_of_list_ascii rest) "inf"
        || String.eqb (string_of_list_ascii rest) "infinity")%bool
    then Some (if neg then PrimFloat.neg_infinity else PrimFloat.infinity)
    else None.

(** The special values and the decimal literals [[+-]ddd[.ddd][e[+-]ddd]]
    with at least one mantissa digit; any other text is answered with
    [ErrSyntax] and the value 0 (hexadecimal literals, which the library
    also reads, are left out). *)
Definition ParseFloat : Parser := fun str =>
  match special (list_ascii_of_string str) with
  | Some f => (f, None)
  | None =>
      let '(neg, s) := readSign (list_ascii_of_string str) in
      let '(ip, ni, s1) := readDigits 0 0 s in
      let '(m, nf, s2) :=
        match s1 with
        | "."%char :: s1' => readDigits ip 0 s1'
        | _ => (ip, 0, s1)
        end in
      if ni + nf =? 0 then (PrimFloat.zero, Some ErrSyntax)
      else
        match readExponent s2 with
        | Some e => decimalValue neg m (ni + nf) (e - nf)
        | None => (PrimFloat.zero, Some ErrSyntax)
        end
  end.

End Strconv.

Import Strconv.

(** ** Samples, errors and the output channel *)

(** The metric descriptors of the package, by the name of the Go variable
    (for a counter or gauge of [Metrics], by the field). *)
Inductive Desc :=
| scrapeDurationDesc
| BrokerInfo
| StatdumpInfo
| VolNoInfo
| TotalScrapesDesc
| ScrapeErrorsDesc
| ErrorDesc
| CubridUpDesc.

(** A gauge holds a float64; a counter that is only ever [Inc]ed holds an
    unsigned integer. *)
Inductive Value :=
| GaugeValue (v : float)
| CounterValue (n : N).

(** What travels on [ch chan<- prometheus.Metric]. *)
Record Metric := MkMetric {
  m_desc : Desc;
  m_value : Value;
  m_labels : list string
}.

(** [prometheus.MustNewConstMetric(desc, prometheus.GaugeValue, v, labels...)].
    Every call in the package passes as many label values as the descriptor
    declares, so the constructor does not panic. *)
Definition MustNewConstMetric (d : Desc) (v : float) (labelValues : list string) : Metric :=
  MkMetric d (GaugeValue v) labelValues.

(** Go [error] values met in a cycle. *)
Inductive error :=
| DriverError (msg : string)           (* from database/sql or the driver *)
| ScanError (want got : nat)           (* Scan: wrong number of columns *)
| NumError_ (fn input : string) (e : NumError).   (* *strconv.NumError *)

(** The effect of a function that sends on the channel and may return an
    error: what it sent, and how it ended. *)
Definition Emit (A : Type) : Type := list Metric * (error + A).

Definition emit_ret {A} (x : A) : Emit A := ([], inr x).
Definition emit_fail {A} (e : error) : Emit A := ([], inl e).
Definition emit_bind {A B} (f : A -> Emit B) (c : Emit A) : Emit B :=
  match c with
  | (out, inl e) => (out, inl e)
  | (out, inr x) => let '(out', r) := f x in (out ++ out', r)
  end.

#[global] Instance Emit_ret : MRet Emit := @emit_ret.
#[global] Instance Emit_bind : MBind Emit := @emit_bind.

(** [ch <- m]. *)
Definition send (m : Metric) : Emit unit := ([m], inr tt).

(** The samples sent, and the returned [error] ([None] is [nil]). *)
Definition sent {A} (c : Emit A) : list Metric := fst c.
Definition returned {A} (c : Emit A) : option error :=
  match snd c with inl e => Some e | inr _ => None end.

(** ** Durations and contexts *)

(** [time.Duration]: nanoseconds in an int64.  [None] stands for the result
    of converting a float64 that int64 cannot represent, which Go leaves to
    the implementation. *)
Definition Duration := option Z.

Definition Second : Z := 1000000000.
Definition Minute : Z := 60 * Second.

(** The conversion [time.Duration(x)] of a float64: the fraction is
    discarded. *)
Definition toDuration (x : float) : Duration :=
  match Prim2SF x with
  | S754_zero _ => Some 0%Z
  | S754_finite sign m e =>
      let v := (if 0 <=? e then Zpos m * 2 ^ e else Zpos m / 2 ^ (- e))%Z in
      let v := if sign then (- v)%Z else v in
      if ((- 2 ^ 63 <=? v) && (v <? 2 ^ 63))%Z then Some v else None
  | _ => None
  end.

Definition float64_Second : float := 1000000000%float.

(** [context.Context]: the request's own context, or its child made by
    [context.WithTimeout]. *)
Inductive Context :=
| RequestContext
| WithTimeout (timeout : Duration).

(** ** The database *)

(** One row handed out by [rows.Next()]: the row cannot be read, or its
    columns as text. *)
Inductive Row :=
| RowErr (e : error)
| RowCols (cols : list string).

(** [db.QueryContext(ctx, query)]: an error, or the rows that [Next]
    delivers before it returns false. *)
Definition DB := Context -> string -> error + list Row.

(** [for rows.Next() { body }]. *)
Fixpoint forRows (body : Row -> Emit unit) (rows : list Row) : Emit unit :=
  match rows with
  | [] => mret tt
  | r :: rows' => body r ;; forRows body rows'
  end.

Definition QueryContext (db : DB) (ctx : Context) (query : string) : Emit (list Row) :=
  match db ctx query with
  | inl e => emit_fail e
  | inr rows => mret rows
  end.

(** [rows.Scan(&a, &b)] and its 6 and 15 column versions. *)
Definition Scan2 (r : Row) : Emit (string * string) :=
  match r with
  | RowErr e => emit_fail e
  | RowCols [a; b] => mret (a, b)
  | RowCols cols => emit_fail (ScanError 2 (length cols))
  end.

Definition Scan6 (r : Row) : Emit (string * string * string * string * string * string) :=
  match r with
  | RowErr e => emit_fail e
  | RowCols [a; b; c; d; e; f] => mret (a, b, c, d, e, f)
  | RowCols cols => emit_fail (ScanError 6 (length cols))
  end.

Definition Scan15 (r : Row)
  : Emit (string * string * string * string * string * string * string * string
          * string * string * string * string * string * string * string) :=
  match r with
  | RowErr e => emit_fail e
  | RowCols [a; b; c; d; e; f; g; h; i; j; k; l; m; n; o] =>
      mret (a, b, c, d, e, f, g, h, i, j, k, l, m, n, o)
  | RowCols cols => emit_fail (ScanError 15 (length cols))
  end.

(** ** The scrapers *)

(** [type Scraper interface]. *)
Record Scraper := MkScraper {
  Name : string;
  Help : string;
  Version : float;
  Scrape : Context -> DB -> Emit unit
}.

Section Scrapers.

(** [strconv.ParseFloat(s, 64)]. *)
Variable parseFloat : Parser.

(** [f, err := strconv.ParseFloat(s, 64); if err != nil { return err }]. *)
Definition parseOrFail (s : string) : Emit float :=
  match parseFloat s with
  | (_, Some e) => emit_fail (NumError_ "ParseFloat" s e)
  | (f, None) => mret f
  end.

(** [f, _ := strconv.ParseFloat(s, 64)]. *)
Definition parseDiscard (s : string) : float := fst (parseFloat s).

(** *** statdump *)

Definition statdump : string := "statdump".
Definition statdumpQuery : string := "show statdump demodb".

Definition statdumpRow (r : Row) : Emit unit :=
  '(key, value) ← Scan2 r;
  floatValue ← parseOrFail value;
  send (MustNewConstMetric StatdumpInfo floatValue [key]).

Definition ScrapeStatdump : Scraper := {|
  Name := statdump;
  Help := "Scrape information from statdump Query";
  Version := 0x1.4666666666666p+3%float;   (* 10.2 *)
  Scrape ctx db :=
    statdumpRows ← QueryContext db ctx statdumpQuery;
    forRows statdumpRow statdumpRows
|}.

(** *** broker_status *)

Definition brokerStatus : string := "broker_status".
Definition brokerStatusQuery : string := "show brokers".

Definition brokerStatusRow (r : Row) : Emit unit :=
  '(broker_name, num_as, pid, port, qsize, num_select, num_insert,
    num_update, num_delete, num_trans, num_query, num_conns,
    num_long_query, num_error_query, num_uniq_error) ← Scan15 r;
  let count := parseDiscard num_as in
  send (MustNewConstMetric BrokerInfo count [broker_name; "num_as"]);;
  let count := parseDiscard pid in
  send (MustNewConstMetric BrokerInfo count [broker_name; "pid"]);;
  let count := parseDiscard port in
  send (MustNewConstMetric BrokerInfo count [broker_name; "port"]);;
  let count := parseDiscard qsize in
  send (MustNewConstMetric BrokerInfo count [broker_name; "qsize"]);;
  let count := parseDiscard num_select in
  send (MustNewConstMetric BrokerInfo count [broker_name; "num_select"]);;
  let count := parseDiscard num_insert in
  send (MustNewConstMetric BrokerInfo count [broker_name; "num_insert"]);;
  let count := parseDiscard num_update in
  send (MustNewConstMetric BrokerInfo count [broker_name; "num_update"]);;
  let count := parseDiscard num_delete in
  send (MustNewConstMetric BrokerInfo count [broker_name; "num_delete"]);;
  let count := parseDiscard num_trans in
  send (MustNewConstMetric BrokerInfo count [broker_name; "num_trans"]);;
  let count := parseDiscard num_query in
  send (MustNewConstMetric BrokerInfo count [broker_name; "num_query"]);;
  let count := parseDiscard num_conns in
  send (MustNewConstMetric BrokerInfo count [broker_name; "num_conns"]);;
  let count := parseDiscard num_long_query in
  send (MustNewConstMetric BrokerInfo count [broker_name; "num_long_query"]);;
  let count := parseDiscard num_error_query in
  send (MustNewConstMetric BrokerInfo count [broker_name; "num_error_query"]);;
  let count := parseDiscard num_uniq_error in
  send (MustNewConstMetric BrokerInfo count [broker_name; "num_uniq_error"]).

Definition ScrapeBrokerStatus : Scraper := {|
  Name := brokerStatus;
  Help := "Scrape information from brokerStatusQuery";
  Version := 0x1.4666666666666p+3%float;   (* 10.2 *)
  Scrape ctx db :=
    brokerStatusRows ← QueryContext db ctx brokerStatusQuery;
    forRows brokerStatusRow brokerStatusRows
|}.

(** *** spacedb *)

Definition spacedbStatus : string := "spacedb".
Definition spacedbQuery : string := "show spacedb demodb".

(** [average := fUsedPagesValue / (fUsedPagesValue + fFreePagesValue) * 100]
    followed by [if fUsedPagesValue == 0 { average = 0 }]. *)
Definition average (fUsedPagesValue fFreePagesValue : float) : float :=
  let average := (fUsedPagesValue / (fUsedPagesValue + fFreePagesValue) * 100)%float in
  if (fUsedPagesValue =? 0)%float then 0%float else average.

Definition spaceDbRow (r : Row) : Emit unit :=
  '(vol_no, _type, purpose, count, used_pages, free_pages) ← Scan6 r;
  let fValue := parseDiscard _type in
  send (MustNewConstMetric VolNoInfo fValue [vol_no; "_type"]);;
  let fValue := parseDiscard _type in
  send (MustNewConstMetric VolNoInfo fValue [vol_no; "purpose"]);;
  let fValue := parseDiscard count in
  send (MustNewConstMetric VolNoInfo fValue [vol_no; "count"]);;
  let fValue := parseDiscard used_pages in
  let fUsedPagesValue := fValue in
  send (MustNewConstMetric VolNoInfo fValue [vol_no; "used_pages"]);;
  let fValue := parseDiscard free_pages in
  let fFreePagesValue := fValue in
  send (MustNewConstMetric VolNoInfo fValue [vol_no; "free_pages"]);;
  send (MustNewConstMetric VolNoInfo (average fUsedPagesValue fFreePagesValue)
          [vol_no; "usedPercentage"]).

Definition ScrapeSpaceDBStatus : Scraper := {|
  Name := spacedbStatus;
  Help := "Scrape information from spacedbQuery";
  Version := 0x1.4666666666666p+3%float;   (* 10.2 *)
  Scrape ctx db :=
    spaceDbRows ← QueryContext db ctx spacedbQuery;
    forRows spaceDbRow spaceDbRows
|}.

End Scrapers.

(** ** The exporter's own metrics ([type Metrics struct]) *)

Record Metrics := MkMetrics {
  TotalScrapes : N;                (* prometheus.Counter *)
  ScrapeErrors : gmap string N;    (* *prometheus.CounterVec, by "collector" *)
  Error : float;                   (* prometheus.Gauge *)
  CubridUp : float                 (* prometheus.Gauge *)
}.

(** [NewMetrics()]: fresh counters and gauges are 0, the vector has no
    child yet. *)
Definition NewMetrics : Metrics := MkMetrics 0 ∅ 0%float 0%float.

(** The value of the child of [ScrapeErrors] for [label] (0 before its
    first [Inc]). *)
Definition scrapeErrors (m : Metrics) (label : string) : N :=
  default 0%N (ScrapeErrors m !! label).

(** [ScrapeErrors.WithLabelValues(label).Inc()]. *)
Definition incScrapeErrors (label : string) (m : Metrics) : Metrics :=
  MkMetrics (TotalScrapes m)
            (<[label := (scrapeErrors m label + 1)%N]> (ScrapeErrors m))
            (Error m) (CubridUp m).

Definition incTotalScrapes (m : Metrics) : Metrics :=
  MkMetrics (TotalScrapes m + 1)%N (ScrapeErrors m) (Error m) (CubridUp m).

Definition setError (v : float) (m : Metrics) : Metrics :=
  MkMetrics (TotalScrapes m) (ScrapeErrors m) v (CubridUp m).

Definition setCubridUp (v : float) (m : Metrics) : Metrics :=
  MkMetrics (TotalScrapes m) (ScrapeErrors m) (Error m) v.

(** The samples the four collectors of [Metrics] put on the channel. *)
Definition sampleTotalScrapes (m : Metrics) : Metric :=
  MkMetric TotalScrapesDesc (CounterValue (TotalScrapes m)) [].
Definition sampleError (m : Metrics) : Metric :=
  MkMetric ErrorDesc (GaugeValue (Error m)) [].
Definition sampleCubridUp (m : Metrics) : Metric :=
  MkMetric CubridUpDesc (GaugeValue (CubridUp m)) [].
Definition samplesScrapeErrors (m : Metrics) : list Metric :=
  List.map (fun kv => MkMetric ScrapeErrorsDesc (CounterValue (snd kv)) [fst kv])
           (map_to_list (ScrapeErrors m)).

(** ** Log lines *)

Inductive LogLine :=
| LogParseTimeout (e : NumError)                 (* Failed to parse timeout from Prometheus header *)
| LogTimeoutOffset (offset timeoutSeconds : float) (* Timeout offset ... should be lower than ... *)
| LogCollectQuery (params : list string)         (* collect query: *)
| LogOpen (e : error)                            (* Error opening connection to database: *)
| LogScrape (label : string) (e : error).        (* Error scraping for <label>: *)

(** ** The scrape cycle as an interleaving machine

    [Exporter.Collect] runs [Exporter.scrape] and then sends the exporter's
    own metrics.  [scrape] starts one goroutine per scraper; the deferred
    [wg.Wait()] and [db.Close()] run, in this order, when it returns. *)

(** The handle [sql.Open] returned: how often it was asked for and closed,
    and its pool settings (as [database/sql] initialises them). *)
Record Conn := MkConn {
  opens : nat;
  closes : nat;
  maxOpen : Z;           (* 0: unlimited *)
  maxIdle : Z;           (* defaultMaxIdleConns *)
  maxLifetime : Z        (* nanoseconds; 0: for ever *)
}.

Definition noConn : Conn := MkConn 0 0 0 2 0.

Inductive Instr :=
| TotalScrapes_Inc
| Error_Set (v : float)
| CubridUp_Set (v : float)
| ScrapeErrors_Inc (label : string)
| Log (l : LogLine)
| sql_Open
| db_SetMaxOpenConns (n : Z)
| db_SetMaxIdleConns (n : Z)
| db_SetConnMaxLifetime (d : Z)
| db_Close
| Send (m : Metric)                 (* ch <- m *)
| Send_TotalScrapes                 (* ch <- e.metrics.TotalScrapes *)
| Send_Error                        (* ch <- e.metrics.Error *)
| ScrapeErrors_Collect              (* e.metrics.ScrapeErrors.Collect(ch) *)
| Send_CubridUp                     (* ch <- e.metrics.CubridUp *)
| wg_Add (n : Z)
| Go (ctx : Context) (db : DB) (scraper : Scraper)   (* go func(scraper Scraper) {...}(scraper) *)
| wg_Done
| wg_Wait.

(** The threads of a cycle: the goroutine that runs [Collect], and the
    goroutines it starts, numbered in the order of their start. *)
Inductive Tid :=
| Main
| Unit (k : nat).

(** A started goroutine: its scraper, what it has executed and what it
    still has to execute. *)
Record Goroutine := MkGoroutine {
  g_scraper : Scraper;
  g_done : list Instr;
  g_code : list Instr
}.

Record State := MkState {
  st_done : list Instr;             (* executed by [Main] *)
  st_main : list Instr;             (* still to execute by [Main] *)
  st_units : list Goroutine;
  st_wg : Z;                        (* the counter of [wg] *)
  st_metrics : Metrics;
  st_conn : Conn;
  st_out : list (Tid * Metric);     (* the channel: each sample with its sender *)
  st_log : list LogLine
}.

Section Cycle.

(** [time.Since(scrapeTime).Seconds()] as measured for each phase. *)
Variable since : string -> float.

(** [sql.Open("cubrid", dsn)]. *)
Variable sqlOpen : string -> string -> error + DB.

Definition durationSample (label : string) : Metric :=
  MustNewConstMetric scrapeDurationDesc (since label) [label].

(** The body of the goroutine for [scraper]. *)
Definition unitCode (ctx : Context) (db : DB) (scraper : Scraper) : list Instr :=
  let label := "collect." +:+ Name scraper in
  let r := Scrape scraper ctx db in
  List.map Send (sent r)
  ++ match returned r with
     | Some err => [Log (LogScrape label err); ScrapeErrors_Inc label; Error_Set 1]
     | None => []
     end
  ++ [Send (durationSample label); wg_Done].

(** [for _, scraper := range e.scrapers { wg.Add(1); go ... }]. *)
Definition loopCode (ctx : Context) (db : DB) (scrapers : list Scraper) : list Instr :=
  flat_map (fun scraper => [wg_Add 1; Go ctx db scraper]) scrapers.

(** [Exporter.scrape(ctx, ch)], the deferred calls in the order they run. *)
Definition scrapeCode (ctx : Context) (dsn : string) (scrapers : list Scraper) : list Instr :=
  [TotalScrapes_Inc; sql_Open]
  ++ match sqlOpen "cubrid" dsn with
     | inl err => [Log (LogOpen err); Error_Set 1]
     | inr db =>
         [db_SetMaxOpenConns 1; db_SetMaxIdleConns 1; db_SetConnMaxLifetime (1 * Minute);
          CubridUp_Set 1; Error_Set 0; Send (durationSample "connection")]
         ++ loopCode ctx db scrapers
         ++ [wg_Wait; db_Close]
     end.

(** [Exporter.Collect(ch)]. *)
Definition collectTail : list Instr :=
  [Send_TotalScrapes; Send_Error; ScrapeErrors_Collect; Send_CubridUp].

Definition collectCode (ctx : Context) (dsn : string) (scrapers : list Scraper) : list Instr :=
  scrapeCode ctx dsn scrapers ++ collectTail.

(** The effect of one instruction executed by thread [t]; [None] when the
    thread cannot go on ([wg.Wait()] with a positive counter blocks,
    [wg.Done()] with a counter that is not positive panics). *)
Definition exec (t : Tid) (i : Instr) (st : State) : option State :=
  let '(MkState dn mn us wg m c out lg) := st in
  match i with
  | TotalScrapes_Inc => Some (MkState dn mn us wg (incTotalScrapes m) c out lg)
  | Error_Set v => Some (MkState dn mn us wg (setError v m) c out lg)
  | CubridUp_Set v => Some (MkState dn mn us wg (setCubridUp v m) c out lg)
  | ScrapeErrors_Inc label => Some (MkState dn mn us wg (incScrapeErrors label m) c out lg)
  | Log l => Some (MkState dn mn us wg m c out (lg ++ [l]))
  | sql_Open =>
      Some (MkState dn mn us wg m
              (MkConn (S (opens c)) (closes c) (maxOpen c) (maxIdle c) (maxLifetime c)) out lg)
  | db_SetMaxOpenConns n =>
      Some (MkState dn mn us wg m
              (MkConn (opens c) (closes c) n (maxIdle c) (maxLifetime c)) out lg)
  | db_SetMaxIdleConns n =>
      Some (MkState dn mn us wg m
              (MkConn (opens c) (closes c) (maxOpen c) n (maxLifetime c)) out lg)
  | db_SetConnMaxLifetime d =>
      Some (MkState dn mn us wg m
              (MkConn (opens c) (closes c) (maxOpen c) (maxIdle c) d) out lg)
  | db_Close =>
      Some (MkState dn mn us wg m
              (MkConn (opens c) (S (closes c)) (maxOpen c) (maxIdle c) (maxLifetime c)) out lg)
  | Send x => Some (MkState dn mn us wg m c (out ++ [(t, x)]) lg)
  | Send_TotalScrapes => Some (MkState dn mn us wg m c (out ++ [(t, sampleTotalScrapes m)]) lg)
  | Send_Error => Some (MkState dn mn us wg m c (out ++ [(t, sampleError m)]) lg)
  | ScrapeErrors_Collect =>
      Some (MkState dn mn us wg m c (out ++ List.map (pair t) (samplesScrapeErrors m)) lg)
  | Send_CubridUp => Some (MkState dn mn us wg m c (out ++ [(t, sampleCubridUp m)]) lg)
  | wg_Add n => Some (MkState dn mn us (wg + n) m c out lg)
  | Go ctx db scraper =>
      Some (MkState dn mn (us ++ [MkGoroutine scraper [] (unitCode ctx db scraper)]) wg m c out lg)
  | wg_Done => if (0 <? wg)%Z then Some (MkState dn mn us (wg - 1) m c out lg) else None
  | wg_Wait => if (wg =? 0)%Z then Some st else None
  end.

(** Thread [t] executes its next instruction. *)
Definition step (t : Tid) (st : State) : option State :=
  let '(MkState dn mn us wg m c out lg) := st in
  match t with
  | Main =>
      match mn with
      | i :: mn' => exec Main i (MkState (dn ++ [i]) mn' us wg m c out lg)
      | [] => None
      end
  | Unit k =>
      match us !! k with
      | Some (MkGoroutine s gd (i :: gc)) =>
          exec (Unit k) i
            (MkState dn mn (<[k := MkGoroutine s (gd ++ [i]) gc]> us) wg m c out lg)
      | _ => None
      end
  end.

(** A schedule is the list of the threads that take the next step. *)
Fixpoint run (sched : list Tid) (st : State) : option State :=
  match sched with
  | [] => Some st
  | t :: sched' =>
      match step t st with
      | Some st' => run sched' st'
      | None => None
      end
  end.

(** The state in which [Collect] is called: the metrics are those of the
    process, shared by the requests. *)
Definition start (ctx : Context) (dsn : string) (scrapers : list Scraper) (m : Metrics) : State :=
  MkState [] (collectCode ctx dsn scrapers) [] 0 m noConn [] [].

(** [Collect] has returned. *)
Definition collected (st : State) : Prop := st_main st = [].

(** The samples thread [t] has sent, in the order of the channel. *)
Definition sentBy (t : Tid) (out : list (Tid * Metric)) : list Metric :=
  List.map snd (List.filter (fun x => match fst x, t with
                                      | Main, Main => true
                                      | Unit a, Unit b => Nat.eqb a b
                                      | _, _ => false
                                      end) out).

End Cycle.

(** ** [cubrid_exporter.go] *)

(** What [newHandler] reads of the request. *)
Record Request := MkRequest {
  collectParams : list string;      (* r.URL.Query()["collect[]"] *)
  timeoutHeader : string            (* r.Header.Get("X-Prometheus-Scrape-Timeout-Seconds") *)
}.

(** [type Exporter struct]. *)
Record Exporter := New {
  e_ctx : Context;
  e_dsn : string;
  e_metrics : Metrics;
  e_scrapers : list Scraper
}.

Section Handler.

Variable parseFloat : Parser.

(** [*timeoutOffset], the flag [--timeout-offset] (0.25 by default). *)
Variable timeoutOffset : float.

Variable dsn : string.

(** The branch [if *timeoutOffset >= timeoutSeconds {...} else {...}]:
    the log line of the first branch and the value of [timeoutSeconds]
    after it. *)
Definition adjustTimeout (timeoutSeconds : float) : list LogLine * float :=
  if (timeoutSeconds <=? timeoutOffset)%float
  then ([LogTimeoutOffset timeoutOffset timeoutSeconds], timeoutSeconds)
  else ([], (timeoutSeconds - timeoutOffset)%float).

(** The context of the cycle, from the header value [v]. *)
Definition handlerContext (v : string) : list LogLine * Context :=
  if String.eqb v "" then ([], RequestContext)
  else
    match parseFloat v with
    | (_, Some err) => ([LogParseTimeout err], RequestContext)
    | (timeoutSeconds, None) =>
        let '(lg, timeoutSeconds) := adjustTimeout timeoutSeconds in
        (lg, WithTimeout (toDuration (timeoutSeconds * float64_Second)%float))
    end.

(** [filters := make(map[string]bool)] filled from the parameters. *)
Definition makeFilters (params : list string) : gmap string bool :=
  foldl (fun filters param => <[param := true]> filters) ∅ params.

(** [filters[name]]: a missing key reads as false. *)
Definition filtersAt (filters : gmap string bool) (name : string) : bool :=
  default false (filters !! name).

Definition filterScrapers (scrapers : list Scraper) (params : list string) : list Scraper :=
  if (0 <? length params)%nat then
    let filters := makeFilters params in
    List.filter (fun scraper => filtersAt filters (Name scraper)) scrapers
  else scrapers.

(** The handler up to the call of the Prometheus handler, which calls
    [Collect] of the exporter built here. *)
Definition newHandler (metrics : Metrics) (scrapers : list Scraper) (r : Request)
  : list LogLine * Exporter :=
  let filteredScrapers := scrapers in
  let params := collectParams r in
  let '(lg, ctx) := handlerContext (timeoutHeader r) in
  let filteredScrapers := filterScrapers filteredScrapers params in
  (lg ++ [LogCollectQuery params], New ctx dsn metrics filteredScrapers).

(** [var scrapers = map[collector.Scraper]bool{...}]: every collection
    method and whether it is enabled by default. *)
Definition scrapers : list (Scraper * bool) :=
  [(ScrapeBrokerStatus parseFloat, true);
   (ScrapeStatdump parseFloat, true);
   (ScrapeSpaceDBStatus parseFloat, true)].

(** The flag [--collect.<name>] of each scraper: what the command line
    says, and the default of the table otherwise. *)
Definition scraperFlags (cmdline : gmap string bool) : list (Scraper * bool) :=
  List.map (fun entry =>
              (fst entry, default (snd entry) (cmdline !! ("collect." +:+ Name (fst entry)))))
           scrapers.

(** [enabledScrapers] of [main]. *)
Definition enabledScrapers (cmdline : gmap string bool) : list Scraper :=
  List.map fst (List.filter snd (scraperFlags cmdline)).

End Handler.

(** ** Result sets used in the statements *)

(** A row of [show spacedb] with its six columns. *)
Definition spaceDbCols (t : string * string * string * string * string * string) : Row :=
  let '(vol_no, _type, purpose, count, used_pages, free_pages) := t in
  RowCols [vol_no; _type; purpose; count; used_pages; free_pages].

(** A database that answers every query with [rows]. *)
Definition answering (rows : list Row) : DB := fun _ _ => inr rows.

(** A database on which [show brokers] fails and the other queries answer
    with one row. *)
Definition demoDB : DB := fun _ query =>
  if String.eqb query brokerStatusQuery then inl (DriverError "query failed")
  else if String.eqb query statdumpQuery then inr [RowCols ["Num_file_creates"; "3"]]
  else inr [RowCols ["0"; "1"; "2"; "3"; "80"; "20"]].

(** An [sql.Open] that returns a handle on [demoDB], and one that fails. *)
Definition demoOpen : string -> string -> error + DB := fun _ _ => inr demoDB.
Definition failingOpen : string -> string -> error + DB :=
  fun driver _ => inl (DriverError ("sql: unknown driver " +:+ driver)).

(** A clock that measures half a second for every phase. *)
Definition demoSince : string -> float := fun _ => 0.5%float.

(** A first cycle of the exporter with the three scrapers on [demoDB], and a
    schedule of its four threads: the goroutines of broker_status (0),
    statdump (1) and spacedb (2) run while [Main] still starts goroutines
    and take turns afterwards. *)
Definition demoStart : State :=
  start demoSince demoOpen RequestContext "dsn" (enabledScrapers ParseFloat ∅) NewMetrics.

Definition demoSchedule : list Tid :=
  repeat Main 10 ++ [Unit 0; Unit 0] ++ repeat Main 2 ++ [Unit 1; Unit 0]
  ++ repeat Main 2 ++ [Unit 2; Unit 2; Unit 2; Unit 0; Unit 0; Unit 1; Unit 1]
  ++ repeat (Unit 2) 5 ++ repeat Main 6.

(** The metrics of the process after that cycle. *)
Definition afterDemo : Metrics :=
  match run demoSince demoSchedule demoStart with
  | Some st => st_metrics st
  | None => NewMetrics
  end.

(** The same request when [sql.Open] fails. *)
Definition failingStart (m0 : Metrics) : State :=
  start demoSince failingOpen RequestContext "dsn" (enabledScrapers ParseFloat ∅) m0.


(** ** What a state says about the past of its threads *)

(** A goroutine has run to its end. *)
Definition finished (g : Goroutine) : bool :=
  match g_code g with [] => true | _ => false end.

(** The goroutines that have not called [wg.Done()] yet. *)
Definition active (us : list Goroutine) : Z :=
  Z.of_nat (length (List.filter (fun g => negb (finished g)) us)).

(** Goroutines still to start minus [wg.Add]s still to make. *)
Fixpoint owed (code : list Instr) : Z :=
  match code with
  | [] => 0
  | Go _ _ _ :: code' => owed code' + 1
  | wg_Add n :: code' => owed code' - n
  | _ :: code' => owed code'
  end.

Definition isWait (i : Instr) : bool :=
  match i with wg_Wait => true | _ => false end.

Definition isErrorSet (i : Instr) : bool :=
  match i with Error_Set _ => true | _ => false end.

(** The samples a piece of goroutine code sends. *)
Fixpoint sends (code : list Instr) : list Metric :=
  match code with
  | [] => []
  | Send m :: code' => m :: sends code'
  | _ :: code' => sends code'
  end.

(** How often a piece of code increments the error counter of [label]. *)
Fixpoint incs (label : string) (code : list Instr) : N :=
  match code with
  | [] => 0
  | ScrapeErrors_Inc l :: code' => (if String.eqb l label then 1 else 0) + incs label code'
  | _ :: code' => incs label code'
  end.

Definition sumIncs (label : string) (us : list Goroutine) : N :=
  fold_right (fun g acc => (incs label (g_done g) + acc)%N) 0%N us.

(** The scrapers of the goroutines a piece of code starts. *)
Fixpoint started (code : list Instr) : list Scraper :=
  match code with
  | [] => []
  | Go _ _ s :: code' => s :: started code'
  | _ :: code' => started code'
  end.

(** The effect of the instructions of [Main] on what only [Main] writes. *)
Definition connStep (c : Conn) (i : Instr) : Conn :=
  match i with
  | sql_Open => MkConn (S (opens c)) (closes c) (maxOpen c) (maxIdle c) (maxLifetime c)
  | db_SetMaxOpenConns n => MkConn (opens c) (closes c) n (maxIdle c) (maxLifetime c)
  | db_SetMaxIdleConns n => MkConn (opens c) (closes c) (maxOpen c) n (maxLifetime c)
  | db_SetConnMaxLifetime d => MkConn (opens c) (closes c) (maxOpen c) (maxIdle c) d
  | db_Close => MkConn (opens c) (S (closes c)) (maxOpen c) (maxIdle c) (maxLifetime c)
  | _ => c
  end.

(** The instructions that open the handle or set its pool. *)
Definition configures (i : Instr) : bool :=
  match i with
  | sql_Open | db_SetMaxOpenConns _ | db_SetMaxIdleConns _ | db_SetConnMaxLifetime _ => true
  | _ => false
  end.

Definition totalStep (n : N) (i : Instr) : N :=
  match i with TotalScrapes_Inc => (n + 1)%N | _ => n end.

Definition upStep (v : float) (i : Instr) : float :=
  match i with CubridUp_Set v' => v' | _ => v end.

Definition errorStep (v : float) (i : Instr) : float :=
  match i with Error_Set v' => v' | _ => v end.

(** What an instruction puts on the channel when the metrics are [m]. *)
Definition emits (m : Metrics) (i : Instr) : list Metric :=
  match i with
  | Send x => [x]
  | Send_TotalScrapes => [sampleTotalScrapes m]
  | Send_Error => [sampleError m]
  | ScrapeErrors_Collect => samplesScrapeErrors m
  | Send_CubridUp => [sampleCubridUp m]
  | _ => []
  end.

(** The goroutine an instruction starts. *)
Definition spawns (since : string -> float) (i : Instr) : list Goroutine :=
  match i with
  | Go c d s => [MkGoroutine s [] (unitCode since c d s)]
  | _ => []
  end.

(** How an instruction moves the counter of the wait group. *)
Definition wgStep (i : Instr) : Z :=
  match i with wg_Add n => n | wg_Done => -1 | _ => 0 end.

(** The instructions of the body of a goroutine. *)
Definition unitInstr (i : Instr) : Prop :=
  match i with
  | Send _ | Log _ | ScrapeErrors_Inc _ => True
  | Error_Set v => v = 1%float
  | _ => False
  end.

(** The shape of the code of [Main]: it starts goroutines with the context
    and the handle of the cycle and only before a [wg.Wait()], does not set
    the error gauge once goroutines run, adds to the wait group no more than
    it starts goroutines afterwards, waits when every goroutine has its
    [wg.Add], closes the handle only after the wait, and leaves [wg.Done()]
    and the error counters to the goroutines. *)
Fixpoint mainOk (ctx : Context) (db : DB) (code : list Instr) : Prop :=
  match code with
  | [] => True
  | i :: code' =>
      match i with
      | Go c d _ =>
          c = ctx /\ d = db /\ existsb isWait code' = true
          /\ existsb isErrorSet code' = false
      | wg_Wait => owed code' = 0%Z
      | wg_Add n => (0 <= owed code' - n)%Z
      | db_Close => existsb isWait code' = false
      | wg_Done | ScrapeErrors_Inc _ => False
      | _ => True
      end /\ mainOk ctx db code'
  end.

(** The label of a scraper in the duration and error metrics. *)
Definition collectLabel (s : Scraper) : string := "collect." +:+ Name s.

(** The scrape of [s] returns an error. *)
Definition fails (ctx : Context) (db : DB) (s : Scraper) : bool :=
  match returned (Scrape s ctx db) with Some _ => true | None => false end.

(** The scrapers of a list that fail and carry [label]. *)
Definition failures (ctx : Context) (db : DB) (label : string) (ss : list Scraper) : N :=
  N.of_nat (length (List.filter
                      (fun s => fails ctx db s && String.eqb (collectLabel s) label) ss)).

(** The instructions left to execute in a state, those of the goroutines
    still to start included. *)
Fixpoint pendingWork (since : string -> float) (code : list Instr) : nat :=
  match code with
  | [] => 0
  | Go c d s :: code' => length (unitCode since c d s) + pendingWork since code'
  | _ :: code' => pendingWork since code'
  end.

Definition unitsWork (us : list Goroutine) : nat :=
  fold_right (fun g acc => length (g_code g) + acc)%nat 0%nat us.

Definition weight (since : string -> float) (st : State) : nat :=
  length (st_main st) + pendingWork since (st_main st) + unitsWork (st_units st).

Section Invariant.

Variable since : string -> float.
Variable ctx : Context.
Variable db : DB.
Variable code : list Instr.      (* the code of [Main] *)
Variable m0 : Metrics.           (* the metrics when [Collect] is called *)

(** What holds in every state of a cycle. *)
Record Inv (st : State) : Prop := {
  inv_code : st_done st ++ st_main st = code;
  inv_main : mainOk ctx db (st_main st);
  inv_units :
    Forall (fun g => g_done g ++ g_code g = unitCode since ctx db (g_scraper g))
           (st_units st);
  inv_started : List.map g_scraper (st_units st) = started (st_done st);
  inv_wg : st_wg st = (active (st_units st) + owed (st_main st))%Z;
  inv_wait :
    existsb isWait (st_main st) = false -> forallb finished (st_units st) = true;
  inv_quiet :
    existsb isErrorSet (st_main st) = true -> st_units st = [];
  inv_out :
    forall k, sentBy (Unit k) (st_out st)
              = match st_units st !! k with
                | Some g => sends (g_done g)
                | None => []
                end;
  inv_errors :
    forall label, scrapeErrors (st_metrics st) label
                  = (scrapeErrors m0 label + sumIncs label (st_units st))%N;
  inv_error :
    Error (st_metrics st)
    = if existsb (fun g => existsb isErrorSet (g_done g)) (st_units st)
      then 1%float
      else fold_left errorStep (st_done st) (Error m0);
  inv_conn : st_conn st = fold_left connStep (st_done st) noConn;
  inv_total : TotalScrapes (st_metrics st) = fold_left totalStep (st_done st) (TotalScrapes m0);
  inv_up : CubridUp (st_metrics st) = fold_left upStep (st_done st) (CubridUp m0);
  inv_close : existsb isWait (st_main st) = true -> closes (st_conn st) = 0%nat
}.

End Invariant.

(** ** Descriptors and their labels *)

(** The variable labels each descriptor is made with ([prometheus.NewDesc],
    and the options of the counters and gauges of [NewMetrics]). *)
Definition variableLabels (d : Desc) : list string :=
  match d with
  | scrapeDurationDesc => ["collector"]
  | BrokerInfo => ["broker_name"; "key"]
  | StatdumpInfo => ["key"]
  | VolNoInfo => ["vol_no"; "key"]
  | ScrapeErrorsDesc => ["collector"]
  | TotalScrapesDesc | ErrorDesc | CubridUpDesc => []
  end.

(** The condition under which [MustNewConstMetric] and [WithLabelValues] do
    not panic: one label value for each variable label. *)
Definition wellLabelled (m : Metric) : Prop :=
  length (m_labels m) = length (variableLabels (m_desc m)).

(** [Exporter.Describe]: the descriptors sent, in their order. *)
Definition Describe : list Desc :=
  [TotalScrapesDesc; ErrorDesc; ScrapeErrorsDesc; CubridUpDesc].

(** A row of [show statdump] with its two columns. *)
Definition statdumpCols (kv : string * string) : Row := RowCols [fst kv; snd kv].

(** ** [getCubridVersion] *)

(** The longest run of digits at the start of a text, and the rest. *)
Fixpoint spanDigits (s : list ascii) : list ascii * list ascii :=
  match s with
  | c :: s' =>
      if isDigit c then let '(ds, rest) := spanDigits s' in (c :: ds, rest)
      else ([], s)
  | [] => ([], [])
  end.

(** [versionRE.FindString(s)] for [versionRE = `^\d+\.\d+`]: digits, a dot
    and digits at the start of the text, as many as there are; the empty
    string when the text does not start so. *)
Definition versionRE_FindString (s : string) : string :=
  let '(d1, r1) := spanDigits (list_ascii_of_string s) in
  match d1, r1 with
  | _ :: _, "."%char :: r2 =>
      match spanDigits r2 with
      | ([], _) => ""
      | (d2, _) => string_of_list_ascii (d1 ++ "."%char :: d2)
      end
  | _, _ => ""
  end.

(** [getCubridVersion(db)], from the outcome of
    [db.QueryRow(versionQuery).Scan(&versionStr)]. *)
Definition getCubridVersion (parseFloat : Parser) (scanned : error + string) : float :=
  let versionNum :=
    match scanned with
    | inr versionStr => fst (parseFloat (versionRE_FindString versionStr))
    | inl _ => 0%float
    end in
  if (versionNum =? 0)%float then 999%float else versionNum.

(** ** What [Main] has sent *)

(** The instructions that send a metric of [Metrics] with its value of the
    moment, and the instructions that change a metric. *)
Definition isRead (i : Instr) : bool :=
  match i with
  | Send_TotalScrapes | Send_Error | ScrapeErrors_Collect | Send_CubridUp => true
  | _ => false
  end.

Definition isWrite (i : Instr) : bool :=
  match i with
  | TotalScrapes_Inc | Error_Set _ | CubridUp_Set _ | ScrapeErrors_Inc _ => true
  | _ => false
  end.

(** The code of [Main] sends its own metrics last: after the first of them
    it does nothing else. *)
Fixpoint readsLast (code : list Instr) : Prop :=
  match code with
  | [] => True
  | i :: code' => (isRead i = true -> forallb isRead code' = true) /\ readsLast code'
  end.

(** What holds of the samples of [Main] in every state of a cycle: they are
    what the executed code sends with the metrics as they are now, and the
    metrics of [Metrics] that were sent are the last samples of the channel. *)
Record MainOut (st : State) : Prop := {
  mo_shape : readsLast (st_main st);
  mo_frozen : existsb isRead (st_done st) = true -> forallb isRead (st_main st) = true;
  mo_out : sentBy Main (st_out st) = flat_map (emits (st_metrics st)) (st_done st);
  mo_last :
    exists pre,
      st_out st
      = pre ++ List.map (pair Main)
                 (flat_map (emits (st_metrics st)) (List.filter isRead (st_done st)))
}.

(** The [wg.Add] calls of a piece of code add one each. *)
Definition addsOne (i : Instr) : Prop :=
  match i with wg_Add n => n = 1%Z | _ => True end.

(** Every child of the vector of error counters has counted an error. *)
Definition childrenCounted (m : Metrics) : Prop :=
  forall label n, ScrapeErrors m !! label = Some n -> (0 < n)%N.

(** The lines of the log about failed scrapes of [label]. *)
Definition scrapeLog (label : string) (lg : list LogLine) : list error :=
  flat_map (fun l => match l with
                     | LogScrape label' e => if String.eqb label' label then [e] else []
                     | _ => []
                     end) lg.

(** ** Requests served one after the other *)

(** A request with what happens while it is served: what [sql.Open]
    returns, what the clock measures, and how the goroutines of its cycle
    are scheduled. *)
Record Served := MkServed {
  sv_request : Request;
  sv_open : string -> string -> error + DB;
  sv_since : string -> float;
  sv_sched : list Tid
}.

Section Serving.

Variable parseFloat : Parser.
Variable timeoutOffset : float.
Variable dsn : string.

(** The scrapers of [handlerFunc], [enabledScrapers] in [main]. *)
Variable enabled : list Scraper.

(** The exporter the handler registers for a request when the metrics of
    the process are [m], and the state in which its [Collect] is called. *)
Definition requestExporter (r : Request) (m : Metrics) : Exporter :=
  snd (newHandler parseFloat timeoutOffset dsn m enabled r).

Definition requestStart (sv : Served) (m : Metrics) : State :=
  let e := requestExporter (sv_request sv) m in
  start (sv_since sv) (sv_open sv) (e_ctx e) (e_dsn e) (e_scrapers e) (e_metrics e).

(** Requests served in turn on the metrics [handlerFunc] shares between
    them: the metrics after the last one; [None] when a schedule does not
    run its cycle to the return of [Collect]. *)
Fixpoint serve (rs : list Served) (m : Metrics) : option Metrics :=
  match rs with
  | [] => Some m
  | sv :: rs' =>
      match run (sv_since sv) (sv_sched sv) (requestStart sv m) with
      | Some st =>
          match st_main st with
          | [] => serve rs' (st_metrics st)
          | _ :: _ => None
          end
      | None => None
      end
  end.

(** [sql.Open] returns a handle while [sv] is served. *)
Definition opened (sv : Served) : bool :=
  match sv_open sv "cubrid" dsn with inr _ => true | inl _ => false end.

(** A scraper selected by the request fails while [sv] is served. *)
Definition scrapeFails (sv : Served) : bool :=
  match sv_open sv "cubrid" dsn with
  | inr db =>
      existsb (fails (snd (handlerContext parseFloat timeoutOffset
                             (timeoutHeader (sv_request sv)))) db)
              (filterScrapers enabled (collectParams (sv_request sv)))
  | inl _ => false
  end.

End Serving.

(** ** The log and the channel of a cycle *)

(** The errors a piece of code logs as failed scrapes of [label]. *)
Definition logged (label : string) (code : list Instr) : list error :=
  scrapeLog label (flat_map (fun i => match i with Log l => [l] | _ => [] end) code).

(** The error the scrape of [s] is logged with under [label]. *)
Definition scrapeError (ctx : Context) (db : DB) (label : string) (s : Scraper) : list error :=
  if String.eqb (collectLabel s) label
  then match returned (Scrape s ctx db) with Some e => [e] | None => [] end
  else [].

(** What the goroutine of [s] sends: the samples of the scrape and its
    duration. *)
Definition unitSamples (since : string -> float) (ctx : Context) (db : DB) (s : Scraper)
  : list Metric :=
  sent (Scrape s ctx db) ++ [durationSample since (collectLabel s)].

(** The descriptor and the label values of a sample: what the registry
    requires to differ between the samples of one response. *)
Definition sampleKey (m : Metric) : Desc * list string := (m_desc m, m_labels m).

(** The descriptors of the exporter itself, as opposed to those of the
    scrapers. *)
Definition ownDesc (d : Desc) : bool :=
  match d with
  | BrokerInfo | StatdumpInfo | VolNoInfo => false
  | _ => true
  end.

(** * Properties *)

(** ** The decimal parser *)

Example ParseFloat_decimal :
  ParseFloat "80" = (80%float, None) /\
  ParseFloat "-12.5E+1" = ((-125)%float, None) /\
  ParseFloat "0.1" = (0x1.999999999999ap-4%float, None) /\
  ParseFloat "4.9e-324" = (0x0.0000000000001p-1022%float, None) /\
  ParseFloat "1.7976931348623157e308" = (0x1.fffffffffffffp+1023%float, None) /\
  ParseFloat "-Infinity" = (PrimFloat.neg_infinity, None) /\
  ParseFloat "iNF" = (PrimFloat.infinity, None) /\
  PrimFloat.is_nan (fst (ParseFloat "NaN")) = true.
Proof. repeat split; reflexivity. Qed.

Example ParseFloat_errors :
  ParseFloat "abc" = (0%float, Some ErrSyntax) /\
  ParseFloat "1e" = (0%float, Some ErrSyntax) /\
  ParseFloat "" = (0%float, Some ErrSyntax) /\
  ParseFloat "1.7976931348623159e308" = (PrimFloat.infinity, Some ErrRange) /\
  ParseFloat "-1e999" = (PrimFloat.neg_infinity, Some ErrRange).
Proof. repeat split; reflexivity. Qed.

(** ** Floats *)

(** Two floats that differ on a test are different. *)
Lemma float_neq_by (p : float -> bool) (x y : float) : p x <> p y -> x <> y.
Proof. intros Hp Heq. apply Hp. now rewrite Heq. Qed.

(** ** The [Emit] monad *)

Lemma sent_bind {A B} (f : A -> Emit B) (c : Emit A) :
  sent (c ≫= f) =
  sent c ++ match snd c with inl _ => [] | inr x => sent (f x) end.
Proof.
  destruct c as [out [e | x]]; cbn.
  - now rewrite app_nil_r.
  - now destruct (f x).
Qed.

Lemma returned_bind {A B} (f : A -> Emit B) (c : Emit A) :
  returned (c ≫= f) =
  match snd c with inl e => Some e | inr x => returned (f x) end.
Proof.
  destruct c as [out [e | x]]; cbn; [reflexivity |].
  now destruct (f x).
Qed.

Lemma emit_ret_bind {A B} (x : A) (f : A -> Emit B) : (mret x ≫= f) = f x.
Proof.
  unfold mret, mbind, Emit_ret, Emit_bind, emit_ret, emit_bind.
  now destruct (f x).
Qed.

(** A loop whose body never fails runs over all rows and does not fail. *)
Lemma forRows_total (body : Row -> Emit unit) (rows : list Row) :
  (forall r, In r rows -> returned (body r) = None) ->
  sent (forRows body rows) = flat_map (fun r => sent (body r)) rows
  /\ returned (forRows body rows) = None.
Proof.
  induction rows as [| r rows IH]; intros Hok; [now split |].
  destruct IH as [IHs IHr]; [intros; apply Hok; now right |].
  assert (Hr : returned (body r) = None) by (apply Hok; now left).
  cbn [forRows flat_map]. rewrite sent_bind, returned_bind.
  unfold returned in Hr. destruct (body r) as [out [e | []]]; [discriminate |].
  cbn. now rewrite IHs.
Qed.

(** A loop stops at the first row on which its body fails. *)
Lemma forRows_fails (body : Row -> Emit unit) (pre post : list Row) (r : Row) :
  returned (body r) <> None ->
  returned (forRows body (pre ++ r :: post)) <> None.
Proof.
  intros Hr. induction pre as [| p pre IH]; cbn [app forRows]; rewrite returned_bind.
  - unfold returned in Hr. now destruct (body r) as [out [e | []]].
  - now destruct (body p) as [out [e | []]].
Qed.

(** ** The scrapers *)

(** The six samples of one [show spacedb] row, whatever the parser. *)
Lemma spaceDbRow_sent (parseFloat : Parser)
    (vol_no _type purpose count used_pages free_pages : string) :
  spaceDbRow parseFloat (RowCols [vol_no; _type; purpose; count; used_pages; free_pages]) =
  ([MustNewConstMetric VolNoInfo (fst (parseFloat _type)) [vol_no; "_type"];
    MustNewConstMetric VolNoInfo (fst (parseFloat _type)) [vol_no; "purpose"];
    MustNewConstMetric VolNoInfo (fst (parseFloat count)) [vol_no; "count"];
    MustNewConstMetric VolNoInfo (fst (parseFloat used_pages)) [vol_no; "used_pages"];
    MustNewConstMetric VolNoInfo (fst (parseFloat free_pages)) [vol_no; "free_pages"];
    MustNewConstMetric VolNoInfo
      (average (fst (parseFloat used_pages)) (fst (parseFloat free_pages)))
      [vol_no; "usedPercentage"]],
   inr tt).
Proof. reflexivity. Qed.

Lemma spaceDbRow_returned (parseFloat : Parser) t :
  returned (spaceDbRow parseFloat (spaceDbCols t)) = None.
Proof. now destruct t as [[[[[a b] c] d] e] f]. Qed.

(** The spacedb scrape of well-formed rows: every row is processed. *)
Lemma spaceDb_Scrape_rows (parseFloat : Parser) (ctx : Context) ts :
  let r := Scrape (ScrapeSpaceDBStatus parseFloat) ctx (answering (List.map spaceDbCols ts)) in
  sent r = flat_map (fun t => sent (spaceDbRow parseFloat (spaceDbCols t))) ts
  /\ returned r = None.
Proof.
  cbn [Scrape ScrapeSpaceDBStatus]. unfold QueryContext, answering.
  rewrite emit_ret_bind.
  destruct (forRows_total (spaceDbRow parseFloat) (List.map spaceDbCols ts)) as [Hs Hr].
  - intros r [t [<- _]]%in_map_iff. apply spaceDbRow_returned.
  - split; [| exact Hr]. rewrite Hs. now rewrite flat_map_concat_map, map_map, <- flat_map_concat_map.
Qed.

(** C5: the used-percentage sample of a spacedb row is
    [used / (used + free) * 100] of the parsed page counts, put to 0 when
    [used == 0]; it is 80 for 80 used and 20 free pages, and 0 (not NaN) for
    0 used and 0 free pages. *)
Theorem spacedb_usedPercentage :
  (forall (parseFloat : Parser) vol_no _type purpose count used_pages free_pages,
      sent (spaceDbRow parseFloat
              (RowCols [vol_no; _type; purpose; count; used_pages; free_pages])) !! 5%nat =
      Some (MustNewConstMetric VolNoInfo
              (average (fst (parseFloat used_pages)) (fst (parseFloat free_pages)))
              [vol_no; "usedPercentage"]))
  /\ (forall used free : float,
         average used free =
         if (used =? 0)%float then 0%float else (used / (used + free) * 100)%float)
  /\ average 80 20 = 80%float
  /\ average 0 0 = 0%float
  /\ PrimFloat.is_nan (average 0 0) = false
  /\ PrimFloat.is_nan (0 / (0 + 0) * 100)%float = true
  /\ (forall ctx,
         sent (Scrape (ScrapeSpaceDBStatus ParseFloat) ctx
                 (answering [RowCols ["0"; "1"; "2"; "3"; "80"; "20"];
                             RowCols ["1"; "1"; "2"; "3"; "0"; "0"]])) !! 5%nat =
         Some (MustNewConstMetric VolNoInfo 80 ["0"; "usedPercentage"])
         /\ sent (Scrape (ScrapeSpaceDBStatus ParseFloat) ctx
                    (answering [RowCols ["0"; "1"; "2"; "3"; "80"; "20"];
                                RowCols ["1"; "1"; "2"; "3"; "0"; "0"]])) !! 11%nat =
            Some (MustNewConstMetric VolNoInfo 0 ["1"; "usedPercentage"])).
Proof.
  repeat split; try reflexivity.
Qed.

(** C10: in every row the spacedb scraper processes, the sample with the
    key "purpose" carries the parsed type column, the value of the sample
    with the key "_type"; the purpose column is not parsed and has no
    influence on what is sent or returned. *)
Theorem spacedb_purpose_is_type (parseFloat : Parser) :
  (forall vol_no _type purpose count used_pages free_pages,
      let row := RowCols [vol_no; _type; purpose; count; used_pages; free_pages] in
      sent (spaceDbRow parseFloat row) !! 0%nat =
        Some (MustNewConstMetric VolNoInfo (fst (parseFloat _type)) [vol_no; "_type"])
      /\ sent (spaceDbRow parseFloat row) !! 1%nat =
        Some (MustNewConstMetric VolNoInfo (fst (parseFloat _type)) [vol_no; "purpose"])
      /\ (forall m, In m (sent (spaceDbRow parseFloat row)) ->
                    m_labels m = [vol_no; "purpose"] ->
                    m_value m = GaugeValue (fst (parseFloat _type)))
      /\ forall purpose',
          spaceDbRow parseFloat (RowCols [vol_no; _type; purpose'; count; used_pages; free_pages])
          = spaceDbRow parseFloat row)
  /\ (forall ctx ts,
         sent (Scrape (ScrapeSpaceDBStatus parseFloat) ctx (answering (List.map spaceDbCols ts)))
         = flat_map (fun t => sent (spaceDbRow parseFloat (spaceDbCols t))) ts).
Proof.
  split.
  - intros. subst row. rewrite spaceDbRow_sent. cbn [sent fst].
    repeat split; try reflexivity.
    intros m Hm Hl. cbn in Hm.
    repeat (destruct Hm as [<- | Hm]; [first [reflexivity | discriminate Hl] |]).
    destruct Hm.
  - intros. apply spaceDb_Scrape_rows.
Qed.

Lemma spacedb_purpose_is_type_witness :
  sent (Scrape (ScrapeSpaceDBStatus ParseFloat) RequestContext
          (answering [RowCols ["0"; "7"; "PERMANENT"; "3"; "80"; "20"]])) !! 1%nat
  = Some (MustNewConstMetric VolNoInfo 7 ["0"; "purpose"])
  /\ forall m, In m (sent (spaceDbRow ParseFloat
                            (RowCols ["0"; "7"; "PERMANENT"; "3"; "80"; "20"]))) ->
               m_labels m = ["0"; "purpose"] -> m_value m = GaugeValue 7.
Proof.
  destruct (spacedb_purpose_is_type ParseFloat) as [Hrow Hrows].
  split.
  - pose proof (Hrows RequestContext [("0", "7", "PERMANENT", "3", "80", "20")]) as H.
    cbn [List.map spaceDbCols] in H. rewrite H.
    exact (proj1 (proj2 (Hrow "0" "7" "PERMANENT" "3" "80" "20"))).
  - exact (proj1 (proj2 (proj2 (Hrow "0" "7" "PERMANENT" "3" "80" "20")))).
Defined.

(** The fourteen samples of one [show brokers] row carry what the parser
    returned for the fourteen numeric columns, in their order. *)
Lemma brokerStatusRow_sent (parseFloat : Parser)
    (broker_name num_as pid port qsize num_select num_insert num_update
       num_delete num_trans num_query num_conns num_long_query
       num_error_query num_uniq_error : string) :
  brokerStatusRow parseFloat
    (RowCols [broker_name; num_as; pid; port; qsize; num_select; num_insert;
              num_update; num_delete; num_trans; num_query; num_conns;
              num_long_query; num_error_query; num_uniq_error]) =
  (List.map (fun kv => MustNewConstMetric BrokerInfo (fst (parseFloat (snd kv)))
                         [broker_name; fst kv])
     [("num_as", num_as); ("pid", pid); ("port", port); ("qsize", qsize);
      ("num_select", num_select); ("num_insert", num_insert);
      ("num_update", num_update); ("num_delete", num_delete);
      ("num_trans", num_trans); ("num_query", num_query);
      ("num_conns", num_conns); ("num_long_query", num_long_query);
      ("num_error_query", num_error_query); ("num_uniq_error", num_uniq_error)],
   inr tt).
Proof. reflexivity. Qed.

Lemma brokerStatusRow_returned (parseFloat : Parser) (cols : list string) :
  length cols = 15%nat -> returned (brokerStatusRow parseFloat (RowCols cols)) = None.
Proof.
  intros Hlen.
  do 15 (destruct cols as [| ? cols]; [discriminate Hlen |]).
  destruct cols; [| discriminate Hlen].
  now rewrite brokerStatusRow_sent.
Qed.

(** The decimal parser follows the library on failures: 0 with a syntax
    error, an infinity with a range error. *)
Lemma roundRatio_error (neg : bool) (n d : Z) (e : NumError) :
  snd (roundRatio neg n d) = Some e ->
  e = ErrRange /\ PrimFloat.is_infinity (fst (roundRatio neg n d)) = true.
Proof.
  unfold roundRatio.
  repeat match goal with
         | |- context [if ?c then _ else _] => destruct c
         | |- context [match ?q with Z0 => _ | Zpos _ => _ | Zneg _ => _ end] => destruct q
         end; cbn [snd fst]; intros [= <-] || (intros [=]); split; reflexivity.
Qed.

Lemma decimalValue_error (neg : bool) (m nd ex : Z) (e : NumError) :
  snd (decimalValue neg m nd ex) = Some e ->
  e = ErrRange /\ PrimFloat.is_infinity (fst (decimalValue neg m nd ex)) = true.
Proof.
  unfold decimalValue.
  destruct (m =? 0)%Z; [discriminate |].
  destruct (310 <? ex)%Z; [intros [= <-]; now destruct neg |].
  destruct (ex + nd <? -330)%Z; [discriminate |].
  destruct (0 <=? ex)%Z; apply roundRatio_error.
Qed.

Lemma ParseFloat_error (s : string) (e : NumError) :
  snd (ParseFloat s) = Some e ->
  (e = ErrSyntax /\ fst (ParseFloat s) = 0%float)
  \/ (e = ErrRange /\ PrimFloat.is_infinity (fst (ParseFloat s)) = true).
Proof.
  unfold ParseFloat.
  destruct (special (list_ascii_of_string s)) as [f |]; [discriminate |].
  destruct (readSign (list_ascii_of_string s)) as [neg s0].
  destruct (readDigits 0 0 s0) as [[ip ni] s1].
  destruct (match s1 with
            | "."%char :: s1' => readDigits ip 0 s1'
            | _ => (ip, 0%Z, s1)
            end) as [[m nf] s2].
  destruct (ni + nf =? 0)%Z; [intros [= <-]; now left |].
  destruct (readExponent s2) as [ex |]; [| intros [= <-]; now left].
  intros H. right. now apply decimalValue_error.
Qed.

(** C9, as the code has it: a value that does not parse makes the statdump
    scrape return an error; the broker-status and spacedb scrapes drop the
    error of the parser, go on and return no error, and the sample carries
    the number the parser returned with its error, which is 0 for text that
    is not a number and an infinity for a number out of range. *)
Theorem parse_failure_policy (parseFloat : Parser) (ctx : Context) :
  (forall pre post key value e,
      snd (parseFloat value) = Some e ->
      returned (Scrape (ScrapeStatdump parseFloat) ctx
                  (answering (pre ++ RowCols [key; value] :: post))) <> None)
  /\ (forall rows,
         Forall (fun r => exists cols, r = RowCols cols /\ length cols = 15%nat) rows ->
         returned (Scrape (ScrapeBrokerStatus parseFloat) ctx (answering rows)) = None
         /\ sent (Scrape (ScrapeBrokerStatus parseFloat) ctx (answering rows))
            = flat_map (fun r => sent (brokerStatusRow parseFloat r)) rows)
  /\ (forall ts,
         returned (Scrape (ScrapeSpaceDBStatus parseFloat) ctx
                     (answering (List.map spaceDbCols ts))) = None
         /\ sent (Scrape (ScrapeSpaceDBStatus parseFloat) ctx
                    (answering (List.map spaceDbCols ts)))
            = flat_map (fun t => sent (spaceDbRow parseFloat (spaceDbCols t))) ts)
  /\ (forall broker_name c1 c2 c3 c4 c5 c6 c7 c8 c9 c10 c11 c12 c13 c14,
         List.map m_value
           (sent (brokerStatusRow parseFloat
                    (RowCols [broker_name; c1; c2; c3; c4; c5; c6; c7; c8; c9; c10;
                              c11; c12; c13; c14])))
         = List.map (fun c => GaugeValue (fst (parseFloat c)))
             [c1; c2; c3; c4; c5; c6; c7; c8; c9; c10; c11; c12; c13; c14])
  /\ (forall vol_no _type purpose count used_pages free_pages,
         firstn 5 (List.map m_value
           (sent (spaceDbRow parseFloat
                    (RowCols [vol_no; _type; purpose; count; used_pages; free_pages]))))
         = List.map (fun c => GaugeValue (fst (parseFloat c)))
             [_type; _type; count; used_pages; free_pages])
  /\ (forall s e,
         snd (ParseFloat s) = Some e ->
         (e = ErrSyntax /\ fst (ParseFloat s) = 0%float)
         \/ (e = ErrRange /\ PrimFloat.is_infinity (fst (ParseFloat s)) = true)).
Proof.
  split; [| split; [| split; [| split; [| split]]]].
  - intros pre post key value e He.
    cbn [Scrape ScrapeStatdump]. unfold QueryContext, answering.
    rewrite emit_ret_bind. apply forRows_fails.
    unfold statdumpRow, Scan2. rewrite emit_ret_bind.
    rewrite returned_bind. unfold parseOrFail.
    destruct (parseFloat value) as [f [e' |]]; [discriminate | discriminate He].
  - intros rows Hrows.
    cbn [Scrape ScrapeBrokerStatus]. unfold QueryContext, answering.
    rewrite emit_ret_bind.
    destruct (forRows_total (brokerStatusRow parseFloat) rows) as [Hs Hr]; [| now split].
    intros r Hin. rewrite List.Forall_forall in Hrows.
    destruct (Hrows r Hin) as (cols & -> & Hlen).
    now apply brokerStatusRow_returned.
  - intros ts. destruct (spaceDb_Scrape_rows parseFloat ctx ts) as [Hs Hr]. now split.
  - intros. now rewrite brokerStatusRow_sent.
  - intros. now rewrite spaceDbRow_sent.
  - apply ParseFloat_error.
Qed.

Lemma parse_failure_policy_witness :
  returned (Scrape (ScrapeStatdump ParseFloat) RequestContext
              (answering ([RowCols ["a"; "1.5"]] ++ RowCols ["b"; "x"] :: [RowCols ["c"; "2"]])))
  <> None
  /\ returned (Scrape (ScrapeBrokerStatus ParseFloat) RequestContext
                 (answering [RowCols ["b"; "x"; "2"; "3"; "4"; "5"; "6"; "7"; "8"; "9";
                                      "10"; "11"; "12"; "1e999"; "14"]])) = None.
Proof.
  destruct (parse_failure_policy ParseFloat RequestContext) as (Hstat & Hbroker & _).
  split.
  - apply (Hstat [RowCols ["a"; "1.5"]] [RowCols ["c"; "2"]] "b" "x" ErrSyntax).
    reflexivity.
  - apply Hbroker. repeat constructor. eexists. split; reflexivity.
Defined.

(** C9 as stated fails: the count column "1e999" of a spacedb row does not
    parse, and its sample is +Inf, not 0. *)
Lemma parse_failure_not_zero :
  ~ (forall vol_no _type purpose count used_pages free_pages,
        snd (ParseFloat count) <> None ->
        sent (spaceDbRow ParseFloat
                (RowCols [vol_no; _type; purpose; count; used_pages; free_pages])) !! 2%nat
        = Some (MustNewConstMetric VolNoInfo 0 [vol_no; "count"])).
Proof.
  intros H. specialize (H "0" "1" "2" "1e999" "80" "20").
  assert (Hfail : snd (ParseFloat "1e999") <> None) by (vm_compute; discriminate).
  specialize (H Hfail).
  apply (f_equal (fun o => match o with
                           | Some (MkMetric _ (GaugeValue v) _) => PrimFloat.is_infinity v
                           | _ => false
                           end)) in H.
  vm_compute in H. discriminate H.
Qed.

(** ** The request handler *)

Lemma makeFilters_spec (params : list string) (acc : gmap string bool) (name : string) :
  filtersAt (foldl (fun filters param => <[param := true]> filters) acc params) name = true
  <-> In name params \/ filtersAt acc name = true.
Proof.
  revert acc. induction params as [| p params IH]; intros acc; cbn [foldl In].
  - tauto.
  - rewrite IH. unfold filtersAt. rewrite lookup_insert.
    destruct (decide (p = name)) as [-> | Hne]; cbn; [tauto |].
    split; [intros [H | H]; [left; now right | now right] |].
    intros [[H | H] | H]; [congruence | now left | now right].
Qed.

Lemma filtersAt_makeFilters (params : list string) (name : string) :
  filtersAt (makeFilters params) name = true <-> In name params.
Proof.
  unfold makeFilters. rewrite makeFilters_spec. unfold filtersAt.
  rewrite lookup_empty. cbn. split; [intros [H | H]; [exact H | discriminate H] | now left].
Qed.

(** C2: with [collect[]] parameters, the scrapers of the cycle are the
    scrapers of the handler whose name is among the parameters, in the
    handler's order and once each; a parameter that names no scraper has no
    effect; without parameters they are all the scrapers of the handler,
    which are the scrapers enabled by default when the command line does not
    say otherwise. *)
Theorem collect_params_select_scrapers
    (parseFloat : Parser) (timeoutOffset : float) (dsn : string) (metrics : Metrics) :
  (forall (scrapers : list Scraper) (p : string) (params : list string) (v : string),
      let run := e_scrapers (snd (newHandler parseFloat timeoutOffset dsn metrics scrapers
                                    (MkRequest (p :: params) v))) in
      (forall s, In s run <-> In s scrapers /\ In (Name s) (p :: params))
      /\ run = List.filter (fun s => bool_decide (Name s ∈ p :: params)) scrapers
      /\ forall unknown,
          ~ In unknown (List.map Name scrapers) ->
          e_scrapers (snd (newHandler parseFloat timeoutOffset dsn metrics scrapers
                             (MkRequest (unknown :: p :: params) v))) = run)
  /\ (forall (scrapers : list Scraper) (v : string),
         e_scrapers (snd (newHandler parseFloat timeoutOffset dsn metrics scrapers
                            (MkRequest [] v))) = scrapers)
  /\ (forall v,
         e_scrapers (snd (newHandler parseFloat timeoutOffset dsn metrics
                            (enabledScrapers parseFloat ∅) (MkRequest [] v)))
         = List.map fst (List.filter snd (scrapers parseFloat))).
Proof.
  assert (Hrun : forall scrapers params v,
             e_scrapers (snd (newHandler parseFloat timeoutOffset dsn metrics scrapers
                                (MkRequest params v)))
             = filterScrapers scrapers params).
  { intros. unfold newHandler. cbn [collectParams timeoutHeader].
    now destruct (handlerContext parseFloat timeoutOffset v). }
  assert (Hfilter : forall scrapers p params,
             filterScrapers scrapers (p :: params)
             = List.filter (fun s => bool_decide (Name s ∈ p :: params)) scrapers).
  { intros. unfold filterScrapers. cbn [length Nat.ltb Nat.leb].
    apply filter_ext. intros s.
    destruct (filtersAt (makeFilters (p :: params)) (Name s)) eqn:E.
    - symmetry. apply bool_decide_eq_true, list_elem_of_In.
      now apply filtersAt_makeFilters.
    - symmetry. apply bool_decide_eq_false. intros Hin%list_elem_of_In.
      apply filtersAt_makeFilters in Hin. congruence. }
  split; [| split].
  - intros scrapers p params v run. subst run. rewrite !Hrun, !Hfilter.
    split; [| split].
    + intros s. rewrite filter_In, bool_decide_eq_true, list_elem_of_In. tauto.
    + reflexivity.
    + intros unknown Hunknown. rewrite Hrun, Hfilter.
      apply filter_ext_in. intros s Hs.
      apply bool_decide_ext. rewrite !list_elem_of_In. cbn [In]. split; [| tauto].
      intros [Heq | H]; [| exact H].
      exfalso. apply Hunknown. apply in_map_iff. now exists s.
  - intros. now rewrite Hrun.
  - intros. now rewrite Hrun.
Qed.

Lemma collect_params_select_scrapers_witness :
  List.map Name
    (e_scrapers (snd (newHandler ParseFloat 0.25 "dsn" NewMetrics
                        (enabledScrapers ParseFloat ∅)
                        (MkRequest ["nosuch"; "statdump"; "spacedb"; "statdump"] ""))))
  = ["statdump"; "spacedb"].
Proof.
  destruct (collect_params_select_scrapers ParseFloat 0.25 "dsn" NewMetrics) as (H & _).
  destruct (H (enabledScrapers ParseFloat ∅) "statdump" ["spacedb"; "statdump"] "")
    as (_ & _ & Hunknown).
  rewrite (Hunknown "nosuch").
  - reflexivity.
  - cbn. intros [H1 | [H1 | [H1 | []]]]; discriminate H1.
Defined.

Lemma eqb_nonempty (v : string) : v <> "" -> String.eqb v "" = false.
Proof. intros Hv. now apply String.eqb_neq. Qed.

(** C4, as the code has it: the header 1.0 with the offset 0.25 gives a
    timeout of 0.75 s; when the offset is not below the header value, a line
    is logged, the subtraction is skipped and the timeout is the header value
    itself (1 s for the header 1.0 and the offset 2.0); otherwise the
    timeout is the header value minus the offset. *)
Theorem timeout_offset_policy :
  handlerContext ParseFloat 0.25 "1.0" = ([], WithTimeout (Some 750000000%Z))
  /\ handlerContext ParseFloat 2 "1.0" = ([LogTimeoutOffset 2 1], WithTimeout (Some 1000000000%Z))
  /\ (forall (parseFloat : Parser) (timeoutOffset timeoutSeconds : float) (v : string),
         v <> "" ->
         parseFloat v = (timeoutSeconds, None) ->
         (timeoutSeconds <=? timeoutOffset)%float = true ->
         handlerContext parseFloat timeoutOffset v
         = ([LogTimeoutOffset timeoutOffset timeoutSeconds],
            WithTimeout (toDuration (timeoutSeconds * float64_Second)%float)))
  /\ (forall (parseFloat : Parser) (timeoutOffset timeoutSeconds : float) (v : string),
         v <> "" ->
         parseFloat v = (timeoutSeconds, None) ->
         (timeoutSeconds <=? timeoutOffset)%float = false ->
         handlerContext parseFloat timeoutOffset v
         = ([], WithTimeout (toDuration ((timeoutSeconds - timeoutOffset) * float64_Second)%float))).
Proof.
  split; [reflexivity | split; [reflexivity | split]].
  - intros parseFloat timeoutOffset timeoutSeconds v Hv Hparse Hle.
    unfold handlerContext, adjustTimeout. now rewrite (eqb_nonempty v Hv), Hparse, Hle.
  - intros parseFloat timeoutOffset timeoutSeconds v Hv Hparse Hle.
    unfold handlerContext, adjustTimeout. now rewrite (eqb_nonempty v Hv), Hparse, Hle.
Qed.

Lemma timeout_offset_policy_witness :
  handlerContext ParseFloat 2 "1.0" = ([LogTimeoutOffset 2 1], WithTimeout (Some 1000000000%Z))
  /\ handlerContext ParseFloat 0.5 "2.5" = ([], WithTimeout (Some 2000000000%Z)).
Proof.
  destruct timeout_offset_policy as (_ & _ & Hge & Hlt).
  split.
  - rewrite (Hge ParseFloat 2%float 1%float "1.0"); [reflexivity | discriminate | reflexivity | reflexivity].
  - rewrite (Hlt ParseFloat 0.5%float 2.5%float "2.5"); [reflexivity | discriminate | reflexivity | reflexivity].
Defined.

(** C4 as stated fails: a timeout that is not positive, the header 0 with
    the offset 0.25 being used as it is. *)
Lemma timeout_not_always_positive :
  ~ (forall (v : string) (d : Z),
        snd (handlerContext ParseFloat 0.25 v) = WithTimeout (Some d) -> (0 < d)%Z).
Proof.
  intros H. specialize (H "0" 0%Z eq_refl). lia.
Qed.

(** C8: a timeout header that does not parse is logged and has no other
    effect: the exporter of the cycle keeps the request's context and is the
    one a request without the header gets. *)
Theorem malformed_timeout_header_ignored
    (parseFloat : Parser) (timeoutOffset : float) (dsn : string) (metrics : Metrics)
    (scrapers : list Scraper) (params : list string) (v : string) (e : NumError) :
  v <> "" ->
  snd (parseFloat v) = Some e ->
  newHandler parseFloat timeoutOffset dsn metrics scrapers (MkRequest params v)
  = ([LogParseTimeout e; LogCollectQuery params],
     New RequestContext dsn metrics (filterScrapers scrapers params))
  /\ snd (newHandler parseFloat timeoutOffset dsn metrics scrapers (MkRequest params v))
     = snd (newHandler parseFloat timeoutOffset dsn metrics scrapers (MkRequest params "")).
Proof.
  intros Hv He. unfold newHandler, handlerContext. cbn [collectParams timeoutHeader].
  rewrite (eqb_nonempty v Hv). destruct (parseFloat v) as [f [e' |]]; [| discriminate He].
  cbn in He. injection He as ->. now split.
Qed.

Lemma malformed_timeout_header_ignored_witness :
  newHandler ParseFloat 0.25 "dsn" NewMetrics (enabledScrapers ParseFloat ∅)
    (MkRequest ["statdump"] "1,5")
  = ([LogParseTimeout ErrSyntax; LogCollectQuery ["statdump"]],
     New RequestContext "dsn" NewMetrics
       (filterScrapers (enabledScrapers ParseFloat ∅) ["statdump"]))
  /\ newHandler ParseFloat 0.25 "dsn" NewMetrics (enabledScrapers ParseFloat ∅)
       (MkRequest [] "1e999")
     = ([LogParseTimeout ErrRange; LogCollectQuery []],
        New RequestContext "dsn" NewMetrics (filterScrapers (enabledScrapers ParseFloat ∅) [])).
Proof.
  split.
  - apply (malformed_timeout_header_ignored ParseFloat 0.25 "dsn" NewMetrics
             (enabledScrapers ParseFloat ∅) ["statdump"] "1,5" ErrSyntax);
      [discriminate | reflexivity].
  - apply (malformed_timeout_header_ignored ParseFloat 0.25 "dsn" NewMetrics
             (enabledScrapers ParseFloat ∅) [] "1e999" ErrRange);
      [discriminate | reflexivity].
Defined.

(** ** The code of a goroutine *)

Lemma unitCode_shape since ctx db (s : Scraper) :
  exists body, unitCode since ctx db s = body ++ [wg_Done] /\ Forall unitInstr body.
Proof.
  unfold unitCode.
  set (label := "collect." +:+ Name s). set (r := Scrape s ctx db).
  exists (List.map Send (sent r)
          ++ match returned r with
             | Some err => [Log (LogScrape label err); ScrapeErrors_Inc label; Error_Set 1]
             | None => []
             end
          ++ [Send (durationSample since label)]).
  split.
  - now rewrite <- !app_assoc.
  - rewrite !Forall_app. repeat split.
    + apply Forall_forall. intros i Hi. apply list_elem_of_In, in_map_iff in Hi.
      now destruct Hi as (m & <- & _).
    + destruct (returned r); repeat constructor.
    + repeat constructor.
Qed.

(** The next instruction of a goroutine is [wg.Done()] exactly when it is
    its last one. *)
Lemma next_unit_instr (body done gc : list Instr) (i : Instr) :
  Forall unitInstr body ->
  done ++ i :: gc = body ++ [wg_Done] ->
  (i = wg_Done /\ gc = []) \/ (unitInstr i /\ gc <> []).
Proof.
  revert body. induction done as [| d done IH]; intros body Hbody Heq.
  - destruct body as [| b body]; cbn in Heq.
    + injection Heq as -> <-. now left.
    + injection Heq as -> ->. right. split; [now inversion Hbody |].
      now destruct body.
  - destruct body as [| b body]; cbn in Heq.
    + injection Heq as _ Heq. now destruct done.
    + injection Heq as _ Heq. apply (IH body); [now inversion Hbody | exact Heq].
Qed.

(** ** Updating one goroutine in the list *)

Lemma units_split (us : list Goroutine) (k : nat) (g : Goroutine) :
  us !! k = Some g ->
  exists us1 us2,
    us = us1 ++ g :: us2 /\ length us1 = k
    /\ forall g', <[k := g']> us = us1 ++ g' :: us2.
Proof.
  intros Hk. exists (take k us), (drop (S k) us).
  assert (Hlt : (k < length us)%nat) by (eapply lookup_lt_Some; eauto).
  repeat split.
  - now rewrite take_drop_middle.
  - rewrite length_take. lia.
  - intros g'. now apply insert_take_drop.
Qed.

Lemma active_app (us1 us2 : list Goroutine) :
  active (us1 ++ us2) = (active us1 + active us2)%Z.
Proof. unfold active. rewrite List.filter_app, length_app. lia. Qed.

Lemma active_cons (g : Goroutine) (us : list Goroutine) :
  active (g :: us) = ((if finished g then 0 else 1) + active us)%Z.
Proof. unfold active. cbn [List.filter]. destruct (finished g); cbn [negb length]; lia. Qed.

Lemma sumIncs_app (label : string) (us1 us2 : list Goroutine) :
  sumIncs label (us1 ++ us2) = (sumIncs label us1 + sumIncs label us2)%N.
Proof.
  unfold sumIncs. induction us1 as [| g us1 IH]; cbn; [reflexivity |].
  rewrite IH. lia.
Qed.

Lemma sends_app (c1 c2 : list Instr) : sends (c1 ++ c2) = sends c1 ++ sends c2.
Proof.
  induction c1 as [| i c1 IH]; [reflexivity |].
  destruct i; cbn; now rewrite ?IH.
Qed.

Lemma incs_app (label : string) (c1 c2 : list Instr) :
  incs label (c1 ++ c2) = (incs label c1 + incs label c2)%N.
Proof.
  induction c1 as [| i c1 IH]; [reflexivity |].
  destruct i; cbn; rewrite ?IH; lia.
Qed.

Lemma started_app (c1 c2 : list Instr) : started (c1 ++ c2) = started c1 ++ started c2.
Proof.
  induction c1 as [| i c1 IH]; [reflexivity |].
  destruct i; cbn; now rewrite ?IH.
Qed.

Lemma sentBy_app (t : Tid) (o1 o2 : list (Tid * Metric)) :
  sentBy t (o1 ++ o2) = sentBy t o1 ++ sentBy t o2.
Proof. unfold sentBy. now rewrite List.filter_app, List.map_app. Qed.

Lemma sentBy_other (t t' : Tid) (ms : list Metric) :
  t <> t' -> sentBy t (List.map (pair t') ms) = [].
Proof.
  intros Hne. unfold sentBy. induction ms as [| m ms IH]; [reflexivity |].
  cbn. destruct t' as [| a], t as [| b]; try exact IH; [congruence |].
  destruct (Nat.eqb_spec a b) as [-> | _]; [congruence | exact IH].
Qed.

Lemma sentBy_same (t : Tid) (ms : list Metric) : sentBy t (List.map (pair t) ms) = ms.
Proof.
  unfold sentBy. induction ms as [| m ms IH]; [reflexivity |].
  cbn. destruct t as [| a]; cbn; [now rewrite IH |].
  rewrite Nat.eqb_refl. cbn. now rewrite IH.
Qed.

(** ** Counters *)

Lemma scrapeErrors_inc (l label : string) (m : Metrics) :
  scrapeErrors (incScrapeErrors l m) label
  = (scrapeErrors m label + incs label [ScrapeErrors_Inc l])%N.
Proof.
  unfold scrapeErrors at 1. unfold incScrapeErrors. cbn [ScrapeErrors incs].
  rewrite lookup_insert.
  destruct (String.eqb_spec l label) as [-> | Hne].
  - rewrite decide_True by reflexivity. cbn. lia.
  - rewrite decide_False by exact Hne. unfold scrapeErrors. lia.
Qed.

(** ** One step *)

Lemma exec_spec since (t : Tid) (i : Instr) (st st' : State) :
  exec since t i st = Some st' ->
  st_done st' = st_done st
  /\ st_main st' = st_main st
  /\ st_units st' = st_units st ++ spawns since i
  /\ st_wg st' = (st_wg st + wgStep i)%Z
  /\ (i = wg_Wait -> st_wg st = 0%Z)
  /\ (i = wg_Done -> (0 < st_wg st)%Z)
  /\ st_conn st' = connStep (st_conn st) i
  /\ TotalScrapes (st_metrics st') = totalStep (TotalScrapes (st_metrics st)) i
  /\ CubridUp (st_metrics st') = upStep (CubridUp (st_metrics st)) i
  /\ Error (st_metrics st') = errorStep (Error (st_metrics st)) i
  /\ (forall label,
         scrapeErrors (st_metrics st') label
         = (scrapeErrors (st_metrics st) label + incs label [i])%N)
  /\ st_out st' = st_out st ++ List.map (pair t) (emits (st_metrics st) i).
Proof.
  destruct st as [dn mn us wg m c out lg].
  destruct i; cbn [exec];
    try (destruct (0 <? wg)%Z eqn:Hwg; [| discriminate]);
    try (destruct (wg =? 0)%Z eqn:Hwg; [| discriminate]);
    intros [= <-]; cbn;
    rewrite ?app_nil_r, ?N.add_0_r, ?Z.add_0_r; repeat split; try (intros; discriminate);
    try lia; try (intros; apply scrapeErrors_inc);
    intros label; unfold scrapeErrors; cbn; lia.
Qed.

Lemma step_Main_inv since (st st' : State) :
  step since Main st = Some st' ->
  exists i mn,
    st_main st = i :: mn
    /\ exec since Main i
         (MkState (st_done st ++ [i]) mn (st_units st) (st_wg st) (st_metrics st)
                  (st_conn st) (st_out st) (st_log st)) = Some st'.
Proof.
  destruct st as [dn mn us wg m c out lg]. cbn [step].
  destruct mn as [| i mn]; [discriminate |]. intros H. now exists i, mn.
Qed.

Lemma step_Unit_inv since (k : nat) (st st' : State) :
  step since (Unit k) st = Some st' ->
  exists g i gc,
    st_units st !! k = Some g
    /\ g_code g = i :: gc
    /\ exec since (Unit k) i
         (MkState (st_done st) (st_main st)
                  (<[k := MkGoroutine (g_scraper g) (g_done g ++ [i]) gc]> (st_units st))
                  (st_wg st) (st_metrics st) (st_conn st) (st_out st) (st_log st)) = Some st'.
Proof.
  destruct st as [dn mn us wg m c out lg]. cbn [step].
  destruct (us !! k) as [[s gd [| i gc]] |] eqn:Hk; try discriminate.
  intros H. now exists (MkGoroutine s gd (i :: gc)), i, gc.
Qed.

Lemma active_nonneg (us : list Goroutine) : (0 <= active us)%Z.
Proof. unfold active. lia. Qed.

Lemma active_zero (us : list Goroutine) :
  active us = 0%Z -> forallb finished us = true.
Proof.
  induction us as [| g us IH]; [reflexivity |].
  rewrite active_cons. pose proof (active_nonneg us).
  cbn [forallb]. destruct (finished g); [| lia].
  intros H0. apply IH. lia.
Qed.

Lemma active_pos (us : list Goroutine) :
  (0 < active us)%Z -> exists k g, us !! k = Some g /\ finished g = false.
Proof.
  induction us as [| g us IH]; [unfold active; cbn; lia |].
  rewrite active_cons. destruct (finished g) eqn:Hg.
  - intros H. destruct IH as (k & g' & Hk & Hg'); [lia |]. now exists (S k), g'.
  - intros _. now exists 0%nat, g.
Qed.

Lemma unitCode_not_finished since ctx db (s : Scraper) :
  finished (MkGoroutine s [] (unitCode since ctx db s)) = false.
Proof.
  destruct (unitCode_shape since ctx db s) as (body & Heq & _).
  unfold finished. cbn [g_code]. rewrite Heq. now destruct body.
Qed.

(** ** The invariant *)

Section Preservation.

Variable since : string -> float.
Variable ctx : Context.
Variable db : DB.
Variable code : list Instr.
Variable m0 : Metrics.

Let I := Inv since ctx db code m0.

Lemma Inv_Main (st st' : State) : I st -> step since Main st = Some st' -> I st'.
Proof.
  intros HI Hstep.
  destruct (step_Main_inv since st st' Hstep) as (i & mn & Hmn & Hexec).
  apply exec_spec in Hexec. cbn [st_done st_main st_units st_wg st_metrics st_conn st_out] in Hexec.
  destruct Hexec as (Hd & Hm & Hu & Hw & Hwait & _ & Hc & Ht & Hup & He & Hse & Ho).
  destruct HI as [Icode Imain Iunits Istarted Iwg Iwait Iquiet Iout Ierrors Ierror Iconn Itotal Iup Iclose].
  rewrite Hmn in *. cbn [mainOk] in Imain. destruct Imain as [Hi Imain].
  constructor.
  - rewrite Hd, Hm, <- app_assoc. exact Icode.
  - now rewrite Hm.
  - rewrite Hu. apply Forall_app. split; [exact Iunits |].
    destruct i; cbn [spawns]; try constructor; [| constructor].
    destruct Hi as (-> & -> & _). reflexivity.
  - rewrite Hu, Hd, List.map_app, started_app, Istarted.
    destruct i; cbn; reflexivity.
  - rewrite Hw, Hu, Hm, active_app, Iwg.
    destruct i; cbn [owed wgStep spawns]; try (unfold active; cbn; lia); try contradiction.
    rewrite active_cons, unitCode_not_finished. unfold active. cbn. lia.
  - rewrite Hm, Hu. intros Hnw.
    rewrite forallb_app.
    destruct i; cbn [spawns forallb]; rewrite ?andb_true_r;
      try (apply Iwait; cbn [existsb isWait orb]; exact Hnw).
    + destruct Hi as (_ & _ & Hw' & _). congruence.
    + apply active_zero. specialize (Hwait eq_refl). cbn [owed] in Iwg. lia.
  - rewrite Hm, Hu. intros Hes.
    destruct i; cbn [spawns]; rewrite ?app_nil_r;
      try (apply Iquiet; cbn [existsb isErrorSet orb]; rewrite ?Hes; reflexivity).
    destruct Hi as (_ & _ & _ & Hes'). congruence.
  - intros k. rewrite Ho, Hu, sentBy_app, sentBy_other by discriminate.
    rewrite app_nil_r, Iout.
    destruct i; cbn [spawns]; rewrite ?app_nil_r; try reflexivity.
    destruct (st_units st !! k) as [g |] eqn:Hk.
    + now rewrite (lookup_app_l_Some _ _ _ _ Hk).
    + apply lookup_ge_None in Hk. rewrite lookup_app_r by exact Hk.
      now destruct (k - length (st_units st))%nat as [| [| n]].
  - intros label. rewrite Hse, Hu, sumIncs_app, Ierrors.
    destruct i; cbn [incs spawns sumIncs fold_right g_done]; try lia; contradiction.
  - rewrite He, Hu, Hd, existsb_app, fold_left_app. cbn [fold_left].
    replace (existsb (fun g => existsb isErrorSet (g_done g)) (spawns since i)) with false
      by (destruct i; reflexivity).
    rewrite orb_false_r, Ierror.
    destruct (existsb (fun g => existsb isErrorSet (g_done g)) (st_units st)) eqn:Hex;
      [| reflexivity].
    destruct i; cbn [errorStep]; try reflexivity.
    rewrite Iquiet in Hex by reflexivity. discriminate Hex.
  - now rewrite Hc, Hd, fold_left_app, Iconn.
  - now rewrite Ht, Hd, fold_left_app, Itotal.
  - now rewrite Hup, Hd, fold_left_app, Iup.
  - rewrite Hm, Hc. intros Hnw.
    destruct i; cbn [connStep closes];
      try (apply Iclose; cbn [existsb isWait orb]; first [exact Hnw | reflexivity]).
    congruence.
Qed.

Lemma Inv_Unit (k : nat) (st st' : State) :
  I st -> step since (Unit k) st = Some st' -> I st'.
Proof.
  intros HI Hstep.
  destruct (step_Unit_inv since k st st' Hstep) as (g & i & gc & Hk & Hg & Hexec).
  apply exec_spec in Hexec. cbn [st_done st_main st_units st_wg st_metrics st_conn st_out] in Hexec.
  destruct Hexec as (Hd & Hm & Hu & Hw & _ & _ & Hc & Ht & Hup & He & Hse & Ho).
  destruct HI as [Icode Imain Iunits Istarted Iwg Iwait Iquiet Iout Ierrors Ierror Iconn Itotal Iup Iclose].
  destruct (units_split _ _ _ Hk) as (us1 & us2 & Hus & Hlen & Hins).
  rewrite Hins in Hu. clear Hins.
  assert (Hgcode : g_done g ++ i :: gc = unitCode since ctx db (g_scraper g)).
  { rewrite Forall_forall in Iunits. rewrite <- Hg. apply Iunits.
    apply list_elem_of_lookup. now exists k. }
  destruct (unitCode_shape since ctx db (g_scraper g)) as (body & Hbody & Hinstr).
  rewrite Hbody in Hgcode.
  assert (Hg_unf : finished g = false) by (unfold finished; now rewrite Hg).
  assert (Hnext : (i = wg_Done /\ gc = []) \/ (unitInstr i /\ gc <> []))
    by (eapply next_unit_instr; eauto).
  assert (Hspawn : spawns since i = [])
    by (destruct Hnext as [[-> _] | [Hi _]]; [reflexivity | now destruct i]).
  rewrite Hspawn, app_nil_r in Hu.
  set (g' := MkGoroutine (g_scraper g) (g_done g ++ [i]) gc) in *.
  constructor.
  - now rewrite Hd, Hm.
  - now rewrite Hm.
  - rewrite Hu. rewrite Hus in Iunits.
    apply Forall_app in Iunits as [I1 I2]. apply Forall_cons in I2 as [_ I2].
    apply Forall_app. split; [exact I1 |]. apply Forall_cons. split; [| exact I2].
    cbn [g_done g_code g_scraper g']. now rewrite <- app_assoc, Hbody.
  - rewrite Hu, Hd, <- Istarted, Hus, !List.map_app. reflexivity.
  - rewrite Hw, Hu, Hm, Iwg, Hus, !active_app, !active_cons, Hg_unf.
    unfold finished at 1. cbn [g_code g'].
    destruct Hnext as [[-> ->] | [Hi Hgc]]; [cbn; lia |].
    destruct gc; [contradiction |]. destruct i; cbn in Hi; try contradiction; cbn; lia.
  - rewrite Hm. intros Hnw. specialize (Iwait Hnw).
    rewrite Hus, forallb_app in Iwait. cbn [forallb] in Iwait. rewrite Hg_unf in Iwait.
    rewrite andb_false_r in Iwait. discriminate Iwait.
  - rewrite Hm. intros Hes. rewrite (Iquiet Hes) in Hk. discriminate Hk.
  - intros k'. rewrite Ho, sentBy_app, Iout, Hu.
    destruct (decide (k' = k)) as [-> | Hne].
    + rewrite sentBy_same, Hk, <- Hlen.
      rewrite list_lookup_middle by reflexivity. cbn [g_done g']. rewrite sends_app.
      f_equal. destruct Hnext as [[-> _] | [Hi _]]; [reflexivity |].
      destruct i; cbn in Hi; try contradiction; reflexivity.
    + rewrite sentBy_other by congruence. rewrite app_nil_r, Hus.
      destruct (decide (k' < length us1)%nat) as [Hlt | Hge].
      * now rewrite !lookup_app_l by exact Hlt.
      * rewrite !lookup_app_r by lia.
        destruct (k' - length us1)%nat as [| n] eqn:Hn; [lia | reflexivity].
  - intros label. rewrite Hse, Ierrors, Hu, Hus, !sumIncs_app.
    cbn [sumIncs fold_right g_done g']. rewrite incs_app. fold (sumIncs label us2). lia.
  - rewrite He, Hd, Hu, Ierror, Hus, !existsb_app. cbn [existsb g_done g'].
    rewrite existsb_app. cbn [existsb]. rewrite orb_false_r.
    destruct Hnext as [[-> _] | [Hi _]].
    + cbn [errorStep isErrorSet]. now rewrite orb_false_r.
    + destruct i; cbn in Hi; try contradiction; cbn [errorStep isErrorSet];
        rewrite ?orb_false_r; try reflexivity.
      subst v. rewrite orb_true_r. cbn [orb]. now rewrite orb_true_r.
  - rewrite Hc, Hd, Iconn.
    destruct Hnext as [[-> _] | [Hi _]]; [reflexivity |].
    destruct i; cbn in Hi; try contradiction; reflexivity.
  - rewrite Ht, Hd, Itotal.
    destruct Hnext as [[-> _] | [Hi _]]; [reflexivity |].
    destruct i; cbn in Hi; try contradiction; reflexivity.
  - rewrite Hup, Hd, Iup.
    destruct Hnext as [[-> _] | [Hi _]]; [reflexivity |].
    destruct i; cbn in Hi; try contradiction; reflexivity.
  - rewrite Hm, Hc. intros Hnw. rewrite <- (Iclose Hnw).
    destruct Hnext as [[-> _] | [Hi _]]; [reflexivity |].
    destruct i; cbn in Hi; try contradiction; reflexivity.
Qed.

(** Every step keeps the invariant. *)
Lemma Inv_step (t : Tid) (st st' : State) : I st -> step since t st = Some st' -> I st'.
Proof. destruct t as [| k]; [apply Inv_Main | apply Inv_Unit]. Qed.

Lemma Inv_run (sched : list Tid) (st st' : State) :
  I st -> run since sched st = Some st' -> I st'.
Proof.
  revert st. induction sched as [| t sched IH]; intros st HI; cbn [run].
  - now intros [= <-].
  - destruct (step since t st) as [st1 |] eqn:Hstep; [| discriminate].
    apply IH. eapply Inv_step; eauto.
Qed.

End Preservation.

(** ** The code of [Collect] *)

Section CollectCode.

Variable since : string -> float.
Variable ctx : Context.
Variable db : DB.

Lemma loopCode_cons (s : Scraper) (ss : list Scraper) :
  loopCode ctx db (s :: ss) = wg_Add 1 :: Go ctx db s :: loopCode ctx db ss.
Proof. reflexivity. Qed.

Lemma loopCode_isWait (ss : list Scraper) (rest : list Instr) :
  existsb isWait (loopCode ctx db ss ++ rest) = existsb isWait rest.
Proof. induction ss as [| s ss IH]; [reflexivity | now rewrite loopCode_cons]. Qed.

Lemma loopCode_isErrorSet (ss : list Scraper) (rest : list Instr) :
  existsb isErrorSet (loopCode ctx db ss ++ rest) = existsb isErrorSet rest.
Proof. induction ss as [| s ss IH]; [reflexivity | now rewrite loopCode_cons]. Qed.

Lemma loopCode_owed (ss : list Scraper) (rest : list Instr) :
  owed (loopCode ctx db ss ++ rest) = owed rest.
Proof.
  induction ss as [| s ss IH]; [reflexivity |].
  rewrite loopCode_cons. cbn [app owed]. rewrite IH. lia.
Qed.

Lemma loopCode_started (ss : list Scraper) : started (loopCode ctx db ss) = ss.
Proof. induction ss as [| s ss IH]; [reflexivity |]. rewrite loopCode_cons. cbn. now rewrite IH. Qed.

Lemma loopCode_fold {A} (f : A -> Instr -> A) (ss : list Scraper) (a : A) :
  (forall a n, f a (wg_Add n) = a) ->
  (forall a c d s, f a (Go c d s) = a) ->
  fold_left f (loopCode ctx db ss) a = a.
Proof.
  intros Hadd Hgo. induction ss as [| s ss IH]; [reflexivity |].
  rewrite loopCode_cons. cbn [fold_left]. now rewrite Hadd, Hgo.
Qed.

Lemma loopCode_mainOk (ss : list Scraper) (rest : list Instr) :
  existsb isWait rest = true ->
  existsb isErrorSet rest = false ->
  (0 <= owed rest)%Z ->
  mainOk ctx db rest ->
  mainOk ctx db (loopCode ctx db ss ++ rest).
Proof.
  intros Hw He Ho Hrest. induction ss as [| s ss IH]; [exact Hrest |].
  rewrite loopCode_cons. cbn [app mainOk owed].
  rewrite loopCode_isWait, loopCode_isErrorSet, loopCode_owed.
  repeat split; try assumption; try reflexivity. lia.
Qed.

Lemma mainOk_owed (code : list Instr) : mainOk ctx db code -> (0 <= owed code)%Z.
Proof.
  induction code as [| i code IH]; [cbn; lia |].
  cbn [mainOk]. intros [Hi Hcode]. specialize (IH Hcode).
  destruct i; cbn [owed]; try assumption; try contradiction; lia.
Qed.

End CollectCode.

(** The state in which [Collect] is called satisfies the invariant, with
    the handle that [sql.Open] returns (with any, when it fails). *)
Lemma Inv_start since sqlOpen (ctx : Context) (dsn : string) (ss : list Scraper)
    (m0 : Metrics) (db : DB) :
  (forall db', sqlOpen "cubrid" dsn = inr db' -> db' = db) ->
  Inv since ctx db (collectCode since sqlOpen ctx dsn ss) m0
      (start since sqlOpen ctx dsn ss m0).
Proof.
  intros Hdb.
  assert (Hok : mainOk ctx db (collectCode since sqlOpen ctx dsn ss)
                /\ owed (collectCode since sqlOpen ctx dsn ss) = 0%Z).
  { unfold collectCode, scrapeCode.
    destruct (sqlOpen "cubrid" dsn) as [err | db'] eqn:Hopen.
    - cbn. tauto.
    - rewrite (Hdb db' eq_refl). cbn [app mainOk owed]. rewrite <- !app_assoc.
      rewrite loopCode_owed. cbn [app owed]. split; [| reflexivity].
      repeat (split; [exact Logic.I |]).
      apply loopCode_mainOk; [reflexivity | reflexivity | cbn; lia |].
      cbn. tauto. }
  destruct Hok as [Hok Howed].
  constructor; cbn [start st_done st_main st_units st_wg st_metrics st_conn st_out fold_left];
    try reflexivity; try assumption.
  - constructor.
  - now rewrite Howed.
  - intros label. cbn. lia.
Qed.

(** ** Progress and termination *)

Lemma unitsWork_app (us1 us2 : list Goroutine) :
  unitsWork (us1 ++ us2) = (unitsWork us1 + unitsWork us2)%nat.
Proof.
  unfold unitsWork. induction us1 as [| g us1 IH]; cbn; [reflexivity |].
  rewrite IH. lia.
Qed.

Lemma exec_enabled since (t : Tid) (i : Instr) (st : State) :
  (i = wg_Wait -> st_wg st = 0%Z) ->
  (i = wg_Done -> (0 < st_wg st)%Z) ->
  exists st', exec since t i st = Some st'.
Proof.
  intros Hwait Hdone. destruct st as [dn mn us wg m c out lg].
  destruct i; cbn [exec]; try (eexists; reflexivity).
  - cbn in Hdone. specialize (Hdone eq_refl).
    apply Z.ltb_lt in Hdone. rewrite Hdone. eexists; reflexivity.
  - cbn in Hwait. rewrite (Hwait eq_refl). eexists; reflexivity.
Qed.

Section Progress.

Variable since : string -> float.
Variable ctx : Context.
Variable db : DB.
Variable code : list Instr.
Variable m0 : Metrics.

Let I := Inv since ctx db code m0.

(** The next instruction of a goroutine that has not finished. *)
Lemma unit_next (st : State) (k : nat) (g : Goroutine) :
  I st -> st_units st !! k = Some g -> finished g = false ->
  exists i gc,
    g_code g = i :: gc
    /\ ((i = wg_Done /\ gc = []) \/ (unitInstr i /\ gc <> [])).
Proof.
  intros HI Hk Hg. unfold finished in Hg.
  destruct (g_code g) as [| i gc] eqn:Hcode; [discriminate |].
  exists i, gc. split; [reflexivity |].
  destruct (unitCode_shape since ctx db (g_scraper g)) as (body & Hbody & Hinstr).
  apply (next_unit_instr body (g_done g)); [exact Hinstr |].
  rewrite <- Hbody, <- Hcode.
  pose proof (inv_units _ _ _ _ _ _ HI) as Hunits.
  rewrite Forall_forall in Hunits. apply Hunits.
  apply list_elem_of_lookup. now exists k.
Qed.

(** Every step executes one of the instructions that are left. *)
Lemma step_weight (t : Tid) (st st' : State) :
  I st -> step since t st = Some st' -> S (weight since st') = weight since st.
Proof.
  intros HI Hstep. destruct t as [| k].
  - destruct (step_Main_inv since st st' Hstep) as (i & mn & Hmn & Hexec).
    apply exec_spec in Hexec. cbn [st_done st_main st_units] in Hexec.
    destruct Hexec as (_ & Hm & Hu & _).
    unfold weight. rewrite Hm, Hu, Hmn, unitsWork_app.
    destruct i; cbn [spawns pendingWork unitsWork fold_right length g_code]; lia.
  - destruct (step_Unit_inv since k st st' Hstep) as (g & i & gc & Hk & Hg & Hexec).
    apply exec_spec in Hexec. cbn [st_done st_main st_units] in Hexec.
    destruct Hexec as (_ & Hm & Hu & _).
    destruct (unit_next st k g HI Hk) as (i' & gc' & Hg' & Hnext);
      [unfold finished; now rewrite Hg |].
    rewrite Hg in Hg'. injection Hg' as <- <-.
    assert (Hspawn : spawns since i = [])
      by (destruct Hnext as [[-> _] | [Hi _]]; [reflexivity | now destruct i]).
    destruct (units_split _ _ _ Hk) as (us1 & us2 & Hus & _ & Hins).
    rewrite Hins, Hspawn, app_nil_r in Hu.
    unfold weight. rewrite Hm, Hu, Hus, !unitsWork_app.
    cbn [unitsWork fold_right g_code]. rewrite Hg. cbn [length]. lia.
Qed.

(** A run is as long as the work it does. *)
Lemma run_weight (sched : list Tid) (st st' : State) :
  I st -> run since sched st = Some st' ->
  (weight since st' + length sched = weight since st)%nat.
Proof.
  revert st. induction sched as [| t sched IH]; intros st HI; cbn [run length].
  - intros [= <-]. lia.
  - destruct (step since t st) as [st1 |] eqn:Hstep; [| discriminate].
    intros Hrun. pose proof (step_weight t st st1 HI Hstep).
    pose proof (IH st1 (Inv_step since ctx db code m0 t st st1 HI Hstep) Hrun). lia.
Qed.

(** A goroutine that has not finished can always take its next step: it
    never blocks, and its [wg.Done()] does not panic. *)
Lemma unit_enabled (st : State) (k : nat) (g : Goroutine) :
  I st -> st_units st !! k = Some g -> finished g = false ->
  exists st', step since (Unit k) st = Some st'.
Proof.
  intros HI Hk Hg.
  destruct (unit_next st k g HI Hk Hg) as (i & gc & Hcode & Hnext).
  assert (Hwg : (0 < st_wg st)%Z).
  { rewrite (inv_wg _ _ _ _ _ _ HI).
    destruct (units_split _ _ _ Hk) as (us1 & us2 & Hus & _).
    rewrite Hus, active_app, active_cons, Hg.
    pose proof (active_nonneg us1). pose proof (active_nonneg us2).
    pose proof (mainOk_owed ctx db _ (inv_main _ _ _ _ _ _ HI)). lia. }
  destruct st as [dn mn us wg m c out lg]. cbn [st_units st_wg] in *.
  cbn [step]. rewrite Hk. destruct g as [s gd gcode]. cbn [g_code] in Hcode. subst gcode.
  apply exec_enabled; cbn [st_wg].
  - intros ->. destruct Hnext as [[[=] _] | [[] _]].
  - intros _. exact Hwg.
Qed.

(** As long as [Collect] has not returned, some thread can take a step:
    [Main], unless it waits for goroutines, of which one then can. *)
Lemma progress (st : State) :
  I st -> st_main st <> [] -> exists t st', step since t st = Some st'.
Proof.
  intros HI Hmain.
  destruct (st_main st) as [| i mn] eqn:Hmn; [contradiction |].
  pose proof (inv_main _ _ _ _ _ _ HI) as Hok. rewrite Hmn in Hok.
  cbn [mainOk] in Hok. destruct Hok as [Hi _].
  assert (Hcases : (i = wg_Wait /\ st_wg st <> 0%Z)
                   \/ (i = wg_Wait -> st_wg st = 0%Z)).
  { destruct (decide (st_wg st = 0%Z)) as [H0 | H0]; [now right |].
    destruct i; try (right; discriminate). now left. }
  destruct Hcases as [[-> Hwg] | Hfree].
  - pose proof (inv_wg _ _ _ _ _ _ HI) as Iwg. rewrite Hmn in Iwg. cbn [owed] in Iwg.
    pose proof (active_nonneg (st_units st)).
    destruct (active_pos (st_units st)) as (k & g & Hk & Hg); [lia |].
    destruct (unit_enabled st k g HI Hk Hg) as (st' & Hstep).
    now exists (Unit k), st'.
  - exists Main.
    destruct st as [dn mn' us wg m c out lg]. cbn [st_main st_wg] in *. subst mn'.
    cbn [step]. apply exec_enabled; cbn [st_wg].
    + exact Hfree.
    + intros ->. contradiction.
Qed.

(** From every state of a cycle, [Collect] can run to its return. *)
Lemma completes (st : State) :
  I st -> exists sched st', run since sched st = Some st' /\ collected st'.
Proof.
  remember (weight since st) as n eqn:Hn. revert st Hn.
  induction n as [n IH] using lt_wf_ind. intros st Hn HI.
  destruct (st_main st) as [| i mn] eqn:Hmn.
  - exists [], st. now split.
  - destruct (progress st HI) as (t & st1 & Hstep); [now rewrite Hmn |].
    pose proof (step_weight t st st1 HI Hstep) as Hw.
    destruct (IH (weight since st1) ltac:(lia) st1 eq_refl
                (Inv_step since ctx db code m0 t st st1 HI Hstep))
      as (sched & st' & Hrun & Hdone).
    exists (t :: sched), st'. cbn [run]. rewrite Hstep. now split.
Qed.

End Progress.

(** ** What a goroutine does in all *)

Lemma sends_map_Send (ms : list Metric) : sends (List.map Send ms) = ms.
Proof. induction ms as [| m ms IH]; [reflexivity |]. cbn. now rewrite IH. Qed.

Lemma incs_map_Send (label : string) (ms : list Metric) : incs label (List.map Send ms) = 0%N.
Proof. induction ms as [| m ms IH]; [reflexivity |]. exact IH. Qed.

Lemma sends_unitCode since ctx db (s : Scraper) :
  sends (unitCode since ctx db s)
  = sent (Scrape s ctx db) ++ [durationSample since (collectLabel s)].
Proof.
  unfold unitCode. rewrite !sends_app, sends_map_Send.
  now destruct (returned (Scrape s ctx db)).
Qed.

Lemma incs_unitCode since ctx db (label : string) (s : Scraper) :
  incs label (unitCode since ctx db s)
  = if fails ctx db s && String.eqb (collectLabel s) label then 1%N else 0%N.
Proof.
  unfold unitCode, fails. rewrite !incs_app, incs_map_Send.
  destruct (returned (Scrape s ctx db)); cbn [incs andb]; [| reflexivity].
  fold (collectLabel s). destruct (String.eqb (collectLabel s) label); reflexivity.
Qed.

Lemma isErrorSet_unitCode since ctx db (s : Scraper) :
  existsb isErrorSet (unitCode since ctx db s) = fails ctx db s.
Proof.
  unfold unitCode, fails. rewrite !existsb_app.
  assert (Hsend : forall ms, existsb isErrorSet (List.map Send ms) = false)
    by (induction ms as [| m ms IH]; [reflexivity | exact IH]).
  rewrite Hsend. now destruct (returned (Scrape s ctx db)).
Qed.

(** The finished goroutines of a state have done all of their code. *)
Lemma finished_done since ctx db (us : list Goroutine) :
  Forall (fun g => g_done g ++ g_code g = unitCode since ctx db (g_scraper g)) us ->
  forallb finished us = true ->
  Forall (fun g => g_done g = unitCode since ctx db (g_scraper g) /\ g_code g = []) us.
Proof.
  induction 1 as [| g us Hg Hus IH]; [constructor |].
  cbn [forallb]. intros [Hfin Hrest]%andb_true_iff. constructor; [| now apply IH].
  unfold finished in Hfin. destruct (g_code g); [| discriminate].
  now rewrite app_nil_r in Hg.
Qed.

Lemma sumIncs_finished since ctx db (label : string) (us : list Goroutine) :
  Forall (fun g => g_done g = unitCode since ctx db (g_scraper g) /\ g_code g = []) us ->
  sumIncs label us = failures ctx db label (List.map g_scraper us).
Proof.
  unfold failures. induction 1 as [| g us [Hg _] Hus IH]; [reflexivity |].
  cbn [sumIncs fold_right List.map List.filter]. fold (sumIncs label us).
  rewrite IH, Hg, incs_unitCode.
  destruct (fails ctx db (g_scraper g) && String.eqb (collectLabel (g_scraper g)) label);
    cbn [length]; lia.
Qed.

Lemma anyError_finished since ctx db (us : list Goroutine) :
  Forall (fun g => g_done g = unitCode since ctx db (g_scraper g) /\ g_code g = []) us ->
  existsb (fun g => existsb isErrorSet (g_done g)) us
  = existsb (fails ctx db) (List.map g_scraper us).
Proof.
  induction 1 as [| g us [Hg _] Hus IH]; [reflexivity |].
  cbn [existsb List.map]. now rewrite IH, Hg, isErrorSet_unitCode.
Qed.

(** Once [Main] is past its [wg.Wait()], it starts no goroutine. *)
Lemma started_after_wait ctx db (mn : list Instr) :
  mainOk ctx db mn -> existsb isWait mn = false -> started mn = [].
Proof.
  induction mn as [| i mn IH]; [reflexivity |].
  cbn [mainOk]. intros [Hi Hmn] Hw.
  destruct i; cbn [started existsb isWait orb] in *; try (now apply IH); try discriminate.
  destruct Hi as (_ & _ & Hw' & _). congruence.
Qed.

(** ** A cycle whose [sql.Open] succeeds *)

Section OpenSucceeds.

Variable since : string -> float.
Variable sqlOpen : string -> string -> error + DB.
Variable ctx : Context.
Variable dsn : string.
Variable ss : list Scraper.
Variable m0 : Metrics.
Variable db : DB.

Hypothesis Hopen : sqlOpen "cubrid" dsn = inr db.

Let code := collectCode since sqlOpen ctx dsn ss.
Let st0 := start since sqlOpen ctx dsn ss m0.

Lemma collectCode_open :
  code
  = [TotalScrapes_Inc; sql_Open; db_SetMaxOpenConns 1; db_SetMaxIdleConns 1;
     db_SetConnMaxLifetime (1 * Minute); CubridUp_Set 1; Error_Set 0;
     Send (durationSample since "connection")]
    ++ loopCode ctx db ss ++ [wg_Wait; db_Close] ++ collectTail.
Proof.
  unfold code, collectCode, scrapeCode. rewrite Hopen.
  cbn [app]. now rewrite <- !app_assoc.
Qed.

Lemma reachable_Inv (sched : list Tid) (st : State) :
  run since sched st0 = Some st -> Inv since ctx db code m0 st.
Proof.
  apply Inv_run, Inv_start. intros db' Hdb'. congruence.
Qed.

Lemma started_code : started code = ss.
Proof. rewrite collectCode_open. cbn [app started]. rewrite started_app, loopCode_started. cbn. apply app_nil_r. Qed.

(** After [wg.Wait()], one goroutine per scraper has been started, in the
    order of the scrapers, and each has executed all of its code. *)
Lemma joined (sched : list Tid) (st : State) :
  run since sched st0 = Some st ->
  existsb isWait (st_main st) = false ->
  List.map g_scraper (st_units st) = ss
  /\ Forall (fun g => g_done g = unitCode since ctx db (g_scraper g) /\ g_code g = [])
            (st_units st).
Proof.
  intros Hrun Hw. pose proof (reachable_Inv sched st Hrun) as HI.
  split.
  - rewrite (inv_started _ _ _ _ _ _ HI).
    pose proof (f_equal started (inv_code _ _ _ _ _ _ HI)) as Hs.
    rewrite started_app, started_code in Hs.
    rewrite (started_after_wait ctx db _ (inv_main _ _ _ _ _ _ HI) Hw), app_nil_r in Hs.
    exact Hs.
  - apply finished_done; [exact (inv_units _ _ _ _ _ _ HI) |].
    exact (inv_wait _ _ _ _ _ _ HI Hw).
Qed.

(** What the goroutine of the [k]-th scraper has sent by then. *)
Lemma unit_output (sched : list Tid) (st : State) (k : nat) (s : Scraper) :
  run since sched st0 = Some st ->
  existsb isWait (st_main st) = false ->
  ss !! k = Some s ->
  sentBy (Unit k) (st_out st)
  = sent (Scrape s ctx db) ++ [durationSample since (collectLabel s)].
Proof.
  intros Hrun Hw Hk. pose proof (reachable_Inv sched st Hrun) as HI.
  destruct (joined sched st Hrun Hw) as [Hss Hdone].
  rewrite (inv_out _ _ _ _ _ _ HI).
  rewrite <- Hss in Hk. change (List.map g_scraper (st_units st)) with (g_scraper <$> st_units st) in Hk.
  rewrite list_lookup_fmap in Hk.
  destruct (st_units st !! k) as [g |] eqn:Hg; [| discriminate].
  cbn in Hk. injection Hk as <-.
  rewrite Forall_forall in Hdone.
  destruct (Hdone g) as [-> _]; [apply list_elem_of_lookup; now exists k |].
  apply sends_unitCode.
Qed.

(** The metrics and the handle when [Collect] returns. *)
Lemma end_state (sched : list Tid) (st : State) :
  run since sched st0 = Some st ->
  collected st ->
  (forall label,
      scrapeErrors (st_metrics st) label
      = (scrapeErrors m0 label + failures ctx db label ss)%N)
  /\ Error (st_metrics st) = (if existsb (fails ctx db) ss then 1 else 0)%float
  /\ TotalScrapes (st_metrics st) = (TotalScrapes m0 + 1)%N
  /\ CubridUp (st_metrics st) = 1%float
  /\ st_conn st = MkConn 1 1 1 1 Minute.
Proof.
  intros Hrun Hend. unfold collected in Hend.
  pose proof (reachable_Inv sched st Hrun) as HI.
  assert (Hw : existsb isWait (st_main st) = false) by now rewrite Hend.
  destruct (joined sched st Hrun Hw) as [Hss Hdone].
  assert (Hcode : st_done st = code).
  { pose proof (inv_code _ _ _ _ _ _ HI) as Hc. now rewrite Hend, app_nil_r in Hc. }
  assert (Hfold : forall A (f : A -> Instr -> A) (a : A),
             (forall a n, f a (wg_Add n) = a) ->
             (forall a c d s, f a (Go c d s) = a) ->
             fold_left f code a
             = fold_left f ([wg_Wait; db_Close] ++ collectTail)
                 (fold_left f
                    [TotalScrapes_Inc; sql_Open; db_SetMaxOpenConns 1; db_SetMaxIdleConns 1;
                     db_SetConnMaxLifetime (1 * Minute); CubridUp_Set 1; Error_Set 0;
                     Send (durationSample since "connection")] a)).
  { intros A f a Hadd Hgo. rewrite collectCode_open, !fold_left_app.
    now rewrite (loopCode_fold ctx db f ss _ Hadd Hgo). }
  repeat split.
  - intros label. rewrite (inv_errors _ _ _ _ _ _ HI).
    now rewrite (sumIncs_finished since ctx db label _ Hdone), Hss.
  - rewrite (inv_error _ _ _ _ _ _ HI).
    rewrite (anyError_finished since ctx db _ Hdone), Hss.
    destruct (existsb (fails ctx db) ss); [reflexivity |].
    rewrite Hcode, Hfold; reflexivity.
  - rewrite (inv_total _ _ _ _ _ _ HI), Hcode, Hfold; reflexivity.
  - rewrite (inv_up _ _ _ _ _ _ HI), Hcode, Hfold; reflexivity.
  - rewrite (inv_conn _ _ _ _ _ _ HI), Hcode, Hfold; reflexivity.
Qed.

End OpenSucceeds.

(** ** Error counters of scrapers with unique names *)

Lemma collectLabel_inj (s s' : Scraper) : collectLabel s = collectLabel s' -> Name s = Name s'.
Proof. unfold collectLabel. cbn. now intros [= H]. Qed.

Lemma failures_absent ctx db (label : string) (ss : list Scraper) :
  (forall s, In s ss -> collectLabel s <> label) -> failures ctx db label ss = 0%N.
Proof.
  unfold failures. induction ss as [| s ss IH]; [reflexivity |].
  intros Hne. cbn [List.filter].
  destruct (String.eqb_spec (collectLabel s) label) as [Heq | _].
  - exfalso. apply (Hne s); [now left | exact Heq].
  - rewrite andb_false_r. apply IH. intros s' Hs'. apply Hne. now right.
Qed.

(** With unique names, the label of a scraper counts its own failure only. *)
Lemma failures_unique ctx db (ss : list Scraper) (k : nat) (s : Scraper) :
  NoDup (List.map Name ss) ->
  ss !! k = Some s ->
  failures ctx db (collectLabel s) ss = if fails ctx db s then 1%N else 0%N.
Proof.
  revert k. induction ss as [| s0 ss IH]; intros k Hnd Hk; [discriminate |].
  cbn [List.map] in Hnd. apply NoDup_cons in Hnd as [Hnotin Hnd].
  destruct k as [| k]; cbn in Hk.
  - injection Hk as ->.
    unfold failures. cbn [List.filter]. rewrite String.eqb_refl, andb_true_r.
    assert (Hrest : failures ctx db (collectLabel s) ss = 0%N).
    { apply failures_absent. intros s' Hs' Heq. apply Hnotin.
      rewrite <- (collectLabel_inj _ _ Heq). apply list_elem_of_In, in_map_iff. now exists s'. }
    unfold failures in Hrest. destruct (fails ctx db s); cbn [length]; lia.
  - unfold failures. cbn [List.filter].
    destruct (String.eqb_spec (collectLabel s0) (collectLabel s)) as [Heq | _].
    + exfalso. apply Hnotin. rewrite (collectLabel_inj _ _ Heq).
      apply list_elem_of_In, in_map_iff. exists s. split; [reflexivity |].
      apply list_elem_of_In, list_elem_of_lookup. now exists k.
    + rewrite andb_false_r. now apply (IH k).
Qed.

(** ** A cycle whose [sql.Open] fails *)

Section OpenFails.

Variable since : string -> float.
Variable sqlOpen : string -> string -> error + DB.
Variable ctx : Context.
Variable dsn : string.
Variable ss : list Scraper.
Variable m0 : Metrics.
Variable err : error.

Hypothesis Hopen : sqlOpen "cubrid" dsn = inl err.

Let code := collectCode since sqlOpen ctx dsn ss.
Let st0 := start since sqlOpen ctx dsn ss m0.

Lemma collectCode_fail :
  code = [TotalScrapes_Inc; sql_Open; Log (LogOpen err); Error_Set 1] ++ collectTail.
Proof. unfold code, collectCode, scrapeCode. now rewrite Hopen. Qed.

Lemma fail_Inv (sched : list Tid) (st : State) :
  run since sched st0 = Some st -> Inv since ctx (answering []) code m0 st.
Proof.
  apply Inv_run, Inv_start. intros db' Hdb'. congruence.
Qed.

(** No goroutine is ever started. *)
Lemma fail_no_units (sched : list Tid) (st : State) :
  run since sched st0 = Some st -> st_units st = [].
Proof.
  intros Hrun. pose proof (fail_Inv sched st Hrun) as HI.
  pose proof (f_equal started (inv_code _ _ _ _ _ _ HI)) as Hs.
  rewrite started_app, collectCode_fail in Hs. cbn in Hs.
  apply app_eq_nil in Hs as [Hs _].
  pose proof (inv_started _ _ _ _ _ _ HI) as Hu. rewrite Hs in Hu.
  now destruct (st_units st).
Qed.

(** So every schedule lets [Main] alone run. *)
Lemma fail_only_Main (sched sched' : list Tid) (st st' : State) :
  run since sched st0 = Some st ->
  run since sched' st = Some st' ->
  sched' = repeat Main (length sched').
Proof.
  revert sched st. induction sched' as [| t sched' IH]; intros sched st Hrun Hrun'; [reflexivity |].
  cbn [run] in Hrun'. destruct (step since t st) as [st1 |] eqn:Hstep; [| discriminate].
  assert (Hrun1 : run since (sched ++ [t]) st0 = Some st1).
  { clear - Hrun Hstep. revert Hrun. generalize st0. induction sched as [| u sched IHs]; intros s0; cbn [run app].
    - intros [= ->]. now rewrite Hstep.
    - destruct (step since u s0); [apply IHs | discriminate]. }
  cbn [length repeat]. rewrite <- (IH (sched ++ [t]) st1 Hrun1 Hrun').
  destruct t as [| k]; [reflexivity |].
  apply step_Unit_inv in Hstep as (g & i & gc & Hk & _).
  rewrite (fail_no_units sched st Hrun) in Hk. discriminate Hk.
Qed.

(** The one complete run. *)
Lemma fail_run :
  run since (repeat Main 8) st0
  = Some (MkState code [] [] 0 (setError 1 (incTotalScrapes m0)) (MkConn 1 0 0 2 0)
            (List.map (pair Main)
               ([sampleTotalScrapes (setError 1 (incTotalScrapes m0));
                 sampleError (setError 1 (incTotalScrapes m0))]
                ++ samplesScrapeErrors (setError 1 (incTotalScrapes m0))
                ++ [sampleCubridUp (setError 1 (incTotalScrapes m0))]))
            [LogOpen err]).
Proof.
  rewrite collectCode_fail. unfold st0, start, collectCode, scrapeCode. rewrite Hopen.
  cbn. rewrite !List.map_app. reflexivity.
Qed.

Lemma fail_end (sched : list Tid) (st : State) :
  run since sched st0 = Some st -> collected st ->
  run since (repeat Main 8) st0 = Some st.
Proof.
  intros Hrun Hend.
  pose proof (fail_only_Main [] sched st0 st eq_refl Hrun) as Hsched.
  pose proof (run_weight since ctx (answering []) code m0 sched st0 st
                (fail_Inv [] st0 eq_refl) Hrun) as Hw.
  assert (Hlen : length sched = 8%nat).
  { unfold weight in Hw. rewrite (fail_no_units sched st Hrun) in Hw.
    unfold collected in Hend. rewrite Hend in Hw.
    unfold st0, start in Hw. cbn [st_main st_units unitsWork fold_right] in Hw.
    fold code in Hw. rewrite collectCode_fail in Hw. cbn in Hw. lia. }
  now rewrite Hsched, Hlen in Hrun.
Qed.

End OpenFails.

(** ** The claims about the cycle *)

(** C1, as the code has it: when [sql.Open] fails, the cycle ends at once:
    no goroutine is started and no scraper runs, the last-scrape-error gauge
    is set to 1, the total of scrapes is incremented, the up gauge and the
    error counters keep their values, the handle is not closed, and what is
    sent is the exporter's own four metrics and nothing else: no duration
    and no sample of a scraper. *)
Theorem open_failure_is_fatal since sqlOpen (ctx : Context) (dsn : string)
    (ss : list Scraper) (m0 : Metrics) (err : error) :
  sqlOpen "cubrid" dsn = inl err ->
  let m := setError 1 (incTotalScrapes m0) in
  (exists st, run since (repeat Main 8) (start since sqlOpen ctx dsn ss m0) = Some st
              /\ collected st)
  /\ forall sched st,
      run since sched (start since sqlOpen ctx dsn ss m0) = Some st ->
      st_units st = []
      /\ (collected st ->
          st_metrics st = m
          /\ Error (st_metrics st) = 1%float
          /\ CubridUp (st_metrics st) = CubridUp m0
          /\ ScrapeErrors (st_metrics st) = ScrapeErrors m0
          /\ TotalScrapes (st_metrics st) = (TotalScrapes m0 + 1)%N
          /\ st_out st
             = List.map (pair Main)
                 ([sampleTotalScrapes m; sampleError m]
                  ++ samplesScrapeErrors m ++ [sampleCubridUp m])
          /\ st_conn st = MkConn 1 0 0 2 0
          /\ st_log st = [LogOpen err]).
Proof.
  intros Hopen m. split.
  - eexists. split; [apply (fail_run since sqlOpen ctx dsn ss m0 err Hopen) | reflexivity].
  - intros sched st Hrun. split.
    + exact (fail_no_units since sqlOpen ctx dsn ss m0 err Hopen sched st Hrun).
    + intros Hend.
      pose proof (fail_end since sqlOpen ctx dsn ss m0 err Hopen sched st Hrun Hend) as H8.
      rewrite (fail_run since sqlOpen ctx dsn ss m0 err Hopen) in H8.
      injection H8 as <-. cbn. repeat split; reflexivity.
Qed.

Lemma open_failure_is_fatal_witness :
  exists st,
    run demoSince (repeat Main 8) (failingStart NewMetrics) = Some st
    /\ collected st
    /\ st_units st = []
    /\ Error (st_metrics st) = 1%float
    /\ CubridUp (st_metrics st) = 0%float
    /\ TotalScrapes (st_metrics st) = 1%N
    /\ st_out st
       = [(Main, MkMetric TotalScrapesDesc (CounterValue 1) []);
          (Main, MkMetric ErrorDesc (GaugeValue 1) []);
          (Main, MkMetric CubridUpDesc (GaugeValue 0) [])]
    /\ st_conn st = MkConn 1 0 0 2 0
    /\ st_log st = [LogOpen (DriverError "sql: unknown driver cubrid")].
Proof.
  assert (Hend : option_map st_main (run demoSince (repeat Main 8) (failingStart NewMetrics))
                 = Some [])
    by (vm_compute; reflexivity).
  destruct (run demoSince (repeat Main 8) (failingStart NewMetrics)) as [st |] eqn:Hrun;
    [| discriminate Hend].
  injection Hend as Hend. exists st.
  split; [reflexivity | split; [exact Hend |]].
  destruct (open_failure_is_fatal demoSince failingOpen RequestContext "dsn"
              (enabledScrapers ParseFloat ∅) NewMetrics
              (DriverError "sql: unknown driver cubrid") eq_refl) as [_ Hall].
  destruct (Hall (repeat Main 8) st Hrun) as [Hunits Hst].
  destruct (Hst Hend) as (_ & Herror & Hup & _ & Htotal & Hout & Hconn & Hlog).
  repeat split; assumption.
Defined.

(** C1 as stated fails: after a failed [sql.Open] the total of scrapes is
    on the channel, which is neither the up nor the error gauge; and the up
    gauge that the cycle before has set to 1 is still 1. *)
Lemma open_failure_not_only_up_and_error :
  ~ (forall m0 sched st,
        run demoSince sched (failingStart m0) = Some st ->
        collected st ->
        forall x, In x (st_out st) ->
                  m_desc (snd x) = CubridUpDesc \/ m_desc (snd x) = ErrorDesc)
  /\ ~ (forall m0 sched st,
          run demoSince sched (failingStart m0) = Some st ->
          collected st ->
          CubridUp (st_metrics st) = 0%float).
Proof.
  split.
  - intros H.
    pose proof (fail_run demoSince failingOpen RequestContext "dsn"
                  (enabledScrapers ParseFloat ∅) NewMetrics
                  (DriverError "sql: unknown driver cubrid") eq_refl) as Hrun.
    specialize (H NewMetrics _ _ Hrun eq_refl
                  (Main, sampleTotalScrapes (setError 1 (incTotalScrapes NewMetrics)))).
    destruct H as [H | H]; [now left | discriminate H | discriminate H].
  - intros H.
    pose proof (fail_run demoSince failingOpen RequestContext "dsn"
                  (enabledScrapers ParseFloat ∅) afterDemo
                  (DriverError "sql: unknown driver cubrid") eq_refl) as Hrun.
    specialize (H afterDemo _ _ Hrun eq_refl). cbn [st_metrics setError CubridUp incTotalScrapes] in H.
    revert H. apply (float_neq_by (fun x => PrimFloat.eqb x 1)). vm_compute. discriminate.
Qed.

Lemma collected_stuck since ctx db code m0 (st : State) :
  Inv since ctx db code m0 st -> collected st -> forall t, step since t st = None.
Proof.
  intros HI Hend t. unfold collected in Hend.
  destruct (step since t st) as [st' |] eqn:Hstep; [exfalso | reflexivity].
  destruct t as [| k].
  - apply step_Main_inv in Hstep as (i & mn & Hmn & _). congruence.
  - apply step_Unit_inv in Hstep as (g & i & gc & Hk & Hg & _).
    assert (Hw : existsb isWait (st_main st) = false) by now rewrite Hend.
    pose proof (inv_wait _ _ _ _ _ _ HI Hw) as Hfin.
    destruct (units_split _ _ _ Hk) as (us1 & us2 & Hus & _).
    rewrite Hus, forallb_app in Hfin. cbn [forallb] in Hfin.
    unfold finished at 2 in Hfin. rewrite Hg, andb_false_r in Hfin. discriminate Hfin.
Qed.

(** C3: when the scrape of A returns an error and the scrape of B does not,
    in a cycle whose scrapers have unique names, then however the goroutines
    are scheduled, when [Collect] returns the goroutine of B has sent all the
    samples of B and its duration, the goroutine of A has sent what A sent
    before it failed and its duration, the error counter of "collect.<A>"
    is one higher than before (the one of B is unchanged), the
    last-scrape-error gauge is 1, and every scraper of the cycle has run to
    its end; and [Collect] does return. *)
Theorem scraper_failure_is_isolated since sqlOpen (ctx : Context) (dsn : string)
    (ss : list Scraper) (m0 : Metrics) (db : DB) (a b : nat) (A B : Scraper) (e : error) :
  sqlOpen "cubrid" dsn = inr db ->
  NoDup (List.map Name ss) ->
  ss !! a = Some A ->
  ss !! b = Some B ->
  returned (Scrape A ctx db) = Some e ->
  returned (Scrape B ctx db) = None ->
  (exists sched st,
      run since sched (start since sqlOpen ctx dsn ss m0) = Some st /\ collected st)
  /\ forall sched st,
      run since sched (start since sqlOpen ctx dsn ss m0) = Some st ->
      collected st ->
      sentBy (Unit b) (st_out st)
      = sent (Scrape B ctx db) ++ [durationSample since ("collect." +:+ Name B)]
      /\ sentBy (Unit a) (st_out st)
         = sent (Scrape A ctx db) ++ [durationSample since ("collect." +:+ Name A)]
      /\ scrapeErrors (st_metrics st) ("collect." +:+ Name A)
         = (scrapeErrors m0 ("collect." +:+ Name A) + 1)%N
      /\ scrapeErrors (st_metrics st) ("collect." +:+ Name B)
         = scrapeErrors m0 ("collect." +:+ Name B)
      /\ (forall label,
             scrapeErrors (st_metrics st) label
             = (scrapeErrors m0 label + failures ctx db label ss)%N)
      /\ Error (st_metrics st) = 1%float
      /\ List.map g_scraper (st_units st) = ss
      /\ forallb finished (st_units st) = true.
Proof.
  intros Hopen Hnd Ha Hb HA HB. split.
  - apply (completes since ctx db (collectCode since sqlOpen ctx dsn ss) m0).
    apply Inv_start. intros db' Hdb'. congruence.
  - intros sched st Hrun Hend.
    assert (Hw : existsb isWait (st_main st) = false)
      by (unfold collected in Hend; now rewrite Hend).
    destruct (end_state since sqlOpen ctx dsn ss m0 db Hopen sched st Hrun Hend)
      as (Herrors & Herror & _).
    destruct (joined since sqlOpen ctx dsn ss m0 db Hopen sched st Hrun Hw) as [Hss Hdone].
    assert (HfA : fails ctx db A = true) by (unfold fails; now rewrite HA).
    assert (HfB : fails ctx db B = false) by (unfold fails; now rewrite HB).
    repeat split.
    + exact (unit_output since sqlOpen ctx dsn ss m0 db Hopen sched st b B Hrun Hw Hb).
    + exact (unit_output since sqlOpen ctx dsn ss m0 db Hopen sched st a A Hrun Hw Ha).
    + fold (collectLabel A).
      now rewrite Herrors, (failures_unique ctx db ss a A Hnd Ha), HfA.
    + fold (collectLabel B).
      rewrite Herrors, (failures_unique ctx db ss b B Hnd Hb), HfB. lia.
    + exact Herrors.
    + rewrite Herror.
      replace (existsb (fails ctx db) ss) with true; [reflexivity |].
      symmetry. apply existsb_exists. exists A. split; [| exact HfA].
      apply list_elem_of_In, list_elem_of_lookup. now exists a.
    + exact Hss.
    + apply forallb_forall. intros g Hg. rewrite Forall_forall in Hdone.
      destruct (Hdone g) as [_ Hcode]; [now apply list_elem_of_In |].
      unfold finished. now rewrite Hcode.
Qed.

Lemma scraper_failure_is_isolated_witness :
  exists st,
    run demoSince demoSchedule demoStart = Some st
    /\ collected st
    /\ sentBy (Unit 1) (st_out st)
       = [MustNewConstMetric StatdumpInfo 3 ["Num_file_creates"];
          MustNewConstMetric scrapeDurationDesc 0.5 ["collect.statdump"]]
    /\ sentBy (Unit 0) (st_out st)
       = [MustNewConstMetric scrapeDurationDesc 0.5 ["collect.broker_status"]]
    /\ scrapeErrors (st_metrics st) "collect.broker_status" = 1%N
    /\ scrapeErrors (st_metrics st) "collect.statdump" = 0%N
    /\ (forall label,
           scrapeErrors (st_metrics st) label
           = (scrapeErrors NewMetrics label
              + failures RequestContext demoDB label (enabledScrapers ParseFloat ∅))%N)
    /\ Error (st_metrics st) = 1%float
    /\ List.map g_scraper (st_units st) = enabledScrapers ParseFloat ∅
    /\ forallb finished (st_units st) = true.
Proof.
  assert (Hend : option_map st_main (run demoSince demoSchedule demoStart) = Some [])
    by (vm_compute; reflexivity).
  destruct (run demoSince demoSchedule demoStart) as [st |] eqn:Hrun; [| discriminate Hend].
  injection Hend as Hend. exists st.
  split; [reflexivity | split; [exact Hend |]].
  refine (proj2 (scraper_failure_is_isolated demoSince demoOpen RequestContext "dsn"
                   (enabledScrapers ParseFloat ∅) NewMetrics demoDB 0 1
                   (ScrapeBrokerStatus ParseFloat) (ScrapeStatdump ParseFloat)
                   (DriverError "query failed") _ _ _ _ _ _)
            demoSchedule st Hrun Hend); try reflexivity.
  apply (bool_decide_unpack _). vm_compute. reflexivity.
Defined.

(** C6: in a cycle whose [sql.Open] succeeds, however the goroutines are
    scheduled: a goroutine that has not finished can always take its next
    step, so no send is lost; once [Main] is past [wg.Wait()], one
    goroutine per scraper has been started and all have finished, and the
    channel holds, for each scraper, everything its scrape sent followed by
    its duration; this is so in particular when [Collect] returns, which it
    does, and after which no thread takes a step, so that nothing is sent
    once the stream is over. *)
Theorem samples_sent_before_Collect_returns since sqlOpen (ctx : Context) (dsn : string)
    (ss : list Scraper) (m0 : Metrics) (db : DB) :
  sqlOpen "cubrid" dsn = inr db ->
  (exists sched st,
      run since sched (start since sqlOpen ctx dsn ss m0) = Some st /\ collected st)
  /\ forall sched st,
      run since sched (start since sqlOpen ctx dsn ss m0) = Some st ->
      (forall k g, st_units st !! k = Some g -> finished g = false ->
                   exists st', step since (Unit k) st = Some st')
      /\ (existsb isWait (st_main st) = false ->
          List.map g_scraper (st_units st) = ss
          /\ forallb finished (st_units st) = true
          /\ forall k s, ss !! k = Some s ->
                         sentBy (Unit k) (st_out st)
                         = sent (Scrape s ctx db)
                           ++ [durationSample since ("collect." +:+ Name s)])
      /\ (collected st ->
          existsb isWait (st_main st) = false
          /\ forall t, step since t st = None).
Proof.
  intros Hopen.
  assert (Hstart : Inv since ctx db (collectCode since sqlOpen ctx dsn ss) m0
                     (start since sqlOpen ctx dsn ss m0))
    by (apply Inv_start; intros db' Hdb'; congruence).
  split.
  - exact (completes since ctx db _ m0 _ Hstart).
  - intros sched st Hrun.
    pose proof (Inv_run since ctx db _ m0 sched _ st Hstart Hrun) as HI.
    split; [| split].
    + intros k g Hk Hg. exact (unit_enabled since ctx db _ m0 st k g HI Hk Hg).
    + intros Hw.
      destruct (joined since sqlOpen ctx dsn ss m0 db Hopen sched st Hrun Hw) as [Hss Hdone].
      split; [exact Hss | split].
      * exact (inv_wait _ _ _ _ _ _ HI Hw).
      * intros k s Hk.
        exact (unit_output since sqlOpen ctx dsn ss m0 db Hopen sched st k s Hrun Hw Hk).
    + intros Hend. split.
      * unfold collected in Hend. now rewrite Hend.
      * exact (collected_stuck since ctx db _ m0 st HI Hend).
Qed.

Lemma samples_sent_before_Collect_returns_witness :
  exists st,
    run demoSince demoSchedule demoStart = Some st
    /\ collected st
    /\ List.map g_scraper (st_units st) = enabledScrapers ParseFloat ∅
    /\ forallb finished (st_units st) = true
    /\ sentBy (Unit 0) (st_out st)
       = [MustNewConstMetric scrapeDurationDesc 0.5 ["collect.broker_status"]]
    /\ sentBy (Unit 1) (st_out st)
       = [MustNewConstMetric StatdumpInfo 3 ["Num_file_creates"];
          MustNewConstMetric scrapeDurationDesc 0.5 ["collect.statdump"]]
    /\ sentBy (Unit 2) (st_out st)
       = [MustNewConstMetric VolNoInfo 1 ["0"; "_type"];
          MustNewConstMetric VolNoInfo 1 ["0"; "purpose"];
          MustNewConstMetric VolNoInfo 3 ["0"; "count"];
          MustNewConstMetric VolNoInfo 80 ["0"; "used_pages"];
          MustNewConstMetric VolNoInfo 20 ["0"; "free_pages"];
          MustNewConstMetric VolNoInfo 80 ["0"; "usedPercentage"];
          MustNewConstMetric scrapeDurationDesc 0.5 ["collect.spacedb"]]
    /\ forall t, step demoSince t st = None.
Proof.
  assert (Hend : option_map st_main (run demoSince demoSchedule demoStart) = Some [])
    by (vm_compute; reflexivity).
  destruct (run demoSince demoSchedule demoStart) as [st |] eqn:Hrun; [| discriminate Hend].
  injection Hend as Hend. exists st.
  split; [reflexivity | split; [exact Hend |]].
  destruct (samples_sent_before_Collect_returns demoSince demoOpen RequestContext "dsn"
              (enabledScrapers ParseFloat ∅) NewMetrics demoDB eq_refl) as [_ Hall].
  destruct (Hall demoSchedule st Hrun) as (_ & Hjoined & Hstop).
  destruct (Hstop Hend) as [Hw Hstuck].
  destruct (Hjoined Hw) as (Hss & Hfin & Hout).
  split; [exact Hss | split; [exact Hfin |]].
  split; [exact (Hout 0%nat (ScrapeBrokerStatus ParseFloat) eq_refl) |].
  split; [exact (Hout 1%nat (ScrapeStatdump ParseFloat) eq_refl) |].
  split; [exact (Hout 2%nat (ScrapeSpaceDBStatus ParseFloat) eq_refl) |].
  exact Hstuck.
Defined.

(** ** The handle of the database *)

Lemma connStep_opens (l : list Instr) (c : Conn) :
  (opens c <= opens (fold_left connStep l c))%nat
  /\ (closes c <= closes (fold_left connStep l c))%nat.
Proof.
  revert c. induction l as [| i l IH]; intros c; [cbn; lia |].
  cbn [fold_left]. destruct (IH (connStep c i)) as [Ho Hc].
  destruct i; cbn [connStep opens closes] in *; lia.
Qed.

(** The pool keeps its settings through code that does not configure it. *)
Lemma connStep_pool (l : list Instr) (c : Conn) :
  existsb configures l = false ->
  opens (fold_left connStep l c) = opens c
  /\ maxOpen (fold_left connStep l c) = maxOpen c
  /\ maxIdle (fold_left connStep l c) = maxIdle c
  /\ maxLifetime (fold_left connStep l c) = maxLifetime c.
Proof.
  revert c. induction l as [| i l IH]; intros c H; [now repeat split |].
  cbn [existsb] in H. apply orb_false_elim in H as [Hi Hl].
  cbn [fold_left]. destruct (IH (connStep c i) Hl) as (-> & -> & -> & ->).
  destruct i; try discriminate Hi; now repeat split.
Qed.

Lemma loopCode_configures ctx db (ss : list Scraper) :
  existsb configures (loopCode ctx db ss) = false.
Proof. induction ss as [| s ss IH]; [reflexivity | exact IH]. Qed.

(** Once a goroutine has been started, the handle is open and its pool is
    set: [sql.Open] and the three setters come before the loop that starts
    the goroutines, and nothing after them changes the pool. *)
Lemma pool_set_before_goroutines since sqlOpen (ctx : Context) (dsn : string)
    (ss : list Scraper) (m0 : Metrics) (db : DB) (st : State) :
  Inv since ctx db (collectCode since sqlOpen ctx dsn ss) m0 st ->
  st_units st <> [] ->
  opens (st_conn st) = 1%nat
  /\ maxOpen (st_conn st) = 1%Z
  /\ maxIdle (st_conn st) = 1%Z
  /\ maxLifetime (st_conn st) = (1 * Minute)%Z.
Proof.
  intros HI Hne.
  assert (Hst : started (st_done st) <> []).
  { rewrite <- (inv_started _ _ _ _ _ _ HI). destruct (st_units st); [contradiction | discriminate]. }
  pose proof (inv_code _ _ _ _ _ _ HI) as Hsplit.
  pose proof (inv_conn _ _ _ _ _ _ HI) as Hconn.
  destruct (sqlOpen "cubrid" dsn) as [err | d] eqn:Hopen.
  - exfalso. apply Hst.
    rewrite (collectCode_fail since sqlOpen ctx dsn ss err Hopen) in Hsplit.
    pose proof (f_equal started Hsplit) as Hs. rewrite started_app in Hs. cbn in Hs.
    now apply app_eq_nil in Hs as [Hs _].
  - rewrite (collectCode_open since sqlOpen ctx dsn ss d Hopen) in Hsplit.
    apply List.app_eq_app in Hsplit as [l [[Hd Hm] | [Hd Hm]]].
    + assert (Hl : existsb configures l = false).
      { pose proof (f_equal (existsb configures) Hm) as Hc.
        rewrite !existsb_app, loopCode_configures in Hc. cbn in Hc.
        symmetry in Hc. now apply orb_false_elim in Hc as [Hc _]. }
      rewrite Hconn, Hd, fold_left_app.
      match goal with
      | |- context [fold_left connStep l ?c] =>
          destruct (connStep_pool l c Hl) as (-> & -> & -> & ->)
      end.
      now repeat split.
    + exfalso. apply Hst.
      pose proof (f_equal started Hd) as Hs. rewrite started_app in Hs. cbn in Hs.
      symmetry in Hs. now apply app_eq_nil in Hs as [Hs _].
Qed.

(** C7: in every cycle, however the goroutines are scheduled: [sql.Open] is
    called once; when it succeeds the handle gets the caps of one open and
    one idle connection and a lifetime of one minute, and is closed exactly
    once, after every goroutine has finished, whatever the scrapers
    returned; when it fails there is no handle and nothing is closed.  At no
    time has [sql.Open] or [Close] been called twice.  The caps are in force
    whenever a goroutine uses the handle: in every state in which a
    goroutine has been started, the handle has been opened once and its pool
    is capped at one open and one idle connection with a lifetime of one
    minute; and as long as a goroutine has not finished, the handle has not
    been closed. *)
Theorem one_connection_per_cycle since sqlOpen (ctx : Context) (dsn : string)
    (ss : list Scraper) (m0 : Metrics) :
  (exists sched st,
      run since sched (start since sqlOpen ctx dsn ss m0) = Some st /\ collected st)
  /\ forall sched st,
      run since sched (start since sqlOpen ctx dsn ss m0) = Some st ->
      (opens (st_conn st) <= 1)%nat
      /\ (closes (st_conn st)
          <= match sqlOpen "cubrid" dsn with inl _ => 0 | inr _ => 1 end)%nat
      /\ (closes (st_conn st) = 1%nat ->
          existsb isWait (st_main st) = false
          /\ forallb finished (st_units st) = true)
      /\ (collected st ->
          st_conn st = match sqlOpen "cubrid" dsn with
                       | inl _ => MkConn 1 0 0 2 0
                       | inr _ => MkConn 1 1 1 1 (1 * Minute)
                       end)
      /\ (st_units st <> [] ->
          opens (st_conn st) = 1%nat
          /\ maxOpen (st_conn st) = 1%Z
          /\ maxIdle (st_conn st) = 1%Z
          /\ maxLifetime (st_conn st) = (1 * Minute)%Z)
      /\ (forallb finished (st_units st) = false -> closes (st_conn st) = 0%nat).
Proof.
  set (code := collectCode since sqlOpen ctx dsn ss).
  set (db := match sqlOpen "cubrid" dsn with inr d => d | inl _ => answering [] end).
  assert (Hstart : Inv since ctx db code m0 (start since sqlOpen ctx dsn ss m0)).
  { apply Inv_start. intros db' Hdb'. unfold db. now rewrite Hdb'. }
  assert (Hcode : fold_left connStep code noConn
                  = match sqlOpen "cubrid" dsn with
                    | inl _ => MkConn 1 0 0 2 0
                    | inr _ => MkConn 1 1 1 1 (1 * Minute)
                    end).
  { unfold code, collectCode, scrapeCode.
    destruct (sqlOpen "cubrid" dsn) as [err | d]; [reflexivity |].
    cbn [app fold_left connStep]. rewrite !fold_left_app.
    rewrite loopCode_fold by reflexivity. reflexivity. }
  split.
  - exact (completes since ctx db code m0 _ Hstart).
  - intros sched st Hrun.
    pose proof (Inv_run since ctx db code m0 sched _ st Hstart Hrun) as HI.
    pose proof (inv_conn _ _ _ _ _ _ HI) as Hconn.
    pose proof (inv_code _ _ _ _ _ _ HI) as Hsplit.
    assert (Hmono : (opens (st_conn st) <= opens (fold_left connStep code noConn))%nat
                    /\ (closes (st_conn st) <= closes (fold_left connStep code noConn))%nat).
    { rewrite <- Hsplit, fold_left_app, <- Hconn. apply connStep_opens. }
    rewrite Hcode in Hmono. destruct Hmono as [Ho Hc].
    split; [| split; [| split; [| split; [| split]]]].
    + destruct (sqlOpen "cubrid" dsn); exact Ho.
    + destruct (sqlOpen "cubrid" dsn); exact Hc.
    + intros Hclosed.
      assert (Hw : existsb isWait (st_main st) = false).
      { destruct (existsb isWait (st_main st)) eqn:Hw; [| reflexivity].
        rewrite (inv_close _ _ _ _ _ _ HI Hw) in Hclosed. discriminate Hclosed. }
      split; [exact Hw | exact (inv_wait _ _ _ _ _ _ HI Hw)].
    + intros Hend. unfold collected in Hend.
      rewrite Hend, app_nil_r in Hsplit. now rewrite Hconn, Hsplit, Hcode.
    + exact (pool_set_before_goroutines since sqlOpen ctx dsn ss m0 db st HI).
    + intros Hunfinished.
      destruct (existsb isWait (st_main st)) eqn:Hw.
      * exact (inv_close _ _ _ _ _ _ HI Hw).
      * rewrite (inv_wait _ _ _ _ _ _ HI Hw) in Hunfinished. discriminate Hunfinished.
Qed.

Lemma one_connection_per_cycle_witness :
  (exists st,
      run demoSince demoSchedule demoStart = Some st
      /\ collected st
      /\ st_conn st = MkConn 1 1 1 1 60000000000)
  /\ (exists st,
         run demoSince (repeat Main 8) (failingStart NewMetrics) = Some st
         /\ collected st
         /\ st_conn st = MkConn 1 0 0 2 0)
  /\ (exists st,
         run demoSince (repeat Main 10 ++ [Unit 0]) demoStart = Some st
         /\ length (st_units st) = 1%nat
         /\ forallb finished (st_units st) = false
         /\ opens (st_conn st) = 1%nat
         /\ maxOpen (st_conn st) = 1%Z
         /\ maxIdle (st_conn st) = 1%Z
         /\ maxLifetime (st_conn st) = 60000000000%Z
         /\ closes (st_conn st) = 0%nat).
Proof.
  split; [| split].
  - assert (Hend : option_map st_main (run demoSince demoSchedule demoStart) = Some [])
      by (vm_compute; reflexivity).
    destruct (run demoSince demoSchedule demoStart) as [st |] eqn:Hrun; [| discriminate Hend].
    injection Hend as Hend. exists st.
    split; [reflexivity | split; [exact Hend |]].
    destruct (one_connection_per_cycle demoSince demoOpen RequestContext "dsn"
                (enabledScrapers ParseFloat ∅) NewMetrics) as [_ Hall].
    destruct (Hall demoSchedule st Hrun) as (_ & _ & _ & Hconn & _).
    exact (Hconn Hend).
  - assert (Hend : option_map st_main (run demoSince (repeat Main 8) (failingStart NewMetrics))
                   = Some [])
      by (vm_compute; reflexivity).
    destruct (run demoSince (repeat Main 8) (failingStart NewMetrics)) as [st |] eqn:Hrun;
      [| discriminate Hend].
    injection Hend as Hend. exists st.
    split; [reflexivity | split; [exact Hend |]].
    destruct (one_connection_per_cycle demoSince failingOpen RequestContext "dsn"
                (enabledScrapers ParseFloat ∅) NewMetrics) as [_ Hall].
    destruct (Hall (repeat Main 8) st Hrun) as (_ & _ & _ & Hconn & _).
    exact (Hconn Hend).
  - assert (Hmid : option_map (fun st => (length (st_units st), forallb finished (st_units st)))
                     (run demoSince (repeat Main 10 ++ [Unit 0]) demoStart)
                   = Some (1%nat, false))
      by (vm_compute; reflexivity).
    destruct (run demoSince (repeat Main 10 ++ [Unit 0]) demoStart) as [st |] eqn:Hrun;
      [| discriminate Hmid].
    injection Hmid as Hlen Hfin. exists st.
    split; [reflexivity | split; [exact Hlen | split; [exact Hfin |]]].
    destruct (one_connection_per_cycle demoSince demoOpen RequestContext "dsn"
                (enabledScrapers ParseFloat ∅) NewMetrics) as [_ Hall].
    destruct (Hall (repeat Main 10 ++ [Unit 0]) st Hrun) as (_ & _ & _ & _ & Hpool & Hopen).
    destruct Hpool as (Ho & Hmo & Hmi & Hml).
    { intros Hnil. rewrite Hnil in Hlen. discriminate Hlen. }
    repeat split; try assumption. exact (Hopen Hfin).
Defined.

(** * Further properties of the package *)

(** ** Loops over rows that fail *)

Lemma forRows_app (body : Row -> Emit unit) (good rest : list Row) :
  (forall r, In r good -> returned (body r) = None) ->
  sent (forRows body (good ++ rest))
  = flat_map (fun r => sent (body r)) good ++ sent (forRows body rest)
  /\ returned (forRows body (good ++ rest)) = returned (forRows body rest).
Proof.
  induction good as [| r good IH]; intros Hok; [now split |].
  destruct IH as [IHs IHr]; [intros; apply Hok; now right |].
  assert (Hr : returned (body r) = None) by (apply Hok; now left).
  cbn [app forRows flat_map]. rewrite sent_bind, returned_bind.
  unfold returned in Hr. destruct (body r) as [out [e | []]]; [discriminate |].
  cbn [snd sent fst]. rewrite IHs, IHr. now rewrite <- app_assoc.
Qed.

Lemma forRows_stop (body : Row -> Emit unit) (bad : Row) (rest : list Row) (e : error) :
  returned (body bad) = Some e ->
  forRows body (bad :: rest) = (sent (body bad), inl e).
Proof.
  intros Hbad. cbn [forRows]. unfold returned in Hbad.
  destruct (body bad) as [out [e' | []]]; [| discriminate].
  cbn in Hbad. injection Hbad as ->. reflexivity.
Qed.

(** What a loop sends keeps a property of what its body sends. *)
Lemma forRows_Forall (P : Metric -> Prop) (body : Row -> Emit unit) (rows : list Row) :
  (forall r, Forall P (sent (body r))) -> Forall P (sent (forRows body rows)).
Proof.
  intros Hbody. induction rows as [| r rows IH]; [constructor |].
  cbn [forRows]. rewrite sent_bind. apply Forall_app. split; [apply Hbody |].
  destruct (snd (body r)); [constructor | exact IH].
Qed.

(** A body that sends [k] samples or fails without sending sends [k]
    samples for each row before the first failure. *)
Lemma forRows_length (k : nat) (body : Row -> Emit unit) (rows : list Row) :
  (forall r, (length (sent (body r)) = k /\ returned (body r) = None)
             \/ (sent (body r) = [] /\ returned (body r) <> None)) ->
  exists n, (n <= length rows)%nat
            /\ length (sent (forRows body rows)) = (n * k)%nat
            /\ (returned (forRows body rows) = None -> n = length rows).
Proof.
  intros Hbody. induction rows as [| r rows (n & Hn & Hlen & Hall)].
  - exists 0%nat. now repeat split.
  - cbn [forRows]. rewrite sent_bind, returned_bind.
    destruct (Hbody r) as [[Hk Hr] | [Hs Hr]].
    + unfold returned in Hr. destruct (body r) as [out [e | []]]; [discriminate |].
      cbn [sent fst snd] in *. exists (S n). rewrite length_app, Hlen. cbn [length].
      repeat split; try lia. intros Hnone. now rewrite (Hall Hnone).
    + unfold returned in Hr. destruct (body r) as [out [e | []]]; [| contradiction].
      cbn [sent fst snd] in *. subst out. exists 0%nat. cbn [length].
      repeat split; try lia. discriminate.
Qed.

(** ** The three scrapers on any database *)

Lemma Scrape_statdump (parseFloat : Parser) (ctx : Context) (db : DB) :
  Scrape (ScrapeStatdump parseFloat) ctx db
  = match db ctx statdumpQuery with
    | inl e => ([], inl e)
    | inr rows => forRows (statdumpRow parseFloat) rows
    end.
Proof.
  cbn [Scrape ScrapeStatdump]. unfold QueryContext.
  destruct (db ctx statdumpQuery); [reflexivity | apply emit_ret_bind].
Qed.

Lemma Scrape_brokerStatus (parseFloat : Parser) (ctx : Context) (db : DB) :
  Scrape (ScrapeBrokerStatus parseFloat) ctx db
  = match db ctx brokerStatusQuery with
    | inl e => ([], inl e)
    | inr rows => forRows (brokerStatusRow parseFloat) rows
    end.
Proof.
  cbn [Scrape ScrapeBrokerStatus]. unfold QueryContext.
  destruct (db ctx brokerStatusQuery); [reflexivity | apply emit_ret_bind].
Qed.

Lemma Scrape_spaceDb (parseFloat : Parser) (ctx : Context) (db : DB) :
  Scrape (ScrapeSpaceDBStatus parseFloat) ctx db
  = match db ctx spacedbQuery with
    | inl e => ([], inl e)
    | inr rows => forRows (spaceDbRow parseFloat) rows
    end.
Proof.
  cbn [Scrape ScrapeSpaceDBStatus]. unfold QueryContext.
  destruct (db ctx spacedbQuery); [reflexivity | apply emit_ret_bind].
Qed.

(** A row of one query is read whole or not at all. *)
Lemma statdumpRow_cases (parseFloat : Parser) (r : Row) :
  (exists key value f,
      r = RowCols [key; value] /\ parseFloat value = (f, None)
      /\ statdumpRow parseFloat r = ([MustNewConstMetric StatdumpInfo f [key]], inr tt))
  \/ (sent (statdumpRow parseFloat r) = [] /\ returned (statdumpRow parseFloat r) <> None).
Proof.
  destruct r as [e | cols]; [right; now split |].
  destruct cols as [| key [| value [| x cols]]]; try (right; now split).
  unfold statdumpRow, Scan2. rewrite emit_ret_bind. unfold parseOrFail.
  destruct (parseFloat value) as [f [e |]] eqn:Hparse; [right; now split |].
  left. exists key, value, f. repeat split. exact Hparse.
Qed.

Lemma brokerStatusRow_cases (parseFloat : Parser) (r : Row) :
  (exists cols, r = RowCols cols /\ length cols = 15%nat
                /\ length (sent (brokerStatusRow parseFloat r)) = 14%nat
                /\ returned (brokerStatusRow parseFloat r) = None
                /\ Forall (fun m => m_desc m = BrokerInfo
                                    /\ exists key, m_labels m = [hd "" cols; key])
                          (sent (brokerStatusRow parseFloat r)))
  \/ (sent (brokerStatusRow parseFloat r) = []
      /\ returned (brokerStatusRow parseFloat r)
         = Some match r with
                | RowErr e => e
                | RowCols cols => ScanError 15 (length cols)
                end).
Proof.
  destruct r as [e | cols]; [right; now split |].
  do 15 (destruct cols as [| ? cols]; [right; now split |]).
  destruct cols as [| ? cols]; [| right; now split].
  left. eexists. split; [reflexivity |]. rewrite brokerStatusRow_sent.
  cbn [sent fst returned snd List.map length hd]. repeat split.
  repeat (constructor; [split; [reflexivity | eexists; reflexivity] |]). constructor.
Qed.

Lemma spaceDbRow_cases (parseFloat : Parser) (r : Row) :
  (exists cols, r = RowCols cols /\ length cols = 6%nat
                /\ length (sent (spaceDbRow parseFloat r)) = 6%nat
                /\ returned (spaceDbRow parseFloat r) = None
                /\ Forall (fun m => m_desc m = VolNoInfo
                                    /\ exists key, m_labels m = [hd "" cols; key])
                          (sent (spaceDbRow parseFloat r)))
  \/ (sent (spaceDbRow parseFloat r) = []
      /\ returned (spaceDbRow parseFloat r)
         = Some match r with
                | RowErr e => e
                | RowCols cols => ScanError 6 (length cols)
                end).
Proof.
  destruct r as [e | cols]; [right; now split |].
  do 6 (destruct cols as [| ? cols]; [right; now split |]).
  destruct cols as [| ? cols]; [| right; now split].
  left. eexists. split; [reflexivity |]. rewrite spaceDbRow_sent.
  cbn [sent fst returned snd length hd]. repeat split.
  repeat (constructor; [split; [reflexivity | eexists; reflexivity] |]). constructor.
Qed.

(** X1: the statdump scrape sends one sample per row, with the key as
    label and the parsed value, in the order of the rows, up to the first
    value that does not parse; it then returns the parser's error for that
    value and does not read the rows after it.  A query that fails sends
    nothing and returns the error of the query. *)
Theorem statdump_sends_rows_until_bad_value
    (parseFloat : Parser) (ctx : Context) (db : DB) (good : list (string * string)) :
  (forall kv, In kv good -> snd (parseFloat (snd kv)) = None) ->
  let samples :=
    List.map (fun kv => MustNewConstMetric StatdumpInfo (fst (parseFloat (snd kv))) [fst kv])
             good in
  (db ctx statdumpQuery = inr (List.map statdumpCols good) ->
   Scrape (ScrapeStatdump parseFloat) ctx db = (samples, inr tt))
  /\ (forall key value e rest,
         snd (parseFloat value) = Some e ->
         db ctx statdumpQuery = inr (List.map statdumpCols good ++ RowCols [key; value] :: rest) ->
         Scrape (ScrapeStatdump parseFloat) ctx db
         = (samples, inl (NumError_ "ParseFloat" value e)))
  /\ (forall e, db ctx statdumpQuery = inl e ->
                Scrape (ScrapeStatdump parseFloat) ctx db = ([], inl e)).
Proof.
  intros Hgood samples.
  assert (Hrow : forall kv, In kv good ->
                   statdumpRow parseFloat (statdumpCols kv)
                   = ([MustNewConstMetric StatdumpInfo (fst (parseFloat (snd kv))) [fst kv]],
                      inr tt)).
  { intros [k v] Hkv. specialize (Hgood _ Hkv). cbn [snd fst] in *.
    unfold statdumpCols, statdumpRow, Scan2. cbn [fst snd]. rewrite emit_ret_bind.
    unfold parseOrFail. destruct (parseFloat v) as [f [e |]]; [discriminate Hgood |].
    reflexivity. }
  assert (Hok : forall r, In r (List.map statdumpCols good) ->
                  returned (statdumpRow parseFloat r) = None).
  { intros r [kv [<- Hkv]]%in_map_iff. now rewrite (Hrow kv Hkv). }
  assert (Hsent : flat_map (fun r => sent (statdumpRow parseFloat r)) (List.map statdumpCols good)
                  = samples).
  { subst samples. clear Hok. induction good as [| kv good IH]; [reflexivity |].
    cbn [List.map flat_map]. rewrite (Hrow kv) by now left. cbn [sent fst app].
    f_equal. apply IH; intros; [apply Hgood | apply Hrow]; now right. }
  split; [| split].
  - intros Hdb. rewrite Scrape_statdump, Hdb.
    destruct (forRows_total (statdumpRow parseFloat) _ Hok) as [Hs Hr].
    rewrite Hsent in Hs. unfold sent, returned in *.
    destruct (forRows (statdumpRow parseFloat) (List.map statdumpCols good)) as [out [e | []]];
      [discriminate Hr |].
    cbn in Hs. now subst out.
  - intros key value e rest He Hdb. rewrite Scrape_statdump, Hdb.
    destruct (forRows_app (statdumpRow parseFloat) _ (RowCols [key; value] :: rest) Hok)
      as [Hs Hr].
    assert (Hbad : statdumpRow parseFloat (RowCols [key; value])
                   = ([], inl (NumError_ "ParseFloat" value e))).
    { unfold statdumpRow, Scan2. rewrite emit_ret_bind. unfold parseOrFail.
      destruct (parseFloat value) as [f [e' |]]; [| discriminate He].
      cbn in He. injection He as ->. reflexivity. }
    rewrite (forRows_stop _ _ rest (NumError_ "ParseFloat" value e)) in Hs, Hr
      by now rewrite Hbad.
    rewrite Hbad, Hsent in Hs. cbn [sent fst] in Hs. rewrite app_nil_r in Hs.
    unfold sent, returned in *.
    destruct (forRows (statdumpRow parseFloat) _) as [out [e' | []]]; [| discriminate Hr].
    cbn in Hs, Hr. injection Hr as ->. now subst out.
  - intros e Hdb. now rewrite Scrape_statdump, Hdb.
Qed.

Lemma statdump_sends_rows_until_bad_value_witness :
  Scrape (ScrapeStatdump ParseFloat) RequestContext
    (answering [RowCols ["a"; "1.5"]; RowCols ["b"; "2"]; RowCols ["c"; "x"];
                RowCols ["d"; "4"]])
  = ([MustNewConstMetric StatdumpInfo 1.5 ["a"]; MustNewConstMetric StatdumpInfo 2 ["b"]],
     inl (NumError_ "ParseFloat" "x" ErrSyntax))
  /\ Scrape (ScrapeStatdump ParseFloat) RequestContext
       (answering [RowCols ["a"; "1.5"]; RowCols ["b"; "2"]])
     = ([MustNewConstMetric StatdumpInfo 1.5 ["a"]; MustNewConstMetric StatdumpInfo 2 ["b"]],
        inr tt).
Proof.
  assert (Hgood : forall kv, In kv [("a", "1.5"); ("b", "2")] -> snd (ParseFloat (snd kv)) = None).
  { intros kv [<- | [<- | []]]; reflexivity. }
  destruct (statdump_sends_rows_until_bad_value ParseFloat RequestContext
              (answering [RowCols ["a"; "1.5"]; RowCols ["b"; "2"]; RowCols ["c"; "x"];
                          RowCols ["d"; "4"]])
              [("a", "1.5"); ("b", "2")] Hgood) as (_ & Hbad & _).
  destruct (statdump_sends_rows_until_bad_value ParseFloat RequestContext
              (answering [RowCols ["a"; "1.5"]; RowCols ["b"; "2"]])
              [("a", "1.5"); ("b", "2")] Hgood) as (Hall & _).
  split.
  - exact (Hbad "c" "x" ErrSyntax [RowCols ["d"; "4"]] eq_refl eq_refl).
  - exact (Hall eq_refl).
Defined.

(** The descriptor and the labels of what the three scrapers send. *)
Lemma scrapers_sent (parseFloat : Parser) (ctx : Context) (db : DB) :
  Forall (fun m => m_desc m = BrokerInfo /\ wellLabelled m)
         (sent (Scrape (ScrapeBrokerStatus parseFloat) ctx db))
  /\ Forall (fun m => m_desc m = StatdumpInfo /\ wellLabelled m)
            (sent (Scrape (ScrapeStatdump parseFloat) ctx db))
  /\ Forall (fun m => m_desc m = VolNoInfo /\ wellLabelled m)
            (sent (Scrape (ScrapeSpaceDBStatus parseFloat) ctx db)).
Proof.
  split; [| split].
  - rewrite Scrape_brokerStatus. destruct (db ctx brokerStatusQuery) as [e | rows]; [constructor |].
    apply forRows_Forall. intros r.
    destruct (brokerStatusRow_cases parseFloat r) as [(cols & _ & _ & _ & _ & Hall) | [-> _]];
      [| constructor].
    eapply Forall_impl; [exact Hall |].
    intros m [Hd [key Hl]]. split; [exact Hd |]. unfold wellLabelled. now rewrite Hd, Hl.
  - rewrite Scrape_statdump. destruct (db ctx statdumpQuery) as [e | rows]; [constructor |].
    apply forRows_Forall. intros r.
    destruct (statdumpRow_cases parseFloat r) as [(key & value & f & _ & _ & ->) | [-> _]];
      [| constructor].
    repeat constructor.
  - rewrite Scrape_spaceDb. destruct (db ctx spacedbQuery) as [e | rows]; [constructor |].
    apply forRows_Forall. intros r.
    destruct (spaceDbRow_cases parseFloat r) as [(cols & _ & _ & _ & _ & Hall) | [-> _]];
      [| constructor].
    eapply Forall_impl; [exact Hall |].
    intros m [Hd [key Hl]]. split; [exact Hd |]. unfold wellLabelled. now rewrite Hd, Hl.
Qed.

(** X2: whatever the database answers and the parser returns, every sample
    a scraper sends has the descriptor of the scraper and one label value
    for each of its variable labels, so [MustNewConstMetric] never panics. *)
Theorem scraper_samples_well_labelled (parseFloat : Parser) (ctx : Context) (db : DB) :
  Forall (fun m => m_desc m = BrokerInfo /\ wellLabelled m)
         (sent (Scrape (ScrapeBrokerStatus parseFloat) ctx db))
  /\ Forall (fun m => m_desc m = StatdumpInfo /\ wellLabelled m)
            (sent (Scrape (ScrapeStatdump parseFloat) ctx db))
  /\ Forall (fun m => m_desc m = VolNoInfo /\ wellLabelled m)
            (sent (Scrape (ScrapeSpaceDBStatus parseFloat) ctx db)).
Proof.
  exact (scrapers_sent parseFloat ctx db).
Qed.

(** X3: a row gives all of its samples or none: whatever the rows are, the
    broker-status scrape sends fourteen samples for each row it has read,
    the spacedb scrape six and the statdump scrape one, and a scrape that
    returns no error has read every row. *)
Theorem scraper_rows_are_atomic (parseFloat : Parser) (ctx : Context) (rows : list Row) :
  (exists n, (n <= length rows)%nat
             /\ length (sent (Scrape (ScrapeBrokerStatus parseFloat) ctx (answering rows)))
                = (n * 14)%nat
             /\ (returned (Scrape (ScrapeBrokerStatus parseFloat) ctx (answering rows)) = None
                 -> n = length rows))
  /\ (exists n, (n <= length rows)%nat
                /\ length (sent (Scrape (ScrapeSpaceDBStatus parseFloat) ctx (answering rows)))
                   = (n * 6)%nat
                /\ (returned (Scrape (ScrapeSpaceDBStatus parseFloat) ctx (answering rows)) = None
                    -> n = length rows))
  /\ (exists n, (n <= length rows)%nat
                /\ length (sent (Scrape (ScrapeStatdump parseFloat) ctx (answering rows)))
                   = (n * 1)%nat
                /\ (returned (Scrape (ScrapeStatdump parseFloat) ctx (answering rows)) = None
                    -> n = length rows)).
Proof.
  rewrite Scrape_brokerStatus, Scrape_spaceDb, Scrape_statdump. unfold answering.
  split; [| split]; apply forRows_length; intros r.
  - destruct (brokerStatusRow_cases parseFloat r) as [(cols & _ & _ & Hl & Hr & _) | [Hs Hr]];
      [left; now split | right; split; [exact Hs | now rewrite Hr]].
  - destruct (spaceDbRow_cases parseFloat r) as [(cols & _ & _ & Hl & Hr & _) | [Hs Hr]];
      [left; now split | right; split; [exact Hs | now rewrite Hr]].
  - destruct (statdumpRow_cases parseFloat r) as [(key & value & f & _ & _ & ->) | H];
      [left; now split | now right].
Qed.

Lemma scraper_rows_are_atomic_witness :
  exists n,
    (n <= 2)%nat
    /\ length (sent (Scrape (ScrapeSpaceDBStatus ParseFloat) RequestContext
                       (answering [RowCols ["0"; "1"; "2"; "3"; "80"; "20"];
                                   RowCols ["1"; "1"; "2"; "3"; "8"]]))) = (n * 6)%nat
    /\ (returned (Scrape (ScrapeSpaceDBStatus ParseFloat) RequestContext
                    (answering [RowCols ["0"; "1"; "2"; "3"; "80"; "20"];
                                RowCols ["1"; "1"; "2"; "3"; "8"]])) = None -> n = 2%nat).
Proof.
  exact (proj1 (proj2 (scraper_rows_are_atomic ParseFloat RequestContext
                         [RowCols ["0"; "1"; "2"; "3"; "80"; "20"];
                          RowCols ["1"; "1"; "2"; "3"; "8"]]))).
Defined.

Lemma forRows_good_then_bad (body : Row -> Emit unit) (good rest : list Row) (bad : Row)
    (e : error) :
  (forall r, In r good -> returned (body r) = None) ->
  sent (body bad) = [] ->
  returned (body bad) = Some e ->
  forRows body (good ++ bad :: rest) = (flat_map (fun r => sent (body r)) good, inl e).
Proof.
  intros Hgood Hs Hr.
  destruct (forRows_app body good (bad :: rest) Hgood) as [Hsent Hret].
  rewrite (forRows_stop body bad rest e Hr) in Hsent, Hret.
  rewrite Hs in Hsent. cbn [sent fst] in Hsent. rewrite app_nil_r in Hsent.
  unfold sent, returned in Hsent, Hret.
  destruct (forRows body (good ++ bad :: rest)) as [out [e' | []]]; [| discriminate Hret].
  cbn in Hsent, Hret. injection Hret as ->. now subst out.
Qed.

Lemma flat_map_length_const {A B} (f : A -> list B) (k : nat) (l : list A) :
  (forall x, In x l -> length (f x) = k) -> length (flat_map f l) = (length l * k)%nat.
Proof.
  induction l as [| x l IH]; intros Hk; [reflexivity |].
  cbn [flat_map length]. rewrite length_app, (Hk x) by now left.
  rewrite IH by (intros; apply Hk; now right). lia.
Qed.

(** X4: the broker-status and the spacedb scrape stop at the first row they
    cannot read, a row that [Next] hands out with an error or with another
    number of columns than [Scan] has destinations: the samples of the rows
    before it have been sent, fourteen or six for each, the error of [Scan]
    is returned, and the rows after it are not read. *)
Theorem scrape_stops_at_unreadable_row
    (parseFloat : Parser) (ctx : Context) (db : DB)
    (good : list Row) (bad : Row) (rest : list Row) :
  let scanError n :=
    match bad with RowErr e => e | RowCols cols => ScanError n (length cols) end in
  (Forall (fun r => exists cols, r = RowCols cols /\ length cols = 15%nat) good ->
   (forall cols, bad = RowCols cols -> length cols <> 15%nat) ->
   db ctx brokerStatusQuery = inr (good ++ bad :: rest) ->
   Scrape (ScrapeBrokerStatus parseFloat) ctx db
   = (flat_map (fun r => sent (brokerStatusRow parseFloat r)) good, inl (scanError 15%nat))
   /\ length (sent (Scrape (ScrapeBrokerStatus parseFloat) ctx db))
      = (length good * 14)%nat)
  /\ (Forall (fun r => exists cols, r = RowCols cols /\ length cols = 6%nat) good ->
      (forall cols, bad = RowCols cols -> length cols <> 6%nat) ->
      db ctx spacedbQuery = inr (good ++ bad :: rest) ->
      Scrape (ScrapeSpaceDBStatus parseFloat) ctx db
      = (flat_map (fun r => sent (spaceDbRow parseFloat r)) good, inl (scanError 6%nat))
      /\ length (sent (Scrape (ScrapeSpaceDBStatus parseFloat) ctx db))
         = (length good * 6)%nat).
Proof.
  intros scanError. split.
  - intros Hgood Hbad Hdb. rewrite List.Forall_forall in Hgood.
    assert (Hrows : forall r, In r good ->
                      length (sent (brokerStatusRow parseFloat r)) = 14%nat
                      /\ returned (brokerStatusRow parseFloat r) = None).
    { intros r Hr. destruct (Hgood r Hr) as (cols & -> & Hlen).
      destruct (brokerStatusRow_cases parseFloat (RowCols cols))
        as [(cols' & _ & _ & Hl & Hret & _) | [_ Hret]]; [now split |].
      now rewrite (brokerStatusRow_returned parseFloat cols Hlen) in Hret. }
    assert (Heq : Scrape (ScrapeBrokerStatus parseFloat) ctx db
                  = (flat_map (fun r => sent (brokerStatusRow parseFloat r)) good,
                     inl (scanError 15%nat))).
    { rewrite Scrape_brokerStatus, Hdb.
      destruct (brokerStatusRow_cases parseFloat bad)
        as [(cols & -> & Hlen & _) | [Hs Hr]]; [now destruct (Hbad cols eq_refl) |].
      apply forRows_good_then_bad; [intros r Hr'; now apply Hrows | exact Hs | exact Hr]. }
    split; [exact Heq |]. rewrite Heq. cbn [sent fst].
    apply flat_map_length_const. intros r Hr. now apply Hrows.
  - intros Hgood Hbad Hdb. rewrite List.Forall_forall in Hgood.
    assert (Hrows : forall r, In r good ->
                      length (sent (spaceDbRow parseFloat r)) = 6%nat
                      /\ returned (spaceDbRow parseFloat r) = None).
    { intros r Hr. destruct (Hgood r Hr) as (cols & -> & Hlen).
      destruct (spaceDbRow_cases parseFloat (RowCols cols))
        as [(cols' & _ & _ & Hl & Hret & _) | [_ Hret]]; [now split |].
      do 6 (destruct cols as [| ? cols]; [discriminate Hlen |]).
      destruct cols; [| discriminate Hlen]. discriminate Hret. }
    assert (Heq : Scrape (ScrapeSpaceDBStatus parseFloat) ctx db
                  = (flat_map (fun r => sent (spaceDbRow parseFloat r)) good,
                     inl (scanError 6%nat))).
    { rewrite Scrape_spaceDb, Hdb.
      destruct (spaceDbRow_cases parseFloat bad)
        as [(cols & -> & Hlen & _) | [Hs Hr]]; [now destruct (Hbad cols eq_refl) |].
      apply forRows_good_then_bad; [intros r Hr'; now apply Hrows | exact Hs | exact Hr]. }
    split; [exact Heq |]. rewrite Heq. cbn [sent fst].
    apply flat_map_length_const. intros r Hr. now apply Hrows.
Qed.

Lemma scrape_stops_at_unreadable_row_witness :
  Scrape (ScrapeSpaceDBStatus ParseFloat) RequestContext
    (answering ([RowCols ["0"; "1"; "2"; "3"; "80"; "20"]]
                ++ RowCols ["1"; "1"; "2"; "3"; "8"]
                :: [RowCols ["2"; "1"; "2"; "3"; "80"; "20"]]))
  = (flat_map (fun r => sent (spaceDbRow ParseFloat r))
       [RowCols ["0"; "1"; "2"; "3"; "80"; "20"]],
     inl (ScanError 6 5))
  /\ length (sent (Scrape (ScrapeSpaceDBStatus ParseFloat) RequestContext
                     (answering ([RowCols ["0"; "1"; "2"; "3"; "80"; "20"]]
                                 ++ RowCols ["1"; "1"; "2"; "3"; "8"]
                                 :: [RowCols ["2"; "1"; "2"; "3"; "80"; "20"]]))))
     = 6%nat.
Proof.
  apply (scrape_stops_at_unreadable_row ParseFloat RequestContext
           (answering ([RowCols ["0"; "1"; "2"; "3"; "80"; "20"]]
                       ++ RowCols ["1"; "1"; "2"; "3"; "8"]
                       :: [RowCols ["2"; "1"; "2"; "3"; "80"; "20"]]))
           [RowCols ["0"; "1"; "2"; "3"; "80"; "20"]]
           (RowCols ["1"; "1"; "2"; "3"; "8"])
           [RowCols ["2"; "1"; "2"; "3"; "80"; "20"]]).
  - repeat constructor. eexists. split; reflexivity.
  - intros cols [= <-]. discriminate.
  - reflexivity.
Defined.

(** ** The handler and the flags of [main] *)

Lemma filterScrapers_cons (scrapers : list Scraper) (p : string) (params : list string) :
  filterScrapers scrapers (p :: params)
  = List.filter (fun s => bool_decide (Name s ∈ p :: params)) scrapers.
Proof.
  unfold filterScrapers. cbn [length Nat.ltb Nat.leb].
  apply filter_ext. intros s.
  destruct (filtersAt (makeFilters (p :: params)) (Name s)) eqn:E; symmetry.
  - apply bool_decide_eq_true, list_elem_of_In. now apply filtersAt_makeFilters.
  - apply bool_decide_eq_false. intros Hin%list_elem_of_In.
    apply filtersAt_makeFilters in Hin. congruence.
Qed.

Lemma newHandler_scrapers (parseFloat : Parser) (timeoutOffset : float) (dsn : string)
    (metrics : Metrics) (scrapers : list Scraper) (r : Request) :
  e_scrapers (snd (newHandler parseFloat timeoutOffset dsn metrics scrapers r))
  = filterScrapers scrapers (collectParams r).
Proof.
  unfold newHandler. now destruct (handlerContext parseFloat timeoutOffset (timeoutHeader r)).
Qed.

(** X5: the [collect[]] parameters act as a set: two requests that name the
    same scrapers, in any order and however often, run the same scrapers in
    the same order. *)
Theorem collect_params_are_a_set
    (parseFloat : Parser) (timeoutOffset : float) (dsn : string) (metrics : Metrics)
    (scrapers : list Scraper) (p q : string) (params params' : list string) (v v' : string) :
  (forall name, In name (p :: params) <-> In name (q :: params')) ->
  e_scrapers (snd (newHandler parseFloat timeoutOffset dsn metrics scrapers
                     (MkRequest (p :: params) v)))
  = e_scrapers (snd (newHandler parseFloat timeoutOffset dsn metrics scrapers
                       (MkRequest (q :: params') v'))).
Proof.
  intros Hsame. rewrite !newHandler_scrapers. cbn [collectParams].
  rewrite !filterScrapers_cons. apply filter_ext. intros s.
  apply bool_decide_ext. rewrite !list_elem_of_In. apply Hsame.
Qed.

Lemma collect_params_are_a_set_witness :
  e_scrapers (snd (newHandler ParseFloat 0.25 "dsn" NewMetrics (enabledScrapers ParseFloat ∅)
                     (MkRequest ["spacedb"; "statdump"; "spacedb"] "")))
  = e_scrapers (snd (newHandler ParseFloat 0.25 "dsn" NewMetrics (enabledScrapers ParseFloat ∅)
                       (MkRequest ["statdump"; "spacedb"] "10"))).
Proof.
  apply (collect_params_are_a_set ParseFloat 0.25 "dsn" NewMetrics
           (enabledScrapers ParseFloat ∅) "spacedb" "statdump"
           ["statdump"; "spacedb"] ["spacedb"] "" "10").
  intros name. cbn. tauto.
Defined.

(** The flags of the three scrapers on a command line. *)
Lemma enabledScrapers_cases (parseFloat : Parser) (cmdline : gmap string bool) :
  enabledScrapers parseFloat cmdline
  = (if default true (cmdline !! "collect.broker_status")
     then [ScrapeBrokerStatus parseFloat] else [])
    ++ (if default true (cmdline !! "collect.statdump")
        then [ScrapeStatdump parseFloat] else [])
    ++ (if default true (cmdline !! "collect.spacedb")
        then [ScrapeSpaceDBStatus parseFloat] else []).
Proof.
  unfold enabledScrapers, scraperFlags, scrapers.
  cbn [List.map fst snd Name ScrapeBrokerStatus ScrapeStatdump ScrapeSpaceDBStatus].
  change ("collect." +:+ brokerStatus) with "collect.broker_status".
  change ("collect." +:+ statdump) with "collect.statdump".
  change ("collect." +:+ spacedbStatus) with "collect.spacedb".
  destruct (default true (cmdline !! "collect.broker_status")),
    (default true (cmdline !! "collect.statdump")),
    (default true (cmdline !! "collect.spacedb")); reflexivity.
Qed.

(** X6: a scraper is registered with the handler exactly when it is in the
    table of [main] and the command line does not switch it off; and a
    request never runs a scraper that the command line has switched off,
    whatever its [collect[]] parameters name. *)
Theorem switched_off_scraper_never_runs
    (parseFloat : Parser) (timeoutOffset : float) (dsn : string) (metrics : Metrics)
    (cmdline : gmap string bool) :
  (forall s,
      In s (enabledScrapers parseFloat cmdline)
      <-> In s (List.map fst (scrapers parseFloat))
          /\ cmdline !! ("collect." +:+ Name s) <> Some false)
  /\ (forall r s,
         In s (e_scrapers (snd (newHandler parseFloat timeoutOffset dsn metrics
                                  (enabledScrapers parseFloat cmdline) r))) ->
         cmdline !! ("collect." +:+ Name s) <> Some false).
Proof.
  assert (Henabled : forall s,
             In s (enabledScrapers parseFloat cmdline)
             <-> In s (List.map fst (scrapers parseFloat))
                 /\ cmdline !! ("collect." +:+ Name s) <> Some false).
  { assert (Hflag : forall key, default true (cmdline !! key) = true
                                 <-> cmdline !! key <> Some false).
    { intros key. destruct (cmdline !! key) as [[|] |]; cbn; split; congruence. }
    intros s. rewrite enabledScrapers_cases. unfold scrapers. cbn [List.map fst In].
    rewrite !in_app_iff. split.
    - intros [H | [H | H]].
      + destruct (default true (cmdline !! "collect.broker_status")) eqn:Hd; [| destruct H].
        destruct H as [<- | []]. split; [tauto | now apply Hflag].
      + destruct (default true (cmdline !! "collect.statdump")) eqn:Hd; [| destruct H].
        destruct H as [<- | []]. split; [tauto | now apply Hflag].
      + destruct (default true (cmdline !! "collect.spacedb")) eqn:Hd; [| destruct H].
        destruct H as [<- | []]. split; [tauto | now apply Hflag].
    - intros [[<- | [<- | [<- | []]]] Hs]; apply Hflag in Hs;
        cbn [Name ScrapeBrokerStatus ScrapeStatdump ScrapeSpaceDBStatus] in Hs.
      + change ("collect." +:+ brokerStatus) with "collect.broker_status" in Hs.
        rewrite Hs. left. now left.
      + change ("collect." +:+ statdump) with "collect.statdump" in Hs.
        rewrite Hs. right. left. now left.
      + change ("collect." +:+ spacedbStatus) with "collect.spacedb" in Hs.
        rewrite Hs. right. right. now left. }
  split; [exact Henabled |].
  intros r s Hs. rewrite newHandler_scrapers in Hs. apply Henabled.
  unfold filterScrapers in Hs.
  destruct (0 <? length (collectParams r))%nat; [| exact Hs].
  now apply filter_In in Hs as [Hs _].
Qed.

Lemma switched_off_scraper_never_runs_witness :
  e_scrapers (snd (newHandler ParseFloat 0.25 "dsn" NewMetrics
                     (enabledScrapers ParseFloat {["collect.statdump" := false]})
                     (MkRequest ["statdump"] ""))) = [].
Proof.
  destruct (e_scrapers (snd (newHandler ParseFloat 0.25 "dsn" NewMetrics
                               (enabledScrapers ParseFloat {["collect.statdump" := false]})
                               (MkRequest ["statdump"] "")))) as [| s l] eqn:Hrun;
    [reflexivity | exfalso].
  assert (Hs : In s (e_scrapers (snd (newHandler ParseFloat 0.25 "dsn" NewMetrics
                                        (enabledScrapers ParseFloat
                                           {["collect.statdump" := false]})
                                        (MkRequest ["statdump"] "")))))
    by (rewrite Hrun; now left).
  pose proof (proj2 (switched_off_scraper_never_runs ParseFloat 0.25 "dsn" NewMetrics
                       {["collect.statdump" := false]}) _ s Hs) as Hflag.
  rewrite newHandler_scrapers in Hs. cbn [collectParams] in Hs.
  rewrite filterScrapers_cons in Hs. apply filter_In in Hs as [_ Hname].
  apply bool_decide_eq_true, list_elem_of_In in Hname. destruct Hname as [Hname | []].
  rewrite <- Hname in Hflag. now apply Hflag.
Defined.

Lemma filter_NoDup_names (f : Scraper -> bool) (ss : list Scraper) :
  NoDup (List.map Name ss) -> NoDup (List.map Name (List.filter f ss)).
Proof.
  induction ss as [| s ss IH]; [intros; constructor |].
  cbn [List.map List.filter]. intros [Hnotin Hnd]%NoDup_cons.
  destruct (f s); [| now apply IH].
  cbn [List.map]. apply NoDup_cons. split; [| now apply IH].
  intros Hin. apply Hnotin. apply list_elem_of_In, in_map_iff in Hin as (s' & Heq & Hs').
  apply filter_In in Hs' as [Hs' _]. apply list_elem_of_In, in_map_iff. now exists s'.
Qed.

Lemma handler_names_NoDup (parseFloat : Parser) (cmdline : gmap string bool)
    (params : list string) :
  NoDup (List.map Name (filterScrapers (enabledScrapers parseFloat cmdline) params)).
Proof.
  assert (Hnd : NoDup (List.map Name (enabledScrapers parseFloat cmdline))).
  { rewrite enabledScrapers_cases.
    destruct (default true (cmdline !! "collect.broker_status")),
      (default true (cmdline !! "collect.statdump")),
      (default true (cmdline !! "collect.spacedb"));
      apply (bool_decide_unpack _); reflexivity. }
  unfold filterScrapers. destruct (0 <? length params)%nat; [| exact Hnd].
  now apply filter_NoDup_names.
Qed.

(** X7: whatever the command line and the request, the scrapers of a cycle
    have different names, so no two of them share a label of the duration
    and error metrics. *)
Theorem cycle_scrapers_have_unique_names
    (parseFloat : Parser) (timeoutOffset : float) (dsn : string) (metrics : Metrics)
    (cmdline : gmap string bool) (r : Request) :
  NoDup (List.map Name
           (e_scrapers (snd (newHandler parseFloat timeoutOffset dsn metrics
                               (enabledScrapers parseFloat cmdline) r)))).
Proof.
  rewrite newHandler_scrapers. apply handler_names_NoDup.
Qed.

(** ** The samples of [Main] *)

Lemma exec_metrics since (t : Tid) (i : Instr) (st st' : State) :
  exec since t i st = Some st' -> isWrite i = false -> st_metrics st' = st_metrics st.
Proof.
  destruct st as [dn mn us wg m c out lg].
  destruct i; cbn [exec isWrite]; intros H Hw; try discriminate Hw;
    try (destruct (0 <? wg)%Z; [| discriminate H]);
    try (destruct (wg =? 0)%Z; [| discriminate H]);
    injection H as <-; reflexivity.
Qed.

Lemma emits_write (m : Metrics) (i : Instr) : isWrite i = true -> emits m i = [].
Proof. now destruct i. Qed.

Lemma emits_noread (m m' : Metrics) (i : Instr) : isRead i = false -> emits m i = emits m' i.
Proof. now destruct i. Qed.

Lemma flat_emits_noread (m m' : Metrics) (l : list Instr) :
  existsb isRead l = false -> flat_map (emits m) l = flat_map (emits m') l.
Proof.
  induction l as [| i l IH]; [reflexivity |]. cbn [existsb flat_map].
  intros H. apply orb_false_elim in H as [Hi Hl].
  now rewrite (emits_noread m m' i Hi), (IH Hl).
Qed.

Lemma filter_isRead_none (l : list Instr) :
  existsb isRead l = false -> List.filter isRead l = [].
Proof.
  induction l as [| i l IH]; [reflexivity |]. cbn [existsb List.filter].
  intros H. apply orb_false_elim in H as [-> Hl]. now apply IH.
Qed.

Lemma reads_only (l : list Instr) :
  forallb isRead l = true -> existsb isWrite l = false /\ existsb isWait l = false.
Proof.
  induction l as [| i l IH]; [now split |]. cbn [forallb existsb].
  intros H. apply andb_prop in H as [Hi Hl]. destruct (IH Hl) as [-> ->].
  destruct i; try discriminate Hi; now split.
Qed.

Lemma readsLast_app (pre rest : list Instr) :
  existsb isRead pre = false -> readsLast rest -> readsLast (pre ++ rest).
Proof.
  induction pre as [| i pre IH]; [intros _ H; exact H |].
  cbn [existsb app readsLast]. intros H Hrest.
  apply orb_false_elim in H as [Hi Hpre].
  split; [rewrite Hi; discriminate | now apply IH].
Qed.

Lemma loopCode_isRead ctx db (ss : list Scraper) : existsb isRead (loopCode ctx db ss) = false.
Proof. induction ss as [| s ss IH]; [reflexivity | exact IH]. Qed.

Lemma collectCode_readsLast since sqlOpen ctx (dsn : string) (ss : list Scraper) :
  readsLast (collectCode since sqlOpen ctx dsn ss).
Proof.
  unfold collectCode. apply readsLast_app.
  - unfold scrapeCode. destruct (sqlOpen "cubrid" dsn) as [err | db]; [reflexivity |].
    cbn [app existsb isRead orb]. rewrite existsb_app, loopCode_isRead. reflexivity.
  - cbn. tauto.
Qed.

Section MainSamples.

Variable since : string -> float.
Variable ctx : Context.
Variable db : DB.
Variable code : list Instr.
Variable m0 : Metrics.

Let I := Inv since ctx db code m0.

Lemma MainOut_step (t : Tid) (st st' : State) :
  I st -> MainOut st -> step since t st = Some st' -> MainOut st'.
Proof.
  intros HI [Hshape Hfrozen Hout [pre Hlast]] Hstep. destruct t as [| k].
  - destruct (step_Main_inv since st st' Hstep) as (i & mn & Hmn & Hexec).
    pose proof (exec_metrics _ _ _ _ _ Hexec) as Hmet.
    apply exec_spec in Hexec.
    cbn [st_done st_main st_units st_wg st_metrics st_conn st_out] in Hexec, Hmet.
    destruct Hexec as (Hd & Hm & _ & _ & _ & _ & _ & _ & _ & _ & _ & Ho).
    rewrite Hmn in Hshape, Hfrozen. cbn [readsLast] in Hshape. destruct Hshape as [Hi Hshape].
    cbn [forallb] in Hfrozen.
    assert (Hsame :
              flat_map (emits (st_metrics st')) (st_done st)
              = flat_map (emits (st_metrics st)) (st_done st)
              /\ emits (st_metrics st') i = emits (st_metrics st) i
              /\ flat_map (emits (st_metrics st')) (List.filter isRead (st_done st))
                 = flat_map (emits (st_metrics st)) (List.filter isRead (st_done st))).
    { destruct (isWrite i) eqn:Hw; [| now rewrite Hmet].
      assert (Hnone : existsb isRead (st_done st) = false).
      { destruct (existsb isRead (st_done st)); [| reflexivity].
        specialize (Hfrozen eq_refl). apply andb_prop in Hfrozen as [Hr _].
        destruct i; discriminate. }
      split; [now apply flat_emits_noread | split].
      - now rewrite !emits_write.
      - now rewrite filter_isRead_none. }
    destruct Hsame as (E1 & E2 & E3).
    constructor.
    + now rewrite Hm.
    + rewrite Hd, Hm, existsb_app. cbn [existsb]. rewrite orb_false_r. intros Hr.
      apply orb_prop in Hr as [Hr | Hr]; [| exact (Hi Hr)].
      specialize (Hfrozen Hr). now apply andb_prop in Hfrozen as [_ Hmn'].
    + rewrite Ho, Hd, sentBy_app, sentBy_same, Hout, flat_map_app.
      cbn [flat_map]. now rewrite app_nil_r, E1, E2.
    + rewrite Ho, Hd, Hlast, List.filter_app. cbn [List.filter].
      destruct (isRead i) eqn:Hr.
      * exists pre. rewrite flat_map_app, List.map_app, <- app_assoc. cbn [flat_map].
        now rewrite app_nil_r, E2, E3.
      * assert (Hnone : existsb isRead (st_done st) = false).
        { destruct (existsb isRead (st_done st)); [| reflexivity].
          specialize (Hfrozen eq_refl). apply andb_prop in Hfrozen as [Hr' _]. congruence. }
        rewrite (filter_isRead_none _ Hnone). cbn [flat_map List.map app].
        eexists. now rewrite !app_nil_r.
  - destruct (step_Unit_inv since k st st' Hstep) as (g & i & gc & Hk & Hg & Hexec).
    apply exec_spec in Hexec.
    cbn [st_done st_main st_units st_wg st_metrics st_conn st_out] in Hexec.
    destruct Hexec as (Hd & Hm & _ & _ & _ & _ & _ & _ & _ & _ & _ & Ho).
    assert (Hnone : existsb isRead (st_done st) = false).
    { destruct (existsb isRead (st_done st)); [| reflexivity]. exfalso.
      destruct (reads_only _ (Hfrozen eq_refl)) as [_ Hw].
      pose proof (inv_wait _ _ _ _ _ _ HI Hw) as Hfin.
      destruct (units_split _ _ _ Hk) as (us1 & us2 & Hus & _).
      rewrite Hus, forallb_app in Hfin. cbn [forallb] in Hfin.
      unfold finished at 2 in Hfin. rewrite Hg, andb_false_r in Hfin. discriminate Hfin. }
    constructor.
    + now rewrite Hm.
    + rewrite Hd, Hnone. discriminate.
    + rewrite Ho, Hd, sentBy_app, sentBy_other by discriminate.
      rewrite app_nil_r, Hout. now apply flat_emits_noread.
    + rewrite Hd, (filter_isRead_none _ Hnone). cbn [flat_map List.map].
      eexists. now rewrite app_nil_r.
Qed.

Lemma MainOut_run (sched : list Tid) (st st' : State) :
  I st -> MainOut st -> run since sched st = Some st' -> MainOut st'.
Proof.
  revert st. induction sched as [| t sched IH]; intros st HI HM; cbn [run].
  - now intros [= <-].
  - destruct (step since t st) as [st1 |] eqn:Hstep; [| discriminate].
    apply IH; [exact (Inv_step since ctx db code m0 t st st1 HI Hstep) |].
    exact (MainOut_step t st st1 HI HM Hstep).
Qed.

End MainSamples.

Lemma MainOut_start since sqlOpen ctx (dsn : string) (ss : list Scraper) (m : Metrics) :
  MainOut (start since sqlOpen ctx dsn ss m).
Proof.
  constructor; cbn [start st_done st_main st_out st_metrics].
  - apply collectCode_readsLast.
  - discriminate.
  - reflexivity.
  - now exists [].
Qed.

Lemma loopCode_emits ctx db (m : Metrics) (ss : list Scraper) :
  flat_map (emits m) (loopCode ctx db ss) = [].
Proof. induction ss as [| s ss IH]; [reflexivity | exact IH]. Qed.

(** What [Main] has sent when [Collect] returns, in a cycle whose
    [sql.Open] succeeds. *)
Lemma main_output since sqlOpen (ctx : Context) (dsn : string) (ss : list Scraper)
    (m0 : Metrics) (db : DB) (sched : list Tid) (st : State) :
  sqlOpen "cubrid" dsn = inr db ->
  run since sched (start since sqlOpen ctx dsn ss m0) = Some st ->
  collected st ->
  sentBy Main (st_out st)
  = durationSample since "connection"
      :: sampleTotalScrapes (st_metrics st) :: sampleError (st_metrics st)
      :: samplesScrapeErrors (st_metrics st) ++ [sampleCubridUp (st_metrics st)]
  /\ exists pre,
      st_out st
      = pre ++ List.map (pair Main)
                 (sampleTotalScrapes (st_metrics st) :: sampleError (st_metrics st)
                    :: samplesScrapeErrors (st_metrics st) ++ [sampleCubridUp (st_metrics st)]).
Proof.
  intros Hopen Hrun Hend. unfold collected in Hend.
  assert (Hstart : Inv since ctx db (collectCode since sqlOpen ctx dsn ss) m0
                     (start since sqlOpen ctx dsn ss m0))
    by (apply Inv_start; intros db' Hdb'; congruence).
  pose proof (Inv_run since ctx db _ m0 sched _ st Hstart Hrun) as HI.
  pose proof (MainOut_run since ctx db _ m0 sched _ st Hstart
                (MainOut_start since sqlOpen ctx dsn ss m0) Hrun) as [_ _ Hout [pre Hlast]].
  pose proof (inv_code _ _ _ _ _ _ HI) as Hcode. rewrite Hend, app_nil_r in Hcode.
  rewrite Hcode, (collectCode_open since sqlOpen ctx dsn ss db Hopen) in Hout, Hlast.
  split.
  - rewrite Hout. cbn [app flat_map emits].
    rewrite flat_map_app, loopCode_emits. reflexivity.
  - exists pre. rewrite Hlast. cbn [app List.filter isRead].
    rewrite List.filter_app, (filter_isRead_none _ (loopCode_isRead ctx db ss)).
    reflexivity.
Qed.

(** X8: in a cycle whose [sql.Open] succeeds, however the goroutines are
    scheduled, [Collect] itself sends the duration of the connection phase
    and then its four metrics with the values they have at the end of the
    cycle: the total of scrapes one higher than before, the
    last-scrape-error gauge at 1 when a scraper of this cycle failed and at
    0 otherwise (whatever the cycle before left), the error counters, and
    the up gauge at 1.  The four are the last samples of the channel, after
    every sample of a scraper. *)
Theorem collect_reports_the_finished_cycle since sqlOpen (ctx : Context) (dsn : string)
    (ss : list Scraper) (m0 : Metrics) (db : DB) (sched : list Tid) (st : State) :
  sqlOpen "cubrid" dsn = inr db ->
  run since sched (start since sqlOpen ctx dsn ss m0) = Some st ->
  collected st ->
  let own :=
    MkMetric TotalScrapesDesc (CounterValue (TotalScrapes m0 + 1)) []
      :: MkMetric ErrorDesc
           (GaugeValue (if existsb (fails ctx db) ss then 1 else 0)%float) []
      :: samplesScrapeErrors (st_metrics st)
      ++ [MkMetric CubridUpDesc (GaugeValue 1) []] in
  sentBy Main (st_out st) = durationSample since "connection" :: own
  /\ exists pre, st_out st = pre ++ List.map (pair Main) own.
Proof.
  intros Hopen Hrun Hend own.
  destruct (end_state since sqlOpen ctx dsn ss m0 db Hopen sched st Hrun Hend)
    as (_ & Herror & Htotal & Hup & _).
  destruct (main_output since sqlOpen ctx dsn ss m0 db sched st Hopen Hrun Hend)
    as [Hmain Hlast].
  unfold sampleTotalScrapes, sampleError, sampleCubridUp in Hmain, Hlast.
  rewrite Herror, Htotal, Hup in Hmain, Hlast.
  split; [exact Hmain | exact Hlast].
Qed.

Lemma collect_reports_the_finished_cycle_witness :
  exists st,
    run demoSince demoSchedule demoStart = Some st
    /\ collected st
    /\ sentBy Main (st_out st)
       = MustNewConstMetric scrapeDurationDesc 0.5 ["connection"]
           :: MkMetric TotalScrapesDesc (CounterValue 1) []
           :: MkMetric ErrorDesc (GaugeValue 1) []
           :: samplesScrapeErrors (st_metrics st)
           ++ [MkMetric CubridUpDesc (GaugeValue 1) []]
    /\ exists pre,
        st_out st
        = pre ++ List.map (pair Main)
                   (MkMetric TotalScrapesDesc (CounterValue 1) []
                      :: MkMetric ErrorDesc (GaugeValue 1) []
                      :: samplesScrapeErrors (st_metrics st)
                      ++ [MkMetric CubridUpDesc (GaugeValue 1) []]).
Proof.
  assert (Hend : option_map st_main (run demoSince demoSchedule demoStart) = Some [])
    by (vm_compute; reflexivity).
  destruct (run demoSince demoSchedule demoStart) as [st |] eqn:Hrun; [| discriminate Hend].
  injection Hend as Hend. exists st.
  split; [reflexivity | split; [exact Hend |]].
  exact (collect_reports_the_finished_cycle demoSince demoOpen RequestContext "dsn"
           (enabledScrapers ParseFloat ∅) NewMetrics demoDB demoSchedule st
           eq_refl Hrun Hend).
Defined.

(** ** The children of the vector of error counters *)

Lemma exec_children since (t : Tid) (i : Instr) (st st' : State) :
  exec since t i st = Some st' ->
  childrenCounted (st_metrics st) -> childrenCounted (st_metrics st').
Proof.
  intros Hexec Hc. destruct (isWrite i) eqn:Hw.
  - destruct st as [dn mn us wg m c out lg].
    destruct i; try discriminate Hw; cbn [exec] in Hexec; injection Hexec as <-;
      cbn [st_metrics] in *; try exact Hc.
    intros l n. unfold incScrapeErrors. cbn [ScrapeErrors]. rewrite lookup_insert.
    destruct (decide (label = l)) as [_ | _]; [intros [= <-]; lia | apply Hc].
  - now rewrite (exec_metrics since t i st st' Hexec Hw).
Qed.

Lemma children_run since (sched : list Tid) (st st' : State) :
  run since sched st = Some st' ->
  childrenCounted (st_metrics st) -> childrenCounted (st_metrics st').
Proof.
  revert st. induction sched as [| t sched IH]; intros st; cbn [run].
  - now intros [= <-].
  - destruct (step since t st) as [st1 |] eqn:Hstep; [| discriminate].
    intros Hrun Hc. apply (IH st1 Hrun).
    destruct t as [| k].
    + destruct (step_Main_inv since st st1 Hstep) as (i & mn & _ & Hexec).
      exact (exec_children since _ _ _ _ Hexec Hc).
    + destruct (step_Unit_inv since k st st1 Hstep) as (g & i & gc & _ & _ & Hexec).
      exact (exec_children since _ _ _ _ Hexec Hc).
Qed.

Lemma samplesScrapeErrors_In (m : Metrics) (label : string) (n : N) :
  In (MkMetric ScrapeErrorsDesc (CounterValue n) [label]) (samplesScrapeErrors m)
  <-> ScrapeErrors m !! label = Some n.
Proof.
  unfold samplesScrapeErrors. rewrite in_map_iff. split.
  - intros ([l v] & Heq & Hin). cbn [fst snd] in Heq. injection Heq as -> ->.
    now apply list_elem_of_In, elem_of_map_to_list in Hin.
  - intros Hl. exists (label, n). split; [reflexivity |].
    now apply list_elem_of_In, elem_of_map_to_list.
Qed.

Lemma children_lookup (m : Metrics) (label : string) (n : N) :
  childrenCounted m ->
  ScrapeErrors m !! label = Some n <-> (0 < n)%N /\ n = scrapeErrors m label.
Proof.
  intros Hc. unfold scrapeErrors. split.
  - intros Hl. split; [exact (Hc _ _ Hl) | now rewrite Hl].
  - intros [Hpos ->]. destruct (ScrapeErrors m !! label) as [v |]; [reflexivity |].
    cbn in Hpos. lia.
Qed.

(** ** The metrics after a cycle, whether [sql.Open] succeeds or not *)

Lemma cycle_metrics since sqlOpen (ctx : Context) (dsn : string) (ss : list Scraper)
    (m0 : Metrics) (sched : list Tid) (st : State) :
  run since sched (start since sqlOpen ctx dsn ss m0) = Some st ->
  collected st ->
  TotalScrapes (st_metrics st) = (TotalScrapes m0 + 1)%N
  /\ CubridUp (st_metrics st)
     = match sqlOpen "cubrid" dsn with inr _ => 1%float | inl _ => CubridUp m0 end
  /\ Error (st_metrics st)
     = match sqlOpen "cubrid" dsn with
       | inr db => (if existsb (fails ctx db) ss then 1 else 0)%float
       | inl _ => 1%float
       end
  /\ (forall label,
         scrapeErrors (st_metrics st) label
         = (scrapeErrors m0 label
            + match sqlOpen "cubrid" dsn with
              | inr db => failures ctx db label ss
              | inl _ => 0
              end)%N)
  /\ sentBy Main (st_out st)
     = match sqlOpen "cubrid" dsn with
       | inr _ => [durationSample since "connection"]
       | inl _ => []
       end
       ++ sampleTotalScrapes (st_metrics st) :: sampleError (st_metrics st)
       :: samplesScrapeErrors (st_metrics st) ++ [sampleCubridUp (st_metrics st)].
Proof.
  intros Hrun Hend.
  destruct (sqlOpen "cubrid" dsn) as [err | db] eqn:Hopen.
  - pose proof (fail_end since sqlOpen ctx dsn ss m0 err Hopen sched st Hrun Hend) as Hst.
    rewrite (fail_run since sqlOpen ctx dsn ss m0 err Hopen) in Hst. injection Hst as <-.
    cbn [st_metrics st_out].
    change ((Main, ?a) :: (Main, ?b) :: List.map (pair Main) ?l)
      with (List.map (pair Main) (a :: b :: l)).
    rewrite sentBy_same.
    repeat split. intros label. unfold scrapeErrors. cbn. lia.
  - destruct (end_state since sqlOpen ctx dsn ss m0 db Hopen sched st Hrun Hend)
      as (Herrors & Herror & Htotal & Hup & _).
    destruct (main_output since sqlOpen ctx dsn ss m0 db sched st Hopen Hrun Hend)
      as [Hmain _].
    repeat split; assumption.
Qed.

(** X9: the vector of error counters has a child only for a collector that
    has failed.  If this holds of the metrics when [Collect] is called (as it
    does of the fresh ones), it holds when [Collect] returns, and [Collect]
    has sent a sample of the vector for a label exactly when the counter of
    the label, after the failures of this cycle, is not zero: a collector
    that never failed is not reported with the value 0, it is not reported. *)
Theorem error_counter_is_sent_once_a_scrape_failed since sqlOpen (ctx : Context)
    (dsn : string) (ss : list Scraper) (m0 : Metrics) (sched : list Tid) (st : State) :
  childrenCounted m0 ->
  run since sched (start since sqlOpen ctx dsn ss m0) = Some st ->
  collected st ->
  childrenCounted NewMetrics
  /\ childrenCounted (st_metrics st)
  /\ forall label n,
      In (MkMetric ScrapeErrorsDesc (CounterValue n) [label]) (sentBy Main (st_out st))
      <-> (0 < n)%N
          /\ n = (scrapeErrors m0 label
                  + match sqlOpen "cubrid" dsn with
                    | inr db => failures ctx db label ss
                    | inl _ => 0
                    end)%N.
Proof.
  intros Hc Hrun Hend.
  pose proof (children_run since sched _ st Hrun Hc) as Hc'.
  destruct (cycle_metrics since sqlOpen ctx dsn ss m0 sched st Hrun Hend)
    as (_ & _ & _ & Herrors & Hmain).
  split; [intros label n; cbn; rewrite lookup_empty; discriminate |].
  split; [exact Hc' |].
  intros label n. rewrite <- Herrors, <- (children_lookup _ _ _ Hc'), <- samplesScrapeErrors_In.
  rewrite Hmain. rewrite in_app_iff. cbn [In]. rewrite in_app_iff. cbn [In].
  unfold sampleTotalScrapes, sampleError, sampleCubridUp, durationSample, MustNewConstMetric.
  split.
  - intros [H | [H | [H | [H | [H | []]]]]]; try discriminate H; [| exact H].
    destruct (sqlOpen "cubrid" dsn); [destruct H | destruct H as [H | []]; discriminate H].
  - intros H. right. right. right. now left.
Qed.

Lemma error_counter_is_sent_once_a_scrape_failed_witness :
  exists st,
    run demoSince demoSchedule demoStart = Some st
    /\ collected st
    /\ In (MkMetric ScrapeErrorsDesc (CounterValue 1) ["collect.broker_status"])
          (sentBy Main (st_out st))
    /\ forall n, ~ In (MkMetric ScrapeErrorsDesc (CounterValue n) ["collect.statdump"])
                      (sentBy Main (st_out st)).
Proof.
  assert (Hend : option_map st_main (run demoSince demoSchedule demoStart) = Some [])
    by (vm_compute; reflexivity).
  destruct (run demoSince demoSchedule demoStart) as [st |] eqn:Hrun; [| discriminate Hend].
  injection Hend as Hend. exists st.
  split; [reflexivity | split; [exact Hend |]].
  assert (Hfresh : childrenCounted NewMetrics)
    by (intros label n; cbn; rewrite lookup_empty; discriminate).
  destruct (error_counter_is_sent_once_a_scrape_failed demoSince demoOpen RequestContext "dsn"
              (enabledScrapers ParseFloat ∅) NewMetrics demoSchedule st Hfresh Hrun Hend)
    as (_ & _ & Hsent).
  split.
  - apply Hsent. split; [lia | reflexivity].
  - intros n Hin. apply Hsent in Hin as [Hpos Hn].
    vm_compute in Hn. subst n. lia.
Defined.

(** ** The wait group *)

Lemma owed_bound (code : list Instr) :
  Forall addsOne code -> (owed code <= Z.of_nat (length (started code)))%Z.
Proof.
  induction code as [| i code IH]; [cbn; lia |].
  intros H. apply Forall_cons in H as [Hi Hcode]. specialize (IH Hcode).
  destruct i; cbn [owed started length addsOne] in *; lia.
Qed.

Lemma loopCode_addsOne ctx db (ss : list Scraper) : Forall addsOne (loopCode ctx db ss).
Proof.
  induction ss as [| s ss IH]; [constructor |].
  unfold loopCode in *. cbn [flat_map app].
  constructor; [reflexivity |]. constructor; [exact Logic.I | exact IH].
Qed.

Lemma collectCode_addsOne since sqlOpen ctx (dsn : string) (ss : list Scraper) :
  Forall addsOne (collectCode since sqlOpen ctx dsn ss).
Proof.
  unfold collectCode, scrapeCode.
  destruct (sqlOpen "cubrid" dsn) as [err | db]; [repeat constructor |].
  rewrite !Forall_app. repeat split; try (repeat constructor).
  apply loopCode_addsOne.
Qed.

Lemma collectCode_started since sqlOpen ctx (dsn : string) (ss : list Scraper) :
  started (collectCode since sqlOpen ctx dsn ss)
  = match sqlOpen "cubrid" dsn with inr _ => ss | inl _ => [] end.
Proof.
  unfold collectCode, scrapeCode.
  destruct (sqlOpen "cubrid" dsn) as [err | db]; [reflexivity |].
  rewrite !started_app, loopCode_started. cbn. now rewrite !app_nil_r.
Qed.

Lemma active_le (us : list Goroutine) : (active us <= Z.of_nat (length us))%Z.
Proof.
  induction us as [| g us IH]; [unfold active; cbn; lia |].
  rewrite active_cons. cbn [length]. destruct (finished g); lia.
Qed.

Lemma finished_active (us : list Goroutine) : forallb finished us = true -> active us = 0%Z.
Proof.
  induction us as [| g us IH]; [reflexivity |].
  cbn [forallb]. intros H. apply andb_prop in H as [Hg Hus].
  rewrite active_cons, Hg, (IH Hus). reflexivity.
Qed.

(** The invariant of a cycle, with the handle [sql.Open] returns. *)
Lemma cycle_Inv since sqlOpen (ctx : Context) (dsn : string) (ss : list Scraper)
    (m0 : Metrics) (sched : list Tid) (st : State) :
  run since sched (start since sqlOpen ctx dsn ss m0) = Some st ->
  Inv since ctx (match sqlOpen "cubrid" dsn with inr d => d | inl _ => answering [] end)
      (collectCode since sqlOpen ctx dsn ss) m0 (start since sqlOpen ctx dsn ss m0)
  /\ Inv since ctx (match sqlOpen "cubrid" dsn with inr d => d | inl _ => answering [] end)
         (collectCode since sqlOpen ctx dsn ss) m0 st.
Proof.
  intros Hrun.
  assert (Hstart : Inv since ctx
                     (match sqlOpen "cubrid" dsn with inr d => d | inl _ => answering [] end)
                     (collectCode since sqlOpen ctx dsn ss) m0
                     (start since sqlOpen ctx dsn ss m0)).
  { apply Inv_start. intros db' Hdb'. now rewrite Hdb'. }
  split; [exact Hstart |].
  exact (Inv_run since ctx _ _ m0 sched _ st Hstart Hrun).
Qed.

(** X10: the counter of the wait group, in every state of every cycle,
    however the goroutines are scheduled: it is never negative (so no
    [wg.Done()] panics) and never above the number of scrapers, it counts
    every goroutine that has not finished, and it is 0 once [wg.Wait()] has
    returned.  No state is a deadlock: from each, [Collect] can run to its
    return; and no schedule is longer than the instructions of the cycle. *)
Theorem wait_group_never_blocks_or_panics since sqlOpen (ctx : Context) (dsn : string)
    (ss : list Scraper) (m0 : Metrics) (sched : list Tid) (st : State) :
  run since sched (start since sqlOpen ctx dsn ss m0) = Some st ->
  (0 <= st_wg st <= Z.of_nat (length ss))%Z
  /\ (active (st_units st) <= st_wg st)%Z
  /\ (length (st_units st) <= length ss)%nat
  /\ (existsb isWait (st_main st) = false -> st_wg st = 0%Z)
  /\ (exists sched' st', run since sched' st = Some st' /\ collected st')
  /\ (length sched <= weight since (start since sqlOpen ctx dsn ss m0))%nat.
Proof.
  intros Hrun.
  destruct (cycle_Inv since sqlOpen ctx dsn ss m0 sched st Hrun) as [Hstart HI].
  set (db := match sqlOpen "cubrid" dsn with inr d => d | inl _ => answering [] end) in *.
  pose proof (inv_wg _ _ _ _ _ _ HI) as Hwg.
  pose proof (inv_code _ _ _ _ _ _ HI) as Hcode.
  pose proof (mainOk_owed ctx db _ (inv_main _ _ _ _ _ _ HI)) as Howed.
  pose proof (active_nonneg (st_units st)) as Hact.
  pose proof (active_le (st_units st)) as Hle.
  pose proof (f_equal (@length _) (inv_started _ _ _ _ _ _ HI)) as Hunits.
  rewrite length_map in Hunits.
  assert (Hadds : Forall addsOne (st_main st)).
  { pose proof (collectCode_addsOne since sqlOpen ctx dsn ss) as H.
    rewrite <- Hcode in H. now apply Forall_app in H as [_ H]. }
  pose proof (owed_bound _ Hadds) as Hbound.
  assert (Hlen : (length (started (st_done st)) + length (started (st_main st))
                  <= length ss)%nat).
  { rewrite <- length_app, <- started_app, Hcode, collectCode_started.
    destruct (sqlOpen "cubrid" dsn); cbn [length]; lia. }
  repeat split; try lia.
  - intros Hw.
    rewrite (started_after_wait ctx db _ (inv_main _ _ _ _ _ _ HI) Hw) in Hbound.
    rewrite (finished_active _ (inv_wait _ _ _ _ _ _ HI Hw)) in Hwg.
    cbn [length] in Hbound. lia.
  - exact (completes since ctx db _ m0 st HI).
  - pose proof (run_weight since ctx db _ m0 sched _ st Hstart Hrun). lia.
Qed.

Lemma wait_group_never_blocks_or_panics_witness :
  exists st,
    run demoSince (repeat Main 10 ++ [Unit 0; Unit 0] ++ repeat Main 2) demoStart = Some st
    /\ st_wg st = 2%Z
    /\ (0 <= st_wg st <= 3)%Z
    /\ (active (st_units st) <= st_wg st)%Z
    /\ (length (st_units st) <= 3)%nat
    /\ (existsb isWait (st_main st) = false -> st_wg st = 0%Z)
    /\ (exists sched' st', run demoSince sched' st = Some st' /\ collected st')
    /\ (14 <= weight demoSince demoStart)%nat.
Proof.
  assert (Hwg : option_map st_wg
                  (run demoSince (repeat Main 10 ++ [Unit 0; Unit 0] ++ repeat Main 2)
                     demoStart) = Some 2%Z)
    by (vm_compute; reflexivity).
  destruct (run demoSince (repeat Main 10 ++ [Unit 0; Unit 0] ++ repeat Main 2) demoStart)
    as [st |] eqn:Hrun; [| discriminate Hwg].
  injection Hwg as Hwg. exists st.
  split; [reflexivity | split; [exact Hwg |]].
  exact (wait_group_never_blocks_or_panics demoSince demoOpen RequestContext "dsn"
           (enabledScrapers ParseFloat ∅) NewMetrics
           (repeat Main 10 ++ [Unit 0; Unit 0] ++ repeat Main 2) st Hrun).
Defined.

(** ** Requests served one after the other *)

Section ServingProperties.

Variable parseFloat : Parser.
Variable timeoutOffset : float.
Variable dsn : string.
Variable enabled : list Scraper.

Lemma requestStart_eq (sv : Served) (m : Metrics) :
  requestStart parseFloat timeoutOffset dsn enabled sv m
  = start (sv_since sv) (sv_open sv)
      (snd (handlerContext parseFloat timeoutOffset (timeoutHeader (sv_request sv))))
      dsn (filterScrapers enabled (collectParams (sv_request sv))) m.
Proof.
  unfold requestStart, requestExporter, newHandler.
  now destruct (handlerContext parseFloat timeoutOffset (timeoutHeader (sv_request sv))).
Qed.

(** What one request does to the metrics. *)
Lemma request_metrics (sv : Served) (m : Metrics) (st : State) :
  run (sv_since sv) (sv_sched sv) (requestStart parseFloat timeoutOffset dsn enabled sv m)
  = Some st ->
  collected st ->
  TotalScrapes (st_metrics st) = (TotalScrapes m + 1)%N
  /\ CubridUp (st_metrics st) = (if opened dsn sv then 1%float else CubridUp m)
  /\ Error (st_metrics st)
     = (if opened dsn sv
        then if scrapeFails parseFloat timeoutOffset dsn enabled sv then 1 else 0
        else 1)%float
  /\ (forall label, (scrapeErrors m label <= scrapeErrors (st_metrics st) label)%N)
  /\ (childrenCounted m -> childrenCounted (st_metrics st)).
Proof.
  rewrite requestStart_eq. intros Hrun Hend.
  destruct (cycle_metrics _ _ _ _ _ _ _ _ Hrun Hend) as (Htotal & Hup & Herror & Herrors & _).
  unfold opened, scrapeFails.
  destruct (sv_open sv "cubrid" dsn) as [err | db].
  - repeat split; try assumption.
    + intros label. rewrite Herrors. lia.
    + exact (children_run _ _ _ _ Hrun).
  - repeat split; try assumption.
    + intros label. rewrite Herrors. lia.
    + exact (children_run _ _ _ _ Hrun).
Qed.

Lemma serve_cons (sv : Served) (rs : list Served) (m m' : Metrics) :
  serve parseFloat timeoutOffset dsn enabled (sv :: rs) m = Some m' ->
  exists st,
    run (sv_since sv) (sv_sched sv) (requestStart parseFloat timeoutOffset dsn enabled sv m)
    = Some st
    /\ collected st
    /\ serve parseFloat timeoutOffset dsn enabled rs (st_metrics st) = Some m'.
Proof.
  cbn [serve].
  destruct (run (sv_since sv) (sv_sched sv) _) as [st |]; [| discriminate].
  destruct (st_main st) as [| i mn] eqn:Hmain; [| discriminate].
  intros Hrest. now exists st.
Qed.

Lemma serve_app (rs rs' : list Served) (m : Metrics) :
  serve parseFloat timeoutOffset dsn enabled (rs ++ rs') m
  = match serve parseFloat timeoutOffset dsn enabled rs m with
    | Some m1 => serve parseFloat timeoutOffset dsn enabled rs' m1
    | None => None
    end.
Proof.
  revert m. induction rs as [| sv rs IH]; intros m; [reflexivity |].
  cbn [app serve].
  destruct (run (sv_since sv) (sv_sched sv) _) as [st |]; [| reflexivity].
  destruct (st_main st); [apply IH | reflexivity].
Qed.

(** Every sequence of requests can be served: each cycle has a schedule
    that runs it to the return of [Collect]. *)
Lemma serve_possible
    (envs : list (Request * (string -> string -> error + DB) * (string -> float)))
    (m : Metrics) :
  exists rs m',
    List.map (fun sv => (sv_request sv, sv_open sv, sv_since sv)) rs = envs
    /\ serve parseFloat timeoutOffset dsn enabled rs m = Some m'.
Proof.
  revert m. induction envs as [| [[r op] since] envs IH]; intros m.
  - now exists [], m.
  - set (sv0 := MkServed r op since []).
    destruct (cycle_Inv since op
                (snd (handlerContext parseFloat timeoutOffset (timeoutHeader r)))
                dsn (filterScrapers enabled (collectParams r)) m [] _ eq_refl)
      as [Hstart _].
    destruct (completes _ _ _ _ _ _ Hstart) as (sched & st & Hrun & Hend).
    destruct (IH (st_metrics st)) as (rs & m' & Hmap & Hserve).
    exists (MkServed r op since sched :: rs), m'. split.
    + cbn [List.map sv_request sv_open sv_since]. now rewrite Hmap.
    + cbn [serve]. rewrite requestStart_eq. cbn [sv_since sv_open sv_sched sv_request].
      rewrite Hrun. unfold collected in Hend. now rewrite Hend.
Qed.

End ServingProperties.

(** X11: the metrics are shared by the requests.  Over requests served one
    after the other, however each cycle is scheduled: the total of scrapes
    counts the requests, whether [sql.Open] succeeded or not; the up gauge
    is 1 as soon as one [sql.Open] has succeeded and is never taken back, so
    that it stays 1 when later requests cannot open the database; no error
    counter ever decreases; and the vector of error counters keeps having
    children only for collectors that failed.  Every sequence of requests
    can be served. *)
Theorem metrics_accumulate_over_requests (parseFloat : Parser) (timeoutOffset : float)
    (dsn : string) (enabled : list Scraper) :
  (forall envs m, exists rs m',
      List.map (fun sv => (sv_request sv, sv_open sv, sv_since sv)) rs = envs
      /\ serve parseFloat timeoutOffset dsn enabled rs m = Some m')
  /\ forall rs m m',
      serve parseFloat timeoutOffset dsn enabled rs m = Some m' ->
      TotalScrapes m' = (TotalScrapes m + N.of_nat (length rs))%N
      /\ CubridUp m' = (if existsb (opened dsn) rs then 1%float else CubridUp m)
      /\ (forall label, (scrapeErrors m label <= scrapeErrors m' label)%N)
      /\ (childrenCounted m -> childrenCounted m').
Proof.
  split; [apply serve_possible |].
  induction rs as [| sv rs IH]; intros m m' Hserve.
  - cbn in Hserve. injection Hserve as <-. cbn [length existsb].
    repeat split; [lia | intros; lia | tauto].
  - apply serve_cons in Hserve as (st & Hrun & Hend & Hrest).
    destruct (request_metrics _ _ _ _ sv m st Hrun Hend)
      as (Htotal & Hup & _ & Hmono & Hchildren).
    destruct (IH _ _ Hrest) as (Htotal' & Hup' & Hmono' & Hchildren').
    cbn [length existsb]. repeat split.
    + rewrite Htotal', Htotal. lia.
    + rewrite Hup', Hup. destruct (existsb (opened dsn) rs); [now rewrite orb_true_r |].
      now rewrite orb_false_r.
    + intros label. specialize (Hmono label). specialize (Hmono' label). lia.
    + tauto.
Qed.

Lemma metrics_accumulate_over_requests_witness :
  exists m',
    serve ParseFloat 0.25 "dsn" (enabledScrapers ParseFloat ∅)
      [MkServed (MkRequest [] "") failingOpen demoSince (repeat Main 8);
       MkServed (MkRequest [] "") demoOpen demoSince demoSchedule;
       MkServed (MkRequest [] "") failingOpen demoSince (repeat Main 8)]
      NewMetrics = Some m'
    /\ TotalScrapes m' = 3%N
    /\ CubridUp m' = 1%float
    /\ (forall label, (scrapeErrors NewMetrics label <= scrapeErrors m' label)%N)
    /\ childrenCounted m'.
Proof.
  set (rs := [MkServed (MkRequest [] "") failingOpen demoSince (repeat Main 8);
              MkServed (MkRequest [] "") demoOpen demoSince demoSchedule;
              MkServed (MkRequest [] "") failingOpen demoSince (repeat Main 8)]).
  assert (Hsome : option_map TotalScrapes
                    (serve ParseFloat 0.25 "dsn" (enabledScrapers ParseFloat ∅) rs NewMetrics)
                  = Some 3%N)
    by (vm_compute; reflexivity).
  destruct (serve ParseFloat 0.25 "dsn" (enabledScrapers ParseFloat ∅) rs NewMetrics)
    as [m' |] eqn:Hserve; [| discriminate Hsome].
  exists m'. split; [reflexivity |].
  destruct (proj2 (metrics_accumulate_over_requests ParseFloat 0.25 "dsn"
                     (enabledScrapers ParseFloat ∅)) rs NewMetrics m' Hserve)
    as (Htotal & Hup & Hmono & Hchildren).
  repeat split.
  - exact Htotal.
  - exact Hup.
  - exact Hmono.
  - apply Hchildren. intros label n. cbn. rewrite lookup_empty. discriminate.
Defined.

(** X12: the last-scrape-error gauge tells of the last request only: after
    any requests, it is 1 when the [sql.Open] of the last one failed or one
    of the scrapers the last one selected returned an error, and 0
    otherwise, whatever happened in the requests before. *)
Theorem last_scrape_error_is_of_the_last_request (parseFloat : Parser)
    (timeoutOffset : float) (dsn : string) (enabled : list Scraper)
    (rs : list Served) (sv : Served) (m m' : Metrics) :
  serve parseFloat timeoutOffset dsn enabled (rs ++ [sv]) m = Some m' ->
  Error m'
  = (if opened dsn sv
     then if scrapeFails parseFloat timeoutOffset dsn enabled sv then 1 else 0
     else 1)%float.
Proof.
  rewrite serve_app.
  destruct (serve parseFloat timeoutOffset dsn enabled rs m) as [m1 |]; [| discriminate].
  intros Hserve. apply serve_cons in Hserve as (st & Hrun & Hend & Hrest).
  cbn in Hrest. injection Hrest as <-.
  now destruct (request_metrics _ _ _ _ sv m1 st Hrun Hend) as (_ & _ & Herror & _).
Qed.

Lemma last_scrape_error_is_of_the_last_request_witness :
  exists m',
    serve ParseFloat 0.25 "dsn" (enabledScrapers ParseFloat ∅)
      ([MkServed (MkRequest [] "") failingOpen demoSince (repeat Main 8);
        MkServed (MkRequest [] "") demoOpen demoSince demoSchedule]
       ++ [MkServed (MkRequest ["statdump"; "spacedb"] "") demoOpen demoSince
             (repeat Main 12 ++ repeat (Unit 0) 3 ++ repeat (Unit 1) 8 ++ repeat Main 6)])
      NewMetrics = Some m'
    /\ Error m' = 0%float.
Proof.
  set (rs := [MkServed (MkRequest [] "") failingOpen demoSince (repeat Main 8);
              MkServed (MkRequest [] "") demoOpen demoSince demoSchedule]).
  set (sv := MkServed (MkRequest ["statdump"; "spacedb"] "") demoOpen demoSince
               (repeat Main 12 ++ repeat (Unit 0) 3 ++ repeat (Unit 1) 8 ++ repeat Main 6)).
  assert (Hsome : option_map TotalScrapes
                    (serve ParseFloat 0.25 "dsn" (enabledScrapers ParseFloat ∅)
                       (rs ++ [sv]) NewMetrics)
                  = Some 3%N)
    by (vm_compute; reflexivity).
  destruct (serve ParseFloat 0.25 "dsn" (enabledScrapers ParseFloat ∅) (rs ++ [sv]) NewMetrics)
    as [m' |] eqn:Hserve; [| discriminate Hsome].
  exists m'. split; [reflexivity |].
  exact (last_scrape_error_is_of_the_last_request ParseFloat 0.25 "dsn"
           (enabledScrapers ParseFloat ∅) rs sv NewMetrics m' Hserve).
Defined.

(** ** The log of a cycle *)

Lemma exec_log since (t : Tid) (i : Instr) (st st' : State) :
  exec since t i st = Some st' ->
  st_log st' = st_log st ++ match i with Log l => [l] | _ => [] end.
Proof.
  destruct st as [dn mn us wg m c out lg].
  destruct i; cbn [exec]; intros H;
    try (destruct (0 <? wg)%Z; [| discriminate H]);
    try (destruct (wg =? 0)%Z; [| discriminate H]);
    injection H as <-; cbn [st_log]; now rewrite ?app_nil_r.
Qed.

Lemma scrapeLog_app (label : string) (l1 l2 : list LogLine) :
  scrapeLog label (l1 ++ l2) = scrapeLog label l1 ++ scrapeLog label l2.
Proof. apply flat_map_app. Qed.

Lemma logged_app (label : string) (c1 c2 : list Instr) :
  logged label (c1 ++ c2) = logged label c1 ++ logged label c2.
Proof. unfold logged. now rewrite flat_map_app, scrapeLog_app. Qed.

Lemma logged_one (label : string) (i : Instr) :
  logged label [i] = scrapeLog label match i with Log l => [l] | _ => [] end.
Proof. unfold logged. cbn [flat_map]. now rewrite app_nil_r. Qed.

(** The log holds what the threads have logged, in some order. *)
Lemma log_step since (label : string) (t : Tid) (st st' : State) :
  step since t st = Some st' ->
  scrapeLog label (st_log st)
  ≡ₚ logged label (st_done st) ++ flat_map (fun g => logged label (g_done g)) (st_units st) ->
  scrapeLog label (st_log st')
  ≡ₚ logged label (st_done st') ++ flat_map (fun g => logged label (g_done g)) (st_units st').
Proof.
  intros Hstep HP. destruct t as [| k].
  - destruct (step_Main_inv since st st' Hstep) as (i & mn & Hmn & Hexec).
    pose proof (exec_log _ _ _ _ _ Hexec) as Hlog.
    apply exec_spec in Hexec.
    cbn [st_done st_main st_units st_wg st_metrics st_conn st_out st_log] in Hexec, Hlog.
    destruct Hexec as (Hd & _ & Hu & _).
    rewrite Hlog, Hd, Hu, scrapeLog_app, logged_app, flat_map_app, HP, logged_one.
    replace (flat_map (fun g => logged label (g_done g)) (spawns since i)) with (@nil error)
      by (now destruct i).
    rewrite app_nil_r, <- !app_assoc. apply Permutation_app_head, Permutation_app_comm.
  - destruct (step_Unit_inv since k st st' Hstep) as (g & i & gc & Hk & Hg & Hexec).
    pose proof (exec_log _ _ _ _ _ Hexec) as Hlog.
    apply exec_spec in Hexec.
    cbn [st_done st_main st_units st_wg st_metrics st_conn st_out st_log] in Hexec, Hlog.
    destruct Hexec as (Hd & _ & Hu & _).
    destruct (units_split _ _ _ Hk) as (us1 & us2 & Hus & _ & Hins).
    rewrite Hins in Hu.
    rewrite Hlog, Hd, Hu, scrapeLog_app, HP, Hus, !flat_map_app.
    cbn [flat_map g_done]. rewrite logged_app, logged_one.
    replace (flat_map (fun g => logged label (g_done g)) (spawns since i)) with (@nil error)
      by (now destruct i).
    rewrite app_nil_r, <- !app_assoc.
    do 3 apply Permutation_app_head. apply Permutation_app_comm.
Qed.

Lemma log_run since (label : string) (sched : list Tid) (st st' : State) :
  run since sched st = Some st' ->
  scrapeLog label (st_log st)
  ≡ₚ logged label (st_done st) ++ flat_map (fun g => logged label (g_done g)) (st_units st) ->
  scrapeLog label (st_log st')
  ≡ₚ logged label (st_done st') ++ flat_map (fun g => logged label (g_done g)) (st_units st').
Proof.
  revert st. induction sched as [| t sched IH]; intros st; cbn [run].
  - now intros [= <-].
  - destruct (step since t st) as [st1 |] eqn:Hstep; [| discriminate].
    intros Hrun HP. apply (IH st1 Hrun). exact (log_step since label t st st1 Hstep HP).
Qed.

Lemma logged_unitCode since ctx db (label : string) (s : Scraper) :
  logged label (unitCode since ctx db s) = scrapeError ctx db label s.
Proof.
  unfold unitCode, scrapeError, collectLabel. rewrite !logged_app.
  assert (Hsend : forall ms, logged label (List.map Send ms) = []).
  { induction ms as [| m ms IH]; [reflexivity | exact IH]. }
  rewrite Hsend. cbn [app].
  destruct (returned (Scrape s ctx db)) as [e |].
  - unfold logged. cbn. destruct (String.eqb _ label); reflexivity.
  - cbn. now destruct (String.eqb _ label).
Qed.

Lemma loopCode_logged ctx db (label : string) (ss : list Scraper) :
  logged label (loopCode ctx db ss) = [].
Proof. induction ss as [| s ss IH]; [reflexivity | exact IH]. Qed.

Lemma collectCode_logged since sqlOpen ctx (dsn label : string) (ss : list Scraper) :
  logged label (collectCode since sqlOpen ctx dsn ss) = [].
Proof.
  unfold collectCode, scrapeCode.
  destruct (sqlOpen "cubrid" dsn) as [err | db]; [reflexivity |].
  rewrite !logged_app, loopCode_logged. reflexivity.
Qed.

Lemma failures_scrapeError ctx db (label : string) (ss : list Scraper) :
  N.of_nat (length (flat_map (scrapeError ctx db label) ss)) = failures ctx db label ss.
Proof.
  unfold failures. induction ss as [| s ss IH]; [reflexivity |].
  cbn [flat_map List.filter]. rewrite length_app.
  unfold scrapeError at 1, fails at 1.
  destruct (String.eqb (collectLabel s) label), (returned (Scrape s ctx db));
    cbn [andb length]; lia.
Qed.

(** X13: every error a scraper returns is logged, and nothing else is logged
    as a failed scrape.  When [Collect] returns from a cycle whose
    [sql.Open] succeeded, however the goroutines were scheduled, the lines
    [Error scraping for <label>] of the log carry, in some order, the errors
    returned by the scrapers of the cycle with that label, one line for
    each; their number is the increase of the error counter of the label. *)
Theorem every_scrape_error_is_logged since sqlOpen (ctx : Context) (dsn : string)
    (ss : list Scraper) (m0 : Metrics) (db : DB) (sched : list Tid) (st : State)
    (label : string) :
  sqlOpen "cubrid" dsn = inr db ->
  run since sched (start since sqlOpen ctx dsn ss m0) = Some st ->
  collected st ->
  scrapeLog label (st_log st) ≡ₚ flat_map (scrapeError ctx db label) ss
  /\ scrapeErrors (st_metrics st) label
     = (scrapeErrors m0 label + N.of_nat (length (scrapeLog label (st_log st))))%N.
Proof.
  intros Hopen Hrun Hend.
  assert (Hw : existsb isWait (st_main st) = false)
    by (unfold collected in Hend; now rewrite Hend).
  destruct (joined since sqlOpen ctx dsn ss m0 db Hopen sched st Hrun Hw) as [Hss Hdone].
  destruct (end_state since sqlOpen ctx dsn ss m0 db Hopen sched st Hrun Hend)
    as (Herrors & _).
  pose proof (reachable_Inv since sqlOpen ctx dsn ss m0 db Hopen sched st Hrun) as HI.
  pose proof (inv_code _ _ _ _ _ _ HI) as Hcode.
  unfold collected in Hend. rewrite Hend, app_nil_r in Hcode.
  assert (HP : scrapeLog label (st_log st) ≡ₚ flat_map (scrapeError ctx db label) ss).
  { rewrite (log_run since label sched _ st Hrun) by reflexivity.
    rewrite Hcode, collectCode_logged. cbn [app].
    rewrite <- Hss. clear - Hdone.
    induction Hdone as [| g us [Hg _] _ IH]; [reflexivity |].
    cbn [flat_map List.map]. now rewrite IH, Hg, logged_unitCode. }
  split; [exact HP |].
  rewrite Herrors, (Permutation_length HP). now rewrite failures_scrapeError.
Qed.

Lemma every_scrape_error_is_logged_witness :
  exists st,
    run demoSince demoSchedule demoStart = Some st
    /\ collected st
    /\ scrapeLog "collect.broker_status" (st_log st) ≡ₚ [DriverError "query failed"]
    /\ scrapeErrors (st_metrics st) "collect.broker_status"
       = (0 + N.of_nat (length (scrapeLog "collect.broker_status" (st_log st))))%N.
Proof.
  assert (Hend : option_map st_main (run demoSince demoSchedule demoStart) = Some [])
    by (vm_compute; reflexivity).
  destruct (run demoSince demoSchedule demoStart) as [st |] eqn:Hrun; [| discriminate Hend].
  injection Hend as Hend. exists st.
  split; [reflexivity | split; [exact Hend |]].
  exact (every_scrape_error_is_logged demoSince demoOpen RequestContext "dsn"
           (enabledScrapers ParseFloat ∅) NewMetrics demoDB demoSchedule st
           "collect.broker_status" eq_refl Hrun Hend).
Defined.

(** ** The channel as a whole *)

Lemma sentBy_cons (t t' : Tid) (x : Metric) (out : list (Tid * Metric)) :
  sentBy t ((t', x) :: out)
  = if match t', t with
       | Main, Main => true
       | Unit a, Unit b => Nat.eqb a b
       | _, _ => false
       end
    then x :: sentBy t out else sentBy t out.
Proof. unfold sentBy. cbn [List.filter fst]. now destruct t', t; try destruct (Nat.eqb _ _). Qed.

Lemma sentBy_In (t : Tid) (x : Metric) (out : list (Tid * Metric)) :
  In (t, x) out <-> In x (sentBy t out).
Proof.
  induction out as [| [t' y] out IH]; [reflexivity |].
  rewrite sentBy_cons. cbn [In]. rewrite IH. split.
  - intros [[= -> ->] | H].
    + destruct t as [| k]; [now left |]. rewrite Nat.eqb_refl. now left.
    + destruct t', t; try destruct (Nat.eqb _ _); try (now right); exact H.
  - destruct t' as [| a], t as [| b]; try (now right).
    + intros [-> | H]; [now left | now right].
    + destruct (Nat.eqb_spec a b) as [-> | _]; [| now right].
      intros [-> | H]; [now left | now right].
Qed.

Lemma flat_map_eq_in {A B} (f g : A -> list B) (l : list A) :
  (forall a, In a l -> f a = g a) -> flat_map f l = flat_map g l.
Proof.
  induction l as [| a l IH]; [reflexivity |]. intros H. cbn [flat_map].
  rewrite (H a) by now left. rewrite IH; [reflexivity |]. intros; apply H; now right.
Qed.

(** One more sample of goroutine [j] among the samples listed by goroutine. *)
Lemma byUnit_cons (j : nat) (x : Metric) (F : nat -> list Metric) (ks : list nat) :
  NoDup ks -> In j ks ->
  flat_map (fun k => List.map (pair (Unit k)) (if Nat.eqb j k then x :: F k else F k)) ks
  ≡ₚ (Unit j, x) :: flat_map (fun k => List.map (pair (Unit k)) (F k)) ks.
Proof.
  induction ks as [| k ks IH]; [intros _ []|].
  intros Hnd Hin. apply NoDup_cons in Hnd as [Hnotin Hnd]. cbn [flat_map].
  destruct (Nat.eqb_spec j k) as [-> | Hne].
  - cbn [List.map app]. apply Permutation_cons; [reflexivity |].
    apply Permutation_app_head.
    rewrite (flat_map_eq_in _ (fun k => List.map (pair (Unit k)) (F k))); [reflexivity |].
    intros a Ha. destruct (Nat.eqb_spec k a) as [-> | _]; [| reflexivity].
    exfalso. now apply Hnotin, list_elem_of_In.
  - destruct Hin as [-> | Hin]; [contradiction |].
    rewrite (IH Hnd Hin). symmetry. apply Permutation_middle.
Qed.

(** The channel is the samples of [Main] and those of the goroutines, in
    some order. *)
Lemma out_by_thread (n : nat) (out : list (Tid * Metric)) :
  (forall k x, In (Unit k, x) out -> (k < n)%nat) ->
  out ≡ₚ List.map (pair Main) (sentBy Main out)
         ++ flat_map (fun k => List.map (pair (Unit k)) (sentBy (Unit k) out)) (seq 0 n).
Proof.
  induction out as [| [t x] out IH]; intros Hlt.
  - cbn. induction (seq 0 n) as [| k ks IHk]; [reflexivity | exact IHk].
  - assert (IH' := IH (fun k y H => Hlt k y (or_intror H))).
    destruct t as [| j].
    + rewrite sentBy_cons. cbn [List.map app].
      apply Permutation_cons; [reflexivity |].
      rewrite (flat_map_eq_in _ (fun k => List.map (pair (Unit k)) (sentBy (Unit k) out)));
        [exact IH' |].
      intros k _. now rewrite sentBy_cons.
    + rewrite sentBy_cons.
      rewrite (flat_map_eq_in _ (fun k => List.map (pair (Unit k))
                                            (if Nat.eqb j k then x :: sentBy (Unit k) out
                                             else sentBy (Unit k) out)))
        by (intros k _; now rewrite sentBy_cons).
      rewrite byUnit_cons.
      * rewrite <- Permutation_middle. now apply Permutation_cons.
      * apply NoDup_seq.
      * apply in_seq. specialize (Hlt j x (or_introl eq_refl)). lia.
Qed.

Lemma flat_map_lookup {A B} (f : A -> list B) (l : list A) :
  flat_map (fun k => match l !! k with Some a => f a | None => [] end) (seq 0 (length l))
  = flat_map f l.
Proof.
  induction l as [| a l IH] using rev_ind; [reflexivity |].
  rewrite length_app, Nat.add_comm. cbn [length Nat.add].
  rewrite seq_S, !flat_map_app. cbn [flat_map Nat.add].
  rewrite list_lookup_middle by reflexivity. f_equal.
  rewrite <- IH. apply flat_map_eq_in. intros k Hk. apply in_seq in Hk.
  now rewrite lookup_app_l by lia.
Qed.

Lemma map_snd_pair {A B} (a : A) (l : list B) : List.map snd (List.map (pair a) l) = l.
Proof. induction l as [| b l IH]; [reflexivity |]. cbn. now rewrite IH. Qed.

(** The channel when [Collect] returns, in a cycle whose [sql.Open] succeeds. *)
Lemma success_channel since sqlOpen (ctx : Context)
    (dsn : string) (ss : list Scraper) (m0 : Metrics) (db : DB)
    (sched : list Tid) (st : State) :
  sqlOpen "cubrid" dsn = inr db ->
  run since sched (start since sqlOpen ctx dsn ss m0) = Some st ->
  collected st ->
  List.map snd (st_out st)
  ≡ₚ (durationSample since "connection"
        :: sampleTotalScrapes (st_metrics st) :: sampleError (st_metrics st)
        :: samplesScrapeErrors (st_metrics st) ++ [sampleCubridUp (st_metrics st)])
     ++ flat_map (unitSamples since ctx db) ss
  /\ forall t x, In (t, x) (st_out st) ->
                 t = Main \/ exists k s, t = Unit k /\ ss !! k = Some s.
Proof.
  intros Hopen Hrun Hend.
  assert (Hw : existsb isWait (st_main st) = false)
    by (unfold collected in Hend; now rewrite Hend).
  destruct (joined since sqlOpen ctx dsn ss m0 db Hopen sched st Hrun Hw) as [Hss _].
  pose proof (reachable_Inv since sqlOpen ctx dsn ss m0 db Hopen sched st Hrun) as HI.
  destruct (main_output since sqlOpen ctx dsn ss m0 db sched st Hopen Hrun Hend)
    as [Hmain _].
  assert (Hlen : length (st_units st) = length ss) by now rewrite <- Hss, length_map.
  assert (Hlt : forall k x, In (Unit k, x) (st_out st) -> (k < length ss)%nat).
  { intros k x Hin. apply sentBy_In in Hin. rewrite (inv_out _ _ _ _ _ _ HI) in Hin.
    destruct (st_units st !! k) as [g |] eqn:Hk; [| destruct Hin].
    apply lookup_lt_Some in Hk. lia. }
  split.
  - rewrite (out_by_thread (length ss) (st_out st) Hlt) at 1.
    rewrite List.map_app, map_snd_pair, Hmain.
    apply Permutation_app_head.
    rewrite <- (flat_map_lookup (unitSamples since ctx db) ss).
    rewrite flat_map_concat_map, concat_map, List.map_map, <- flat_map_concat_map.
    rewrite (flat_map_eq_in _ (fun k => match ss !! k with
                                        | Some s => unitSamples since ctx db s
                                        | None => []
                                        end)); [reflexivity |].
    intros k Hk. apply in_seq in Hk. rewrite map_snd_pair.
    destruct (ss !! k) as [s |] eqn:Hs.
    + exact (unit_output since sqlOpen ctx dsn ss m0 db Hopen sched st k s Hrun Hw Hs).
    + apply lookup_ge_None in Hs. lia.
  - intros [| k] x Hin; [now left | right].
    specialize (Hlt k x Hin).
    destruct (lookup_lt_is_Some_2 ss k Hlt) as [s Hs]. now exists k, s.
Qed.

(** X14: what the channel holds when [Collect] returns from a cycle whose
    [sql.Open] succeeded, however the goroutines were scheduled: the duration
    of the connection phase, the four metrics of the exporter, and for each
    scraper of the cycle the samples of its scrape and its duration; these
    and no others, each as often as it was sent, in an order that depends on
    the schedule.  Every sample was sent by [Collect] itself or by the
    goroutine of one of the scrapers. *)
Theorem channel_holds_exactly_the_cycle_samples since sqlOpen (ctx : Context)
    (dsn : string) (ss : list Scraper) (m0 : Metrics) (db : DB)
    (sched : list Tid) (st : State) :
  sqlOpen "cubrid" dsn = inr db ->
  run since sched (start since sqlOpen ctx dsn ss m0) = Some st ->
  collected st ->
  List.map snd (st_out st)
  ≡ₚ (durationSample since "connection"
        :: sampleTotalScrapes (st_metrics st) :: sampleError (st_metrics st)
        :: samplesScrapeErrors (st_metrics st) ++ [sampleCubridUp (st_metrics st)])
     ++ flat_map (unitSamples since ctx db) ss
  /\ forall t x, In (t, x) (st_out st) ->
                 t = Main \/ exists k s, t = Unit k /\ ss !! k = Some s.
Proof.
  exact (success_channel since sqlOpen ctx dsn ss m0 db sched st).
Qed.

Lemma channel_holds_exactly_the_cycle_samples_witness :
  exists st,
    run demoSince demoSchedule demoStart = Some st
    /\ collected st
    /\ List.map snd (st_out st)
       ≡ₚ (MustNewConstMetric scrapeDurationDesc 0.5 ["connection"]
             :: sampleTotalScrapes (st_metrics st) :: sampleError (st_metrics st)
             :: samplesScrapeErrors (st_metrics st) ++ [sampleCubridUp (st_metrics st)])
          ++ [MustNewConstMetric scrapeDurationDesc 0.5 ["collect.broker_status"];
              MustNewConstMetric StatdumpInfo 3 ["Num_file_creates"];
              MustNewConstMetric scrapeDurationDesc 0.5 ["collect.statdump"];
              MustNewConstMetric VolNoInfo 1 ["0"; "_type"];
              MustNewConstMetric VolNoInfo 1 ["0"; "purpose"];
              MustNewConstMetric VolNoInfo 3 ["0"; "count"];
              MustNewConstMetric VolNoInfo 80 ["0"; "used_pages"];
              MustNewConstMetric VolNoInfo 20 ["0"; "free_pages"];
              MustNewConstMetric VolNoInfo 80 ["0"; "usedPercentage"];
              MustNewConstMetric scrapeDurationDesc 0.5 ["collect.spacedb"]].
Proof.
  assert (Hend : option_map st_main (run demoSince demoSchedule demoStart) = Some [])
    by (vm_compute; reflexivity).
  destruct (run demoSince demoSchedule demoStart) as [st |] eqn:Hrun; [| discriminate Hend].
  injection Hend as Hend. exists st.
  split; [reflexivity | split; [exact Hend |]].
  exact (proj1 (channel_holds_exactly_the_cycle_samples demoSince demoOpen RequestContext
                  "dsn" (enabledScrapers ParseFloat ∅) NewMetrics demoDB demoSchedule st
                  eq_refl Hrun Hend)).
Defined.

(** ** The samples of a response *)

(** The channel when [Collect] returns, whether [sql.Open] succeeds or not. *)
Lemma cycle_channel since sqlOpen (ctx : Context) (dsn : string) (ss : list Scraper)
    (m0 : Metrics) (sched : list Tid) (st : State) :
  run since sched (start since sqlOpen ctx dsn ss m0) = Some st ->
  collected st ->
  List.map snd (st_out st)
  ≡ₚ sentBy Main (st_out st)
     ++ match sqlOpen "cubrid" dsn with
        | inr db => flat_map (unitSamples since ctx db) ss
        | inl _ => []
        end.
Proof.
  intros Hrun Hend.
  destruct (sqlOpen "cubrid" dsn) as [err | db] eqn:Hopen.
  - pose proof (fail_end since sqlOpen ctx dsn ss m0 err Hopen sched st Hrun Hend) as Hst.
    rewrite (fail_run since sqlOpen ctx dsn ss m0 err Hopen) in Hst. injection Hst as <-.
    cbn [st_out]. rewrite app_nil_r.
    change ((Main, ?a) :: (Main, ?b) :: List.map (pair Main) ?l)
      with (List.map (pair Main) (a :: b :: l)).
    now rewrite sentBy_same, map_snd_pair.
  - destruct (main_output since sqlOpen ctx dsn ss m0 db sched st Hopen Hrun Hend)
      as [Hmain _].
    rewrite Hmain.
    exact (proj1 (success_channel since sqlOpen ctx dsn ss m0 db sched st Hopen Hrun Hend)).
Qed.

Lemma filter_Permutation_bool {A} (f : A -> bool) (l l' : list A) :
  l ≡ₚ l' -> List.filter f l ≡ₚ List.filter f l'.
Proof.
  induction 1 as [| x l l' _ IH | x y l | l1 l2 l3 _ IH1 _ IH2]; cbn [List.filter].
  - reflexivity.
  - destruct (f x); [now apply Permutation_cons | exact IH].
  - destruct (f x), (f y); try reflexivity. apply perm_swap.
  - now rewrite IH1.
Qed.

Lemma filter_all {A} (f : A -> bool) (l : list A) :
  Forall (fun x => f x = true) l -> List.filter f l = l.
Proof.
  induction 1 as [| x l Hx _ IH]; [reflexivity |]. cbn [List.filter]. now rewrite Hx, IH.
Qed.

Lemma filter_none {A} (f : A -> bool) (l : list A) :
  Forall (fun x => f x = false) l -> List.filter f l = [].
Proof.
  induction 1 as [| x l Hx _ IH]; [reflexivity |]. cbn [List.filter]. now rewrite Hx, IH.
Qed.

(** The scrapers of a request send samples of their own descriptors. *)
Lemma handler_scraper_sent (parseFloat : Parser) (cmdline : gmap string bool)
    (params : list string) (ctx : Context) (db : DB) (s : Scraper) :
  In s (filterScrapers (enabledScrapers parseFloat cmdline) params) ->
  Forall (fun x => wellLabelled x /\ ownDesc (m_desc x) = false) (sent (Scrape s ctx db)).
Proof.
  intros Hs.
  assert (Hin : In s (enabledScrapers parseFloat cmdline)).
  { unfold filterScrapers in Hs. destruct (0 <? length params)%nat; [| exact Hs].
    now apply filter_In in Hs as [Hs _]. }
  destruct (scrapers_sent parseFloat ctx db) as (Hb & Hs' & Hv).
  rewrite enabledScrapers_cases in Hin.
  destruct (default true (cmdline !! "collect.broker_status")),
    (default true (cmdline !! "collect.statdump")),
    (default true (cmdline !! "collect.spacedb"));
    cbn [app In] in Hin;
    repeat (destruct Hin as [<- | Hin]);
    try (destruct Hin);
    (eapply Forall_impl; [eassumption |]);
    intros x [Hd Hw]; (split; [exact Hw | now rewrite Hd]).
Qed.

Lemma ownKeys_NoDup (connected : bool) (children : gmap string N) (names : list string) :
  NoDup names ->
  NoDup ((if connected then [(scrapeDurationDesc, ["connection"])] else [])
         ++ (TotalScrapesDesc, []) :: (ErrorDesc, [])
         :: List.map (fun kv : string * N => (ScrapeErrorsDesc, [fst kv]))
                     (map_to_list children)
         ++ [(CubridUpDesc, [])]
         ++ List.map (fun name => (scrapeDurationDesc, ["collect." +:+ name])) names).
Proof.
  intros Hnames.
  assert (Hch : NoDup (List.map (fun kv : string * N => (ScrapeErrorsDesc, [fst kv]))
                                (map_to_list children))).
  { pose proof (NoDup_fst_map_to_list children) as Hnd.
    change (NoDup (List.map fst (map_to_list children))) in Hnd.
    induction (map_to_list children) as [| kv l IH]; [constructor |].
    cbn [List.map] in *. apply NoDup_cons in Hnd as [Hnotin Hnd].
    apply NoDup_cons. split; [| now apply IH].
    intros Hin. apply Hnotin.
    apply list_elem_of_In, in_map_iff in Hin as (kv' & [= Heq] & Hin).
    apply list_elem_of_In, in_map_iff. now exists kv'. }
  assert (Hdur : NoDup (List.map (fun name => (scrapeDurationDesc, ["collect." +:+ name]))
                                 names)).
  { induction names as [| n names IH]; [constructor |].
    cbn [List.map]. apply NoDup_cons in Hnames as [Hnotin Hnames].
    apply NoDup_cons. split; [| now apply IH].
    intros Hin. apply Hnotin.
    apply list_elem_of_In, in_map_iff in Hin as (n' & Heq & Hin).
    cbn in Heq. injection Heq as Heq. change (n' = n) in Heq.
    subst n'. now apply list_elem_of_In. }
  assert (Hrest : NoDup ((TotalScrapesDesc, []) :: (ErrorDesc, [])
                         :: List.map (fun kv : string * N => (ScrapeErrorsDesc, [fst kv]))
                                     (map_to_list children)
                         ++ [(CubridUpDesc, [])]
                         ++ List.map (fun name => (scrapeDurationDesc, ["collect." +:+ name]))
                                     names)).
  { apply NoDup_cons. split.
    { intros Hin. apply list_elem_of_In in Hin. cbn [In] in Hin.
      rewrite !in_app_iff in Hin. cbn [In] in Hin. rewrite !in_map_iff in Hin.
      destruct Hin as [H | [(kv & H & _) | [[H | []] | (n & H & _)]]]; discriminate H. }
    apply NoDup_cons. split.
    { intros Hin. apply list_elem_of_In in Hin.
      rewrite !in_app_iff in Hin. cbn [In] in Hin. rewrite !in_map_iff in Hin.
      destruct Hin as [(kv & H & _) | [[H | []] | (n & H & _)]]; discriminate H. }
    apply NoDup_app. split; [exact Hch | split].
    { intros x Hx Hin. apply list_elem_of_In, in_map_iff in Hx as (kv & <- & _).
      apply list_elem_of_In in Hin. rewrite in_app_iff in Hin. cbn [In] in Hin.
      rewrite in_map_iff in Hin.
      destruct Hin as [[H | []] | (n & H & _)]; discriminate H. }
    apply NoDup_cons. cbn [app]. split; [| exact Hdur].
    intros Hin. apply list_elem_of_In, in_map_iff in Hin as (n & H & _). discriminate H. }
  destruct connected; [| exact Hrest].
  cbn [app]. apply NoDup_cons. split; [| exact Hrest].
  intros Hin. apply list_elem_of_In in Hin. cbn [In] in Hin.
  rewrite !in_app_iff in Hin. cbn [In] in Hin. rewrite !in_map_iff in Hin.
  destruct Hin as [H | [H | [(kv & H & _) | [H | (n & H & _)]]]]; cbn in H; discriminate H.
Qed.

(** X15: the response to a request, whatever the command line, the request,
    the database and the schedule: when [Collect] returns, every sample of
    the channel has one label value for each variable label of its
    descriptor, and no two of the samples of the exporter itself (the
    durations, the total of scrapes, the error gauge, the error counters and
    the up gauge) have the same descriptor and label values, which the
    registry would refuse. *)
Theorem response_samples_are_valid (parseFloat : Parser) (timeoutOffset : float)
    (dsn : string) (cmdline : gmap string bool) (sv : Served) (m : Metrics) (st : State) :
  run (sv_since sv) (sv_sched sv)
      (requestStart parseFloat timeoutOffset dsn (enabledScrapers parseFloat cmdline) sv m)
  = Some st ->
  collected st ->
  Forall wellLabelled (List.map snd (st_out st))
  /\ NoDup (List.map sampleKey
              (List.filter (fun x => ownDesc (m_desc x)) (List.map snd (st_out st)))).
Proof.
  rewrite requestStart_eq. intros Hrun Hend.
  set (ctx := snd (handlerContext parseFloat timeoutOffset (timeoutHeader (sv_request sv))))
    in *.
  set (ss := filterScrapers (enabledScrapers parseFloat cmdline)
               (collectParams (sv_request sv))) in *.
  pose proof (cycle_channel _ _ _ _ _ _ _ _ Hrun Hend) as HP.
  destruct (cycle_metrics _ _ _ _ _ _ _ _ Hrun Hend) as (_ & _ & _ & _ & Hmain).
  rewrite Hmain in HP. clear Hmain.
  assert (Hsent : forall db s, In s ss ->
                    Forall (fun x => wellLabelled x /\ ownDesc (m_desc x) = false)
                           (sent (Scrape s ctx db)))
    by (intros db s Hs; exact (handler_scraper_sent parseFloat cmdline _ ctx db s Hs)).
  assert (Hch : Forall (fun x => wellLabelled x /\ ownDesc (m_desc x) = true)
                       (samplesScrapeErrors (st_metrics st))).
  { unfold samplesScrapeErrors. apply Forall_forall. intros x Hx.
    apply list_elem_of_In, in_map_iff in Hx as (kv & <- & _). now split. }
  split.
  - apply Forall_forall. intros x Hx. apply list_elem_of_In in Hx.
    apply (Permutation_in _ HP) in Hx.
    rewrite !in_app_iff in Hx. cbn [In] in Hx. rewrite in_app_iff in Hx. cbn [In] in Hx.
    destruct Hx as [[Hx | [Hx | [Hx | [Hx | [Hx | []]]]]] | Hx]; try (subst x; reflexivity).
    + destruct (sv_open sv "cubrid" dsn); [destruct Hx | destruct Hx as [<- | []]; reflexivity].
    + rewrite Forall_forall in Hch. now apply Hch, list_elem_of_In.
    + destruct (sv_open sv "cubrid" dsn) as [err | db]; [destruct Hx |].
      apply in_flat_map in Hx as (s & Hs & Hx). unfold unitSamples in Hx.
      apply in_app_iff in Hx as [Hx | [<- | []]]; [| reflexivity].
      specialize (Hsent db s Hs). rewrite Forall_forall in Hsent.
      now apply Hsent, list_elem_of_In.
  - rewrite (Permutation_map sampleKey
               (filter_Permutation_bool (fun x => ownDesc (m_desc x)) _ _ HP)).
    assert (Hown : List.map sampleKey
                     (List.filter (fun x => ownDesc (m_desc x))
                        ((match sv_open sv "cubrid" dsn with
                          | inr _ => [durationSample (sv_since sv) "connection"]
                          | inl _ => []
                          end
                          ++ sampleTotalScrapes (st_metrics st) :: sampleError (st_metrics st)
                          :: samplesScrapeErrors (st_metrics st)
                          ++ [sampleCubridUp (st_metrics st)])
                         ++ match sv_open sv "cubrid" dsn with
                            | inr db => flat_map (unitSamples (sv_since sv) ctx db) ss
                            | inl _ => []
                            end))
                   = (if match sv_open sv "cubrid" dsn with inr _ => true | inl _ => false end
                      then [(scrapeDurationDesc, ["connection"])] else [])
                     ++ (TotalScrapesDesc, []) :: (ErrorDesc, [])
                     :: List.map (fun kv : string * N => (ScrapeErrorsDesc, [fst kv]))
                                 (map_to_list (ScrapeErrors (st_metrics st)))
                     ++ [(CubridUpDesc, [])]
                     ++ List.map (fun name => (scrapeDurationDesc, ["collect." +:+ name]))
                                 (match sv_open sv "cubrid" dsn with
                                  | inr _ => List.map Name ss
                                  | inl _ => []
                                  end)).
    { assert (Hunits : forall db,
                List.map sampleKey
                  (List.filter (fun x => ownDesc (m_desc x))
                     (flat_map (unitSamples (sv_since sv) ctx db) ss))
                = List.map (fun name => (scrapeDurationDesc, ["collect." +:+ name]))
                           (List.map Name ss)).
      { intros db. clear - Hsent. induction ss as [| s ss IH]; [reflexivity |].
        cbn [flat_map List.map]. unfold unitSamples at 1.
        rewrite !List.filter_app, !List.map_app.
        rewrite (filter_none _ (sent (Scrape s ctx db)))
          by (eapply Forall_impl; [exact (Hsent db s (or_introl eq_refl)) |];
              now intros x [_ Hx]).
        cbn. f_equal. apply IH. intros db' s' Hs'. apply Hsent. now right. }
      rewrite List.filter_app, List.map_app.
      rewrite filter_all.
      2:{ apply Forall_app. split.
          - destruct (sv_open sv "cubrid" dsn); repeat constructor.
          - repeat (apply Forall_cons; split; [reflexivity |]).
            apply Forall_app. split; [| repeat constructor].
            eapply Forall_impl; [exact Hch |]. now intros x [_ Hx]. }
      rewrite !List.map_app. cbn [List.map]. rewrite !List.map_app.
      unfold samplesScrapeErrors. rewrite !List.map_map. cbn [List.map].
      change (sampleKey (sampleTotalScrapes (st_metrics st))) with (TotalScrapesDesc, @nil string).
      change (sampleKey (sampleError (st_metrics st))) with (ErrorDesc, @nil string).
      change (sampleKey (sampleCubridUp (st_metrics st))) with (CubridUpDesc, @nil string).
      destruct (sv_open sv "cubrid" dsn) as [err | db];
        [| rewrite Hunits]; cbn [List.map List.filter app]; rewrite <- ?app_assoc;
        reflexivity. }
    rewrite Hown. apply ownKeys_NoDup.
    destruct (sv_open sv "cubrid" dsn); [constructor | apply handler_names_NoDup].
Qed.

Lemma response_samples_are_valid_witness :
  exists st,
    run demoSince demoSchedule demoStart = Some st
    /\ collected st
    /\ Forall wellLabelled (List.map snd (st_out st))
    /\ NoDup (List.map sampleKey
                (List.filter (fun x => ownDesc (m_desc x)) (List.map snd (st_out st)))).
Proof.
  assert (Hend : option_map st_main (run demoSince demoSchedule demoStart) = Some [])
    by (vm_compute; reflexivity).
  destruct (run demoSince demoSchedule demoStart) as [st |] eqn:Hrun; [| discriminate Hend].
  injection Hend as Hend. exists st.
  split; [reflexivity | split; [exact Hend |]].
  exact (response_samples_are_valid ParseFloat 0.25 "dsn" ∅
           (MkServed (MkRequest [] "") demoOpen demoSince demoSchedule) NewMetrics st
           Hrun Hend).
Defined.

(** ** [getCubridVersion] *)

Lemma spanDigits_spec (s : list ascii) :
  s = fst (spanDigits s) ++ snd (spanDigits s)
  /\ forallb isDigit (fst (spanDigits s)) = true.
Proof.
  induction s as [| c s [IH1 IH2]]; [now split |].
  cbn [spanDigits]. destruct (isDigit c) eqn:Hc; [| now split].
  destruct (spanDigits s) as [ds rest]. cbn [fst snd] in *.
  split; [now rewrite IH1 at 1 | cbn [forallb]; now rewrite Hc].
Qed.

Lemma versionRE_FindString_cases (s : string) :
  versionRE_FindString s = ""
  \/ exists d1 d2 rest,
      d1 <> [] /\ d2 <> []
      /\ forallb isDigit d1 = true /\ forallb isDigit d2 = true
      /\ list_ascii_of_string s = d1 ++ "."%char :: d2 ++ rest
      /\ versionRE_FindString s = string_of_list_ascii (d1 ++ "."%char :: d2).
Proof.
  unfold versionRE_FindString.
  destruct (spanDigits_spec (list_ascii_of_string s)) as [Hs Hd1].
  destruct (spanDigits (list_ascii_of_string s)) as [d1 r1]. cbn [fst snd] in *.
  destruct d1 as [| c1 d1]; [now left |].
  destruct r1 as [| c r2]; [now left |].
  destruct (Ascii.eqb_spec c "."%char) as [-> | Hne].
  - destruct (spanDigits_spec r2) as [Hr Hd2].
    destruct (spanDigits r2) as [d2 rest]. cbn [fst snd] in *.
    destruct d2 as [| c2 d2]; [now left |].
    right. exists (c1 :: d1), (c2 :: d2), rest.
    repeat split; try discriminate; try assumption.
    now rewrite Hs, Hr.
  - left. destruct c as [[] [] [] [] [] [] [] []]; try reflexivity.
    now contradiction Hne.
Qed.

(** X16: [getCubridVersion] never returns 0: it returns 999 when the
    version cannot be queried or scanned, and, with the parser of the
    standard library, when the text of the version does not begin with
    digits, a dot and digits.  What is parsed is a beginning of the text of
    the version, made of digits, one dot and digits. *)
Theorem version_falls_back_to_999 :
  (forall parseFloat scanned, (getCubridVersion parseFloat scanned =? 0)%float = false)
  /\ (forall parseFloat e, getCubridVersion parseFloat (inl e) = 999%float)
  /\ (forall s, versionRE_FindString s = "" ->
                getCubridVersion ParseFloat (inr s) = 999%float)
  /\ (forall s, exists rest,
         list_ascii_of_string s = list_ascii_of_string (versionRE_FindString s) ++ rest)
  /\ (forall s, versionRE_FindString s <> "" ->
                exists d1 d2,
                  d1 <> [] /\ d2 <> []
                  /\ forallb isDigit d1 = true /\ forallb isDigit d2 = true
                  /\ list_ascii_of_string (versionRE_FindString s) = d1 ++ "."%char :: d2).
Proof.
  split; [| split; [| split; [| split]]].
  - intros parseFloat scanned. unfold getCubridVersion.
    destruct ((match scanned with
               | inr versionStr => fst (parseFloat (versionRE_FindString versionStr))
               | inl _ => 0
               end =? 0)%float) eqn:Hzero; [reflexivity | exact Hzero].
  - reflexivity.
  - intros s Hs. unfold getCubridVersion. rewrite Hs. vm_compute. reflexivity.
  - intros s. destruct (versionRE_FindString_cases s)
      as [-> | (d1 & d2 & rest & _ & _ & _ & _ & Hs & ->)].
    + now exists (list_ascii_of_string s).
    + exists rest. rewrite list_ascii_of_string_of_list_ascii, Hs.
      now rewrite <- app_assoc.
  - intros s Hne. destruct (versionRE_FindString_cases s)
      as [Hs | (d1 & d2 & rest & H1 & H2 & H3 & H4 & _ & ->)]; [contradiction |].
    exists d1, d2. now rewrite list_ascii_of_string_of_list_ascii.
Qed.

Lemma version_falls_back_to_999_witness :
  getCubridVersion ParseFloat (inr "CUBRID 10.2") = 999%float
  /\ versionRE_FindString "11.0.0.0248-b53ae4a" = "11.0"
  /\ getCubridVersion ParseFloat (inr "11.0.0.0248-b53ae4a") = 11%float.
Proof.
  split; [| split].
  - exact (proj1 (proj2 (proj2 version_falls_back_to_999)) "CUBRID 10.2" eq_refl).
  - reflexivity.
  - vm_compute. reflexivity.
Defined.

(** ** A request that selects no scraper *)

Lemma filterScrapers_none (enabled : list Scraper) (params : list string) :
  params <> [] ->
  (forall s, In s enabled -> ~ In (Name s) params) ->
  filterScrapers enabled params = [].
Proof.
  intros Hne Hnone. unfold filterScrapers.
  destruct params as [| p params]; [contradiction | cbn [length Nat.ltb Nat.leb]].
  apply filter_none. apply Forall_forall. intros s Hs.
  destruct (filtersAt (makeFilters (p :: params)) (Name s)) eqn:Hf; [| reflexivity].
  apply filtersAt_makeFilters in Hf. exfalso.
  exact (Hnone s (proj1 (list_elem_of_In _ _) Hs) Hf).
Qed.

(** When no state of a cycle has a goroutine, [Main] alone takes steps. *)
Lemma only_Main since (st0 : State) :
  (forall sched st, run since sched st0 = Some st -> st_units st = []) ->
  forall sched' sched st st',
    run since sched st0 = Some st ->
    run since sched' st = Some st' ->
    sched' = repeat Main (length sched').
Proof.
  intros Hnone. induction sched' as [| t sched' IH]; intros sched st st' Hrun Hrun';
    [reflexivity |].
  cbn [run] in Hrun'. destruct (step since t st) as [st1 |] eqn:Hstep; [| discriminate].
  assert (Hrun1 : run since (sched ++ [t]) st0 = Some st1).
  { clear - Hrun Hstep. revert Hrun. generalize st0.
    induction sched as [| u sched IHs]; intros s0; cbn [run app].
    - intros [= ->]. now rewrite Hstep.
    - destruct (step since u s0); [apply IHs | discriminate]. }
  cbn [length repeat]. rewrite <- (IH (sched ++ [t]) st1 st' Hrun1 Hrun').
  destruct t as [| k]; [reflexivity |].
  apply step_Unit_inv in Hstep as (g & i & gc & Hk & _).
  rewrite (Hnone sched st Hrun) in Hk. discriminate Hk.
Qed.

Lemma out_main_only (out : list (Tid * Metric)) :
  (forall k x, ~ In (Unit k, x) out) -> out = List.map (pair Main) (sentBy Main out).
Proof.
  induction out as [| [t x] out IH]; [reflexivity |]. intros Hnone.
  destruct t as [| k]; [| exfalso; exact (Hnone k x (or_introl eq_refl))].
  rewrite sentBy_cons. cbn [List.map]. f_equal.
  apply IH. intros k y Hin. exact (Hnone k y (or_intror Hin)).
Qed.

(** X17: a request whose [collect[]] parameters name none of the enabled
    scrapers is not an error.  When [sql.Open] succeeds, its cycle starts no
    goroutine and runs no query; [Collect] opens and closes the handle and
    sends the duration of the connection phase and its own four metrics and
    nothing else; the last-scrape-error gauge is 0, the up gauge 1, and no
    error counter changes. *)
Theorem unknown_collect_params_scrape_nothing (parseFloat : Parser) (timeoutOffset : float)
    (dsn : string) (enabled : list Scraper) (sv : Served) (m : Metrics) (db : DB)
    (st : State) :
  collectParams (sv_request sv) <> [] ->
  (forall s, In s enabled -> ~ In (Name s) (collectParams (sv_request sv))) ->
  sv_open sv "cubrid" dsn = inr db ->
  run (sv_since sv) (sv_sched sv) (requestStart parseFloat timeoutOffset dsn enabled sv m)
  = Some st ->
  st_units st = []
  /\ sv_sched sv = repeat Main (length (sv_sched sv))
  /\ (collected st ->
      length (sv_sched sv) = 14%nat
      /\ st_out st
         = List.map (pair Main)
             (durationSample (sv_since sv) "connection"
                :: MkMetric TotalScrapesDesc (CounterValue (TotalScrapes m + 1)) []
                :: MkMetric ErrorDesc (GaugeValue 0) []
                :: samplesScrapeErrors m ++ [MkMetric CubridUpDesc (GaugeValue 1) []])
      /\ ScrapeErrors (st_metrics st) = ScrapeErrors m
      /\ st_conn st = MkConn 1 1 1 1 Minute).
Proof.
  intros Hne Hnone Hopen. rewrite requestStart_eq.
  rewrite (filterScrapers_none enabled _ Hne Hnone).
  set (ctx := snd (handlerContext parseFloat timeoutOffset (timeoutHeader (sv_request sv)))).
  set (st0 := start (sv_since sv) (sv_open sv) ctx dsn [] m).
  intros Hrun.
  assert (Hunits : forall sched st', run (sv_since sv) sched st0 = Some st' ->
                                     st_units st' = []).
  { intros sched st' Hrun'.
    pose proof (reachable_Inv _ _ _ _ _ _ _ Hopen sched st' Hrun') as HI.
    pose proof (f_equal started (inv_code _ _ _ _ _ _ HI)) as Hs.
    rewrite started_app, collectCode_started, Hopen in Hs.
    apply app_eq_nil in Hs as [Hs _].
    pose proof (inv_started _ _ _ _ _ _ HI) as Hu. rewrite Hs in Hu.
    now destruct (st_units st'). }
  split; [exact (Hunits _ _ Hrun) |].
  split; [exact (only_Main _ st0 Hunits (sv_sched sv) [] st0 st eq_refl Hrun) |].
  intros Hend.
  pose proof (reachable_Inv _ _ _ _ _ _ _ Hopen _ st Hrun) as HI.
  destruct (end_state _ _ _ _ _ _ _ Hopen _ st Hrun Hend)
    as (Herrors & Herror & Htotal & Hup & Hconn).
  destruct (main_output _ _ _ _ _ _ _ _ st Hopen Hrun Hend) as [Hmain _].
  assert (Hmap : ScrapeErrors (st_metrics st) = ScrapeErrors m).
  { assert (Hstep : forall sched st1 st2,
               run (sv_since sv) sched st1 = Some st2 -> st_units st1 = [] ->
               (forall sched' st', run (sv_since sv) sched' st1 = Some st' -> st_units st' = []) ->
               sched = repeat Main (length sched) ->
               existsb (fun i => match i with ScrapeErrors_Inc _ => true | _ => false end)
                       (st_main st1) = false ->
               ScrapeErrors (st_metrics st2) = ScrapeErrors (st_metrics st1)).
    { induction sched as [| t sched IH]; intros st1 st2 Hr Hu Hall Hs Hno.
      - cbn in Hr. now injection Hr as <-.
      - cbn [length repeat] in Hs. injection Hs as -> Hs. cbn [run] in Hr.
        destruct (step (sv_since sv) Main st1) as [st1' |] eqn:Hst; [| discriminate].
        destruct (step_Main_inv _ _ _ Hst) as (i & mn & Hmn & Hexec).
        rewrite Hmn in Hno. cbn [existsb] in Hno. apply orb_false_elim in Hno as [Hi Hno].
        assert (Hm1 : ScrapeErrors (st_metrics st1') = ScrapeErrors (st_metrics st1)
                      /\ st_main st1' = mn).
        { destruct st1 as [dn mn1 us wg m1 c out lg]. cbn [st_main] in Hmn. subst mn1.
          cbn [st_done st_units st_wg st_metrics st_conn st_out st_log] in Hexec.
          destruct i; cbn [exec] in Hexec; try discriminate Hi;
            try (destruct (0 <? wg)%Z; [| discriminate Hexec]);
            try (destruct (wg =? 0)%Z; [| discriminate Hexec]);
            injection Hexec as <-; now split. }
        destruct Hm1 as [Hm1 Hmn1]. rewrite <- Hm1.
        apply (IH st1' st2 Hr).
        + apply (Hall [Main] st1'). cbn [run]. now rewrite Hst.
        + intros sched' st' Hr'. apply (Hall (Main :: sched') st'). cbn [run]. now rewrite Hst.
        + exact Hs.
        + now rewrite Hmn1. }
    apply (Hstep (sv_sched sv) st0 st Hrun eq_refl Hunits
             (only_Main _ st0 Hunits (sv_sched sv) [] st0 st eq_refl Hrun)).
    unfold st0, start, collectCode, scrapeCode. cbn [st_main]. now rewrite Hopen. }
  split; [| split; [| split]].
  - pose proof (run_weight _ _ _ _ _ _ _ st (Inv_start (sv_since sv) (sv_open sv) ctx dsn [] m db
                                               ltac:(intros db' Hdb'; congruence)) Hrun) as Hw.
    unfold weight in Hw. rewrite (Hunits _ _ Hrun) in Hw.
    unfold collected in Hend. rewrite Hend in Hw.
    unfold st0, start, collectCode, scrapeCode in Hw. cbn [st_main st_units] in Hw.
    rewrite Hopen in Hw. cbn in Hw. lia.
  - rewrite (out_main_only (st_out st)).
    + rewrite Hmain. unfold sampleTotalScrapes, sampleError, sampleCubridUp, samplesScrapeErrors.
      now rewrite Herror, Htotal, Hup, Hmap.
    + intros k x Hin. apply sentBy_In in Hin. rewrite (inv_out _ _ _ _ _ _ HI) in Hin.
      rewrite (Hunits _ _ Hrun) in Hin. exact Hin.
  - exact Hmap.
  - exact Hconn.
Qed.

Lemma unknown_collect_params_scrape_nothing_witness :
  exists st,
    run demoSince (repeat Main 14)
        (requestStart ParseFloat 0.25 "dsn" (enabledScrapers ParseFloat ∅)
           (MkServed (MkRequest ["brokers"] "") demoOpen demoSince (repeat Main 14))
           NewMetrics)
    = Some st
    /\ collected st
    /\ st_units st = []
    /\ st_out st
       = List.map (pair Main)
           [MustNewConstMetric scrapeDurationDesc 0.5 ["connection"];
            MkMetric TotalScrapesDesc (CounterValue 1) [];
            MkMetric ErrorDesc (GaugeValue 0) [];
            MkMetric CubridUpDesc (GaugeValue 1) []].
Proof.
  set (sv := MkServed (MkRequest ["brokers"] "") demoOpen demoSince (repeat Main 14)).
  assert (Hend : option_map st_main
                   (run demoSince (repeat Main 14)
                      (requestStart ParseFloat 0.25 "dsn" (enabledScrapers ParseFloat ∅)
                         sv NewMetrics)) = Some [])
    by (vm_compute; reflexivity).
  destruct (run demoSince (repeat Main 14)
              (requestStart ParseFloat 0.25 "dsn" (enabledScrapers ParseFloat ∅) sv NewMetrics))
    as [st |] eqn:Hrun; [| discriminate Hend].
  injection Hend as Hend. exists st.
  split; [reflexivity | split; [exact Hend |]].
  assert (Hnone : forall s, In s (enabledScrapers ParseFloat ∅) ->
                            ~ In (Name s) (collectParams (sv_request sv))).
  { intros s [<- | [<- | [<- | []]]] [H | []]; discriminate H. }
  destruct (unknown_collect_params_scrape_nothing ParseFloat 0.25 "dsn"
              (enabledScrapers ParseFloat ∅) sv NewMetrics demoDB st
              ltac:(discriminate) Hnone eq_refl Hrun) as (Hunits & _ & Hret).
  split; [exact Hunits |].
  destruct (Hret Hend) as (_ & Hout & _).
  exact Hout.
Defined.

(** ** A timeout header that is not a finite number *)

Lemma non_finite_Prim2SF (x : float) :
  is_nan x = true \/ is_infinity x = true ->
  Prim2SF x = S754_nan \/ exists s, Prim2SF x = S754_infinity s.
Proof.
  unfold is_nan, is_infinity.
  rewrite !FloatAxioms.eqb_spec, FloatAxioms.abs_spec.
  replace (Prim2SF infinity) with (S754_infinity false) by (vm_compute; reflexivity).
  destruct (Prim2SF x) as [s | s | | s m e]; [| right; now exists s | now left |].
  - intros [H | H]; [destruct s |]; discriminate H.
  - intros [H | H]; [| discriminate H]. exfalso.
    unfold SFeqb, SFcompare in H.
    change (PosDef.Pos.compare_cont Eq m m) with (Pos.compare m m) in H.
    rewrite Z.compare_refl, Pos.compare_refl in H. destruct s; discriminate H.
Qed.

(** X18: a timeout header that parses to NaN or to an infinity is not
    rejected: whatever the offset, the handler takes the branch of a valid
    timeout and hands [context.WithTimeout] the conversion to
    [time.Duration] of a number that is not finite, which [int64] cannot
    represent. *)
Theorem non_finite_timeout_is_not_rejected (parseFloat : Parser) (timeoutOffset : float)
    (v : string) (timeoutSeconds : float) :
  v <> "" ->
  parseFloat v = (timeoutSeconds, None) ->
  is_nan timeoutSeconds = true \/ is_infinity timeoutSeconds = true ->
  snd (handlerContext parseFloat timeoutOffset v) = WithTimeout None.
Proof.
  intros Hv Hparse Hx. apply non_finite_Prim2SF in Hx.
  unfold handlerContext. rewrite (eqb_nonempty v Hv), Hparse. unfold adjustTimeout.
  assert (Hsecond : Prim2SF float64_Second
                    = S754_finite false 8388608000000000 (-23))
    by (vm_compute; reflexivity).
  destruct (timeoutSeconds <=? timeoutOffset)%float; cbn [snd]; f_equal; unfold toDuration.
  - rewrite FloatAxioms.mul_spec, Hsecond.
    destruct Hx as [-> | [s ->]]; reflexivity.
  - rewrite FloatAxioms.mul_spec, FloatAxioms.sub_spec, Hsecond.
    destruct Hx as [-> | [s ->]]; [reflexivity |].
    destruct (Prim2SF timeoutOffset) as [s' | s' | | s' m e]; cbn;
      try reflexivity.
    destruct s, s'; reflexivity.
Qed.

Lemma non_finite_timeout_is_not_rejected_witness :
  snd (handlerContext ParseFloat 0.25 "NaN") = WithTimeout None
  /\ snd (handlerContext ParseFloat 0.25 "+Inf") = WithTimeout None.
Proof.
  split.
  - apply (non_finite_timeout_is_not_rejected ParseFloat 0.25 "NaN" nan);
      [discriminate | vm_compute; reflexivity | left; reflexivity].
  - apply (non_finite_timeout_is_not_rejected ParseFloat 0.25 "+Inf" infinity);
      [discriminate | vm_compute; reflexivity | right; reflexivity].
Defined.
